(** * The 123pan upload session: a shallow embedding of [Pan123Uploader]

    The development follows [src/file_uploader.py] method by method.
    [Pan123FileManager.upload_file] in [src/get_token.py] runs the same
    session after it has settled the file name.

    The local file is a name and a byte string.  The remote service is the
    script of what it answers during one session.  The uploader runs in a
    state-and-exception monad whose state holds the log of the requests
    sent, the read position of the open file and the local list
    [uploaded_chunks].  Numbers are Python's: [int] is [Z], and
    [file_size / slice_size] is the binary64 quotient.  The [while True]
    of the polling loop takes a bound on the number of polls; a result is
    stated for every bound that is large enough.

    [Pan123FileManager] comes after: the listings of [src/get_token.py]
    ([list_files], [list_folders], [check_file_exists]), the choice of
    the name under which [upload_file] uploads, and the choice of the
    name under which [download_file] saves.  Its runs are those of a
    second monad, whose state holds the queries of the file list, the
    number of questions put to the user and the upload session, and
    whose runs may end with [sys.exit]. *)

From Stdlib Require Import ZArith List String Ascii Bool Arith Lia.
From Stdlib Require Import DecimalString.
From Stdlib Require DecimalZ.
From Stdlib.Strings Require Import Byte.
From Equations Require Import Equations.
From Equations.Prop Require Import Logic.
Import ListNotations.

Local Open Scope Z_scope.

(* ===================================================================== *)
(** ** Python numbers: [int / int] and [math.ceil] *)
(* ===================================================================== *)

(** [file_size / slice_size] is Python's true division of two [int]s: the
    result is the binary64 value nearest to the exact quotient (ties to
    even), [ZeroDivisionError] for a zero divisor and [OverflowError] when
    the quotient exceeds the binary64 range.  A finite binary64 value is
    kept as [mant * 2 ^ expo]. *)
Module PyFloat.

Record float := mkfloat { mant : Z; expo : Z }.

Inductive quotient :=
| Quot (x : float)
| ZeroDivisionError
| OverflowError.

(** Precision, exponent of the smallest subnormal, exponent of the last
    place of the largest finite value. *)
Definition prec : Z := 53.
Definition emin : Z := -1074.
Definition emax : Z := 971.

(** Nearest integer to [n / d] for [0 <= n] and [0 < d], ties to even. *)
Definition round_half_even (n d : Z) : Z :=
  let q := n / d in
  let r := n mod d in
  if 2 * r <? d then q
  else if d <? 2 * r then q + 1
  else if Z.even q then q else q + 1.

(** [floor (log2 (a / b))] for [0 < a] and [0 < b]. *)
Definition log2_quot (a b : Z) : Z :=
  let d := Z.log2 a - Z.log2 b in
  if 0 <=? d
  then (if b * 2 ^ d <=? a then d else d - 1)
  else (if b <=? a * 2 ^ (- d) then d else d - 1).

(** The exponent of the unit in the last place of the rounded quotient:
    53 significant bits, unless the quotient is subnormal. *)
Definition ulp_exp (a b : Z) : Z :=
  Z.max (log2_quot a b - (prec - 1)) emin.

(** Correctly rounded [a / b] for [0 < a] and [0 < b]. *)
Definition divide_pos (a b : Z) : quotient :=
  let e := ulp_exp a b in
  let m := if 0 <=? e
           then round_half_even a (b * 2 ^ e)
           else round_half_even (a * 2 ^ (- e)) b in
  if (emax <? e) || ((e =? emax) && (2 ^ prec <=? m))
  then OverflowError
  else Quot (mkfloat m e).

Definition fneg (q : quotient) : quotient :=
  match q with
  | Quot x => Quot (mkfloat (- mant x) (expo x))
  | _ => q
  end.

(** [a / b] on Python ints. *)
Definition true_divide (a b : Z) : quotient :=
  if b =? 0 then ZeroDivisionError
  else if a =? 0 then Quot (mkfloat 0 0)
  else
    let q := divide_pos (Z.abs a) (Z.abs b) in
    if Bool.eqb (a <? 0) (b <? 0) then q else fneg q.

(** [math.ceil] of a finite float, a Python int. *)
Definition ceil (x : float) : Z :=
  if 0 <=? expo x
  then mant x * 2 ^ expo x
  else - ((- mant x) / 2 ^ (- expo x)).

End PyFloat.

(** The exact ceiling of [s / k] for [0 < k], the [ceil(S/K)] of the
    specification. *)
Definition ceil_div (s k : Z) : Z := (s + k - 1) / k.

(* ===================================================================== *)
(** ** [hashlib.md5] *)
(* ===================================================================== *)

(** The digest of RFC 1321 on byte strings, and the [hashlib] object: what
    [hexdigest] returns is the digest of the concatenation of the data fed
    by [update] so far. *)
Module Hashlib.

Definition w32 (x : Z) : Z := x mod 2 ^ 32.

Definition rotl (x c : Z) : Z :=
  w32 (Z.lor (Z.shiftl x c) (Z.shiftr x (32 - c))).

Definition not32 (x : Z) : Z := Z.lxor x 0xffffffff.

Definition sines : list Z :=
  [ 0xd76aa478; 0xe8c7b756; 0x242070db; 0xc1bdceee;
    0xf57c0faf; 0x4787c62a; 0xa8304613; 0xfd469501;
    0x698098d8; 0x8b44f7af; 0xffff5bb1; 0x895cd7be;
    0x6b901122; 0xfd987193; 0xa679438e; 0x49b40821;
    0xf61e2562; 0xc040b340; 0x265e5a51; 0xe9b6c7aa;
    0xd62f105d; 0x02441453; 0xd8a1e681; 0xe7d3fbc8;
    0x21e1cde6; 0xc33707d6; 0xf4d50d87; 0x455a14ed;
    0xa9e3e905; 0xfcefa3f8; 0x676f02d9; 0x8d2a4c8a;
    0xfffa3942; 0x8771f681; 0x6d9d6122; 0xfde5380c;
    0xa4beea44; 0x4bdecfa9; 0xf6bb4b60; 0xbebfbc70;
    0x289b7ec6; 0xeaa127fa; 0xd4ef3085; 0x04881d05;
    0xd9d4d039; 0xe6db99e5; 0x1fa27cf8; 0xc4ac5665;
    0xf4292244; 0x432aff97; 0xab9423a7; 0xfc93a039;
    0x655b59c3; 0x8f0ccc92; 0xffeff47d; 0x85845dd1;
    0x6fa87e4f; 0xfe2ce6e0; 0xa3014314; 0x4e0811a1;
    0xf7537e82; 0xbd3af235; 0x2ad7d2bb; 0xeb86d391 ].

Definition shifts : list Z :=
  [ 7; 12; 17; 22; 7; 12; 17; 22; 7; 12; 17; 22; 7; 12; 17; 22;
    5; 9; 14; 20; 5; 9; 14; 20; 5; 9; 14; 20; 5; 9; 14; 20;
    4; 11; 16; 23; 4; 11; 16; 23; 4; 11; 16; 23; 4; 11; 16; 23;
    6; 10; 15; 21; 6; 10; 15; 21; 6; 10; 15; 21; 6; 10; 15; 21 ].

Definition byte_val (b : byte) : Z := Z.of_N (Byte.to_N b).

Definition byte_of (z : Z) : byte :=
  match Byte.of_N (Z.to_N (z mod 256)) with
  | Some b => b
  | None => x00
  end.

(** [n] little-endian bytes of [z]. *)
Fixpoint le_bytes (n : nat) (z : Z) : list byte :=
  match n with
  | O => []
  | S n' => byte_of z :: le_bytes n' (Z.shiftr z 8)
  end.

Fixpoint le_word (bs : list byte) : Z :=
  match bs with
  | [] => 0
  | b :: bs' => byte_val b + 256 * le_word bs'
  end.

(** The message followed by [0x80], zeros up to 56 modulo 64 and the bit
    length on 8 bytes. *)
Definition pad (msg : list byte) : list byte :=
  let len := Z.of_nat (List.length msg) in
  let zeros := Z.to_nat ((55 - len) mod 64) in
  msg ++ x80 :: repeat x00 zeros ++ le_bytes 8 ((8 * len) mod 2 ^ 64).

(** The [n] 32-bit words of a block. *)
Fixpoint words (n : nat) (bs : list byte) : list Z :=
  match n with
  | O => []
  | S n' => le_word (firstn 4 bs) :: words n' (skipn 4 bs)
  end.

Definition regs : Type := Z * Z * Z * Z.

Definition round (m : list Z) (i : Z) (r : regs) : regs :=
  let '(a, b, c, d) := r in
  let '(f, g) :=
    if i <? 16 then (Z.lor (Z.land b c) (Z.land (not32 b) d), i)
    else if i <? 32 then (Z.lor (Z.land d b) (Z.land (not32 d) c), (5 * i + 1) mod 16)
    else if i <? 48 then (Z.lxor (Z.lxor b c) d, (3 * i + 5) mod 16)
    else (Z.lxor c (Z.lor b (not32 d)), (7 * i) mod 16) in
  let f' := w32 (f + a + nth (Z.to_nat i) sines 0 + nth (Z.to_nat g) m 0) in
  (d, w32 (b + rotl f' (nth (Z.to_nat i) shifts 0)), b, c).

Definition block (r : regs) (bs : list byte) : regs :=
  let m := words 16 bs in
  let '(a, b, c, d) :=
    fold_left (fun acc i => round m (Z.of_nat i) acc) (seq 0 64) r in
  let '(a0, b0, c0, d0) := r in
  (w32 (a0 + a), w32 (b0 + b), w32 (c0 + c), w32 (d0 + d)).

Fixpoint blocks (n : nat) (r : regs) (bs : list byte) : regs :=
  match n with
  | O => r
  | S n' => blocks n' (block r (firstn 64 bs)) (skipn 64 bs)
  end.

Definition digest (msg : list byte) : list byte :=
  let p := pad msg in
  let '(a, b, c, d) :=
    blocks (List.length p / 64)
           (0x67452301, 0xefcdab89, 0x98badcfe, 0x10325476) p in
  le_bytes 4 a ++ le_bytes 4 b ++ le_bytes 4 c ++ le_bytes 4 d.

Definition hex_digit (z : Z) : ascii :=
  ascii_of_nat (Z.to_nat (if z <? 10 then 48 + z else 87 + z)).

Fixpoint hex (bs : list byte) : string :=
  match bs with
  | [] => EmptyString
  | b :: bs' =>
      String (hex_digit (byte_val b / 16))
             (String (hex_digit (byte_val b mod 16)) (hex bs'))
  end.

(** The hash object: the data it has been fed. *)
Record md5_hash := { fed : list byte }.

Definition md5 (data : list byte) : md5_hash := {| fed := data |}.

Definition update (h : md5_hash) (data : list byte) : md5_hash :=
  {| fed := fed h ++ data |}.

Definition hexdigest (h : md5_hash) : string := hex (digest (fed h)).

End Hashlib.

(* ===================================================================== *)
(** ** The local file and the remote service *)
(* ===================================================================== *)

(** The file behind [file_path]: [os.path.basename] and the bytes that
    [open(file_path, 'rb')] reads.  The file is not modified while it is
    uploaded, and reading it fails neither on the device nor for lack of
    memory. *)
Record LocalFile := { basename : string; content : list byte }.

(** [os.path.getsize]. *)
Definition getsize (file : LocalFile) : Z := Z.of_nat (List.length (content file)).

(** [sys.maxsize] of a 64-bit CPython, the largest [Py_ssize_t], and the
    largest size of a [bytes] object, which is [sys.maxsize] less the 33
    bytes of the header of the object. *)
Definition sys_maxsize : Z := 2 ^ 63 - 1.

Definition bytes_maxsize : Z := sys_maxsize - 33.

(** [f.read(n)] on the unread rest of a binary file, for a size that
    [read] accepts, [-1 <= n <= bytes_maxsize]: the bytes returned and
    the new rest; [-1] reads to the end.  The other sizes raise, see
    [read_raises] and [f_read]. *)
Definition read (n : Z) (f : list byte) : list byte * list byte :=
  if n <? 0 then (f, [])
  else (firstn (Z.to_nat n) f, skipn (Z.to_nat n) f).

(** Every JSON answer of the service: [code], [message], [data]. *)
Record Envelope (A : Type) := { code : Z; message : string; data : A }.
Arguments code {A} _.
Arguments message {A} _.
Arguments data {A} _.

(** [data] of [/upload/v1/file/create]; the four fields are read with
    [.get], so each may be missing. *)
Record CreateData := {
  preuploadID : option string;
  create_fileID : option Z;
  reuse : option bool;
  sliceSize : option Z
}.

(** [data] of [/upload/v1/file/get_upload_url]. *)
Record UploadUrlData := { presignedURL : string }.

(** An entry of [parts], and of the local [uploaded_chunks]. *)
Record Part := { partNumber : Z; etag : string }.

(** [data] of [/upload/v1/file/list_upload_parts]. *)
Record PartsData := { parts : list Part }.

(** [data] of [/upload/v1/file/upload_complete]; [fileID] is read with
    [.get]. *)
Record CompleteData := {
  complete_fileID : option Z;
  async : bool;
  completed : bool
}.

(** [data] of [/upload/v1/file/upload_async_result]. *)
Record AsyncData := { async_completed : bool; async_fileID : Z }.

(** The answer to the [PUT] of a chunk. *)
Record PutResponse := { status_code : Z; text : string }.

(** What the service answers during one session.  The create, list and
    complete endpoints are called at most once; the upload address is
    answered per slice number; the [PUT]s and the polls are answered by
    their rank among the calls of their kind, from 0.  The uploader sends
    its requests in a fixed order, so for a given file every deterministic
    service is such a script.  The answers are well-formed: each carries
    the fields that the code indexes, and a request that gets no answer
    (a connection error) is outside the model. *)
Record Remote := {
  on_create : Envelope CreateData;
  on_get_upload_url : Z -> Envelope UploadUrlData;
  on_put : nat -> PutResponse;
  on_list_upload_parts : Envelope PartsData;
  on_upload_complete : Envelope CompleteData;
  on_upload_async_result : nat -> Envelope AsyncData
}.

(** The requests the uploader sends, with their payloads. *)
Inductive Call :=
| CreateFile (parentFileID : Z) (filename : string) (etag : string) (size : Z)
| GetUploadUrl (preuploadID : string) (sliceNo : Z)
| PutChunk (url : string) (body : list byte)
| ListUploadParts (preuploadID : string)
| UploadComplete (preuploadID : string)
| UploadAsyncResult (preuploadID : string).

Definition is_put (c : Call) : bool :=
  match c with PutChunk _ _ => true | _ => false end.

Definition is_get_upload_url (c : Call) : bool :=
  match c with GetUploadUrl _ _ => true | _ => false end.

Definition is_list_upload_parts (c : Call) : bool :=
  match c with ListUploadParts _ => true | _ => false end.

Definition is_upload_complete (c : Call) : bool :=
  match c with UploadComplete _ => true | _ => false end.

Definition is_async_result (c : Call) : bool :=
  match c with UploadAsyncResult _ => true | _ => false end.

Definition count (p : Call -> bool) (cs : list Call) : nat :=
  List.length (filter p cs).

(* ===================================================================== *)
(** ** The monad of the uploader *)
(* ===================================================================== *)

(** The exceptions of the session.  The source raises [Exception] with a
    formatted message at each site; a constructor stands for a site and
    carries what the message is formatted from.  [ZeroDivisionError]
    and [OverflowError] are raised by [file_size / slice_size];
    [OverflowError] and [ValueError] are raised by [f.read]. *)
Inductive Exn :=
| CreateFileFailed (message : string)
| GetUploadUrlFailed (message : string)
| ListPartsFailed (message : string)
| CompleteUploadFailed (message : string)
| AsyncResultFailed (message : string)
| ChunkUploadFailed (slice_no : Z) (text : string)
| ChunkVerifyFailed (partNumber : Z)
| ZeroDivisionError
| OverflowError
| ValueError.

(** How a run ends: a value, an exception, or still inside the polling
    loop when the fuel given to it is used up. *)
Inductive Outcome (A : Type) :=
| Return (a : A)
| Raise (e : Exn)
| Polling.
Arguments Return {A} a.
Arguments Raise {A} e.
Arguments Polling {A}.

Record State := {
  calls : list Call;            (* the requests sent, oldest first *)
  f_pos : list byte;            (* the unread rest of the open file *)
  uploaded_chunks : list Part   (* the local list of [upload_file] *)
}.

Definition start : State :=
  {| calls := []; f_pos := []; uploaded_chunks := [] |}.

Definition M (A : Type) : Type := State -> Outcome A * State.

Definition ret {A} (a : A) : M A := fun st => (Return a, st).

Definition raise {A} (e : Exn) : M A := fun st => (Raise e, st).

Definition bind {A B} (m : M A) (k : A -> M B) : M B :=
  fun st =>
    match m st with
    | (Return a, st') => k a st'
    | (Raise e, st') => (Raise e, st')
    | (Polling, st') => (Polling, st')
    end.

Notation "x <- m ;; k" := (bind m (fun x => k))
  (at level 61, m at next level, right associativity).
Notation "' p <- m ;; k" := (bind m (fun x => let 'p := x in k))
  (at level 61, p pattern, m at next level, right associativity).
Notation "m ;; k" := (bind m (fun _ => k))
  (at level 61, right associativity).

(** A request leaves the process. *)
Definition send (c : Call) : M unit :=
  fun st => (Return tt,
             {| calls := calls st ++ [c];
                f_pos := f_pos st;
                uploaded_chunks := uploaded_chunks st |}).

Definition sent (p : Call -> bool) : M nat :=
  fun st => (Return (count p (calls st)), st).

(** [open(file_path, 'rb')]. *)
Definition open (file : LocalFile) : M unit :=
  fun st => (Return tt,
             {| calls := calls st;
                f_pos := content file;
                uploaded_chunks := uploaded_chunks st |}).

(** What [f.read(n)] raises before it reads anything: [OverflowError]
    for a size that is no [Py_ssize_t] (cannot fit 'int' into an
    index-sized integer), [ValueError] for a negative size other than
    [-1] (read length must be non-negative or -1), [OverflowError] for a
    size above the largest [bytes] object (byte string is too large). *)
Definition read_raises (n : Z) : option Exn :=
  if (n <? - sys_maxsize - 1) || (sys_maxsize <? n) then Some OverflowError
  else if n <? -1 then Some ValueError
  else if bytes_maxsize <? n then Some OverflowError
  else None.

(** [f.read(n)] on the open file. *)
Definition f_read (n : Z) : M (list byte) :=
  fun st =>
    match read_raises n with
    | Some e => (Raise e, st)
    | None =>
        (Return (fst (read n (f_pos st))),
         {| calls := calls st;
            f_pos := snd (read n (f_pos st));
            uploaded_chunks := uploaded_chunks st |})
    end.

(** [uploaded_chunks = []] and [uploaded_chunks.append(p)]. *)
Definition uploaded_chunks_new : M unit :=
  fun st => (Return tt,
             {| calls := calls st; f_pos := f_pos st; uploaded_chunks := [] |}).

Definition uploaded_chunks_append (p : Part) : M unit :=
  fun st => (Return tt,
             {| calls := calls st;
                f_pos := f_pos st;
                uploaded_chunks := uploaded_chunks st ++ [p] |}).

Definition get_uploaded_chunks : M (list Part) :=
  fun st => (Return (uploaded_chunks st), st).

(** [d.get(key, default)]. *)
Definition get {A} (field : option A) (default : A) : A :=
  match field with Some v => v | None => default end.

Definition lift {A} (o : Outcome A) : M A := fun st => (o, st).

(** [for i in range(stop): body(i)], from [i]. *)
Fixpoint for_range (n : nat) (i : Z) (body : Z -> M unit) : M unit :=
  match n with
  | O => ret tt
  | S n' => body i ;; for_range n' (i + 1) body
  end.

Definition range (stop : Z) (body : Z -> M unit) : M unit :=
  for_range (Z.to_nat stop) 0 body.

(* ===================================================================== *)
(** ** [Pan123Uploader] *)
(* ===================================================================== *)

#[local] Obligation Tactic := idtac.

(** [iter(lambda: f.read(n), b'')]: the windows read from the rest [f]
    of a file until a read returns [b'']. *)
Equations? iter_read (n : Z) (f : list byte) : list (list byte)
  by wf (List.length f) lt :=
  iter_read n f with inspect (fst (read n f)) := {
    | exist _ [] _ := [];
    | exist _ (b :: chunk) e :=
        (b :: chunk) :: iter_read n (snd (read n f)) }.
Proof.
  assert (L : List.length (fst (read n f) ++ snd (read n f)) = List.length f).
  { f_equal. unfold read. destruct (n <? 0); cbn [fst snd];
      [apply app_nil_r | apply firstn_skipn]. }
  rewrite length_app, e in L. cbn [List.length] in L. lia.
Qed.

(** [for chunk in ...: md5_hash.update(chunk)]; 4096 is a size that
    [f.read] accepts. *)
Definition calculate_file_md5 (file : LocalFile) : string :=
  let md5_hash := Hashlib.md5 [] in
  Hashlib.hexdigest
    (fold_left Hashlib.update (iter_read 4096 (content file)) md5_hash).

Definition calculate_chunk_md5 (chunk : list byte) : string :=
  Hashlib.hexdigest (Hashlib.md5 chunk).

(** [math.ceil(file_size / slice_size)]. *)
Definition total_chunks (file_size slice_size : Z) : Outcome Z :=
  match PyFloat.true_divide file_size slice_size with
  | PyFloat.Quot x => Return (PyFloat.ceil x)
  | PyFloat.ZeroDivisionError => Raise ZeroDivisionError
  | PyFloat.OverflowError => Raise OverflowError
  end.

Section Session.

Variable remote : Remote.

Definition create_file (filename : string) (file : LocalFile) (parent_id : Z)
  : M (string * Z * bool * Z) :=
  let file_size := getsize file in
  let file_md5 := calculate_file_md5 file in
  send (CreateFile parent_id filename file_md5 file_size) ;;
  let r := on_create remote in
  if code r =? 0 then
    ret (get (preuploadID (data r)) ""%string,
         get (create_fileID (data r)) 0,
         get (reuse (data r)) false,
         get (sliceSize (data r)) 0)
  else raise (CreateFileFailed (message r)).

Definition get_upload_url (preupload_id : string) (slice_no : Z) : M string :=
  send (GetUploadUrl preupload_id slice_no) ;;
  let r := on_get_upload_url remote slice_no in
  if code r =? 0 then ret (presignedURL (data r))
  else raise (GetUploadUrlFailed (message r)).

(** [requests.put(upload_url, data=chunk)]. *)
Definition requests_put (upload_url : string) (chunk : list byte) : M PutResponse :=
  rank <- sent is_put ;;
  send (PutChunk upload_url chunk) ;;
  ret (on_put remote rank).

Definition list_uploaded_parts (preupload_id : string) : M (list Part) :=
  send (ListUploadParts preupload_id) ;;
  let r := on_list_upload_parts remote in
  if code r =? 0 then ret (parts (data r))
  else raise (ListPartsFailed (message r)).

Definition complete_upload (preupload_id : string) : M (Z * bool * bool) :=
  send (UploadComplete preupload_id) ;;
  let r := on_upload_complete remote in
  if code r =? 0 then
    ret (get (complete_fileID (data r)) 0, async (data r), completed (data r))
  else raise (CompleteUploadFailed (message r)).

Definition check_async_result (preupload_id : string) : M (bool * Z) :=
  rank <- sent is_async_result ;;
  send (UploadAsyncResult preupload_id) ;;
  let r := on_upload_async_result remote rank in
  if code r =? 0 then ret (async_completed (data r), async_fileID (data r))
  else raise (AsyncResultFailed (message r)).

(** The body of the loop of step 2, for one [chunk_index]. *)
Definition upload_chunk (preupload_id : string) (slice_size : Z)
           (chunk_index : Z) : M unit :=
  chunk <- f_read slice_size ;;
  let slice_no := chunk_index + 1 in
  upload_url <- get_upload_url preupload_id slice_no ;;
  response <- requests_put upload_url chunk ;;
  if negb (status_code response =? 200)
  then raise (ChunkUploadFailed slice_no (text response))
  else uploaded_chunks_append
         {| partNumber := slice_no; etag := calculate_chunk_md5 chunk |}.

(** The loop of step 3, [for local_part in uploaded_chunks]. *)
Fixpoint verify_parts (server_parts uploaded : list Part) : M unit :=
  match uploaded with
  | [] => ret tt
  | local_part :: rest =>
      match find (fun p => partNumber p =? partNumber local_part) server_parts with
      | None => raise (ChunkVerifyFailed (partNumber local_part))
      | Some server_part =>
          if negb (String.eqb (etag server_part) (etag local_part))
          then raise (ChunkVerifyFailed (partNumber local_part))
          else verify_parts server_parts rest
      end
  end.

(** The loop of step 5, [while True], one second of sleep between two
    polls; [fuel] bounds the number of polls of a run. *)
Fixpoint wait_async_result (fuel : nat) (preupload_id : string) : M Z :=
  match fuel with
  | O => lift Polling
  | S fuel' =>
      '(completed, final_file_id) <- check_async_result preupload_id ;;
      if completed : bool then ret final_file_id
      else wait_async_result fuel' preupload_id
  end.

(** Step 2, [# 2. 分片上传]: the chunks are read and pushed in turn. *)
Definition upload_chunks (file : LocalFile) (preupload_id : string)
           (slice_size : Z) : M unit :=
  let file_size := getsize file in
  total_chunks <- lift (total_chunks file_size slice_size) ;;
  uploaded_chunks_new ;;
  open file ;;
  range total_chunks (upload_chunk preupload_id slice_size).

(** Step 3, [# 3. 验证分片（如果文件大于分片大小）]. *)
Definition verify_chunks (file : LocalFile) (preupload_id : string)
           (slice_size : Z) : M unit :=
  let file_size := getsize file in
  if file_size >? slice_size then
    server_parts <- list_uploaded_parts preupload_id ;;
    uploaded <- get_uploaded_chunks ;;
    verify_parts server_parts uploaded
  else ret tt.

(** Steps 4 and 5, [# 4. 完成上传] and [# 5. 如果需要，等待异步结果]. *)
Definition finish_upload (fuel : nat) (preupload_id : string) : M Z :=
  '(file_id, is_async, is_completed) <- complete_upload preupload_id ;;
  if is_async : bool then wait_async_result fuel preupload_id
  else ret file_id.

(** [upload_file], step 1 [# 1. 创建文件] and then the steps above, in
    the order of the source. *)
Definition upload_file (fuel : nat) (file : LocalFile) (parent_id : Z) : M Z :=
  let filename := basename file in
  '(preupload_id, file_id, is_reuse, slice_size) <-
    create_file filename file parent_id ;;
  if is_reuse : bool then ret file_id
  else
    upload_chunks file preupload_id slice_size ;;
    verify_chunks file preupload_id slice_size ;;
    finish_upload fuel preupload_id.

End Session.

(* ===================================================================== *)
(** ** Notions used to state the properties *)
(* ===================================================================== *)

(** The bytes of [f] at the positions of [[lo, hi)]. *)
Definition byte_range (f : list byte) (lo hi : Z) : list byte :=
  firstn (Z.to_nat (hi - lo)) (skipn (Z.to_nat lo) f).

(** The byte range of the chunk of index [i] (slice number [i + 1]) in a
    file of [file_size] bytes cut in slices of [slice_size]. *)
Definition chunk_range (file_size slice_size : Z) (i : Z) : Z * Z :=
  (Z.min (i * slice_size) file_size,
   Z.min ((i + 1) * slice_size) file_size).

Definition chunk_bytes (file : LocalFile) (slice_size : Z) (i : nat) : list byte :=
  byte_range (content file)
             (fst (chunk_range (getsize file) slice_size (Z.of_nat i)))
             (snd (chunk_range (getsize file) slice_size (Z.of_nat i))).

(** The create call answers with a chunked upload under the token
    [preupload_id] and the slice size [slice_size]. *)
Definition chunked_session (remote : Remote) (preupload_id : string)
           (slice_size : Z) : Prop :=
  code (on_create remote) = 0 /\
  get (reuse (data (on_create remote))) false = false /\
  get (preuploadID (data (on_create remote))) ""%string = preupload_id /\
  get (sliceSize (data (on_create remote))) 0 = slice_size.

(** The service hands out an upload address for each of the first [n]
    chunks and accepts their [PUT]. *)
Definition chunks_accepted (remote : Remote) (n : nat) : Prop :=
  forall i, (i < n)%nat ->
    code (on_get_upload_url remote (Z.of_nat i + 1)) = 0 /\
    status_code (on_put remote i) = 200.

Definition upload_url (remote : Remote) (i : nat) : string :=
  presignedURL (data (on_get_upload_url remote (Z.of_nat i + 1))).

(** The two requests of the chunk of index [i]. *)
Definition chunk_requests (remote : Remote) (preupload_id : string)
           (file : LocalFile) (slice_size : Z) (i : nat) : list Call :=
  [GetUploadUrl preupload_id (Z.of_nat i + 1);
   PutChunk (upload_url remote i) (chunk_bytes file slice_size i)].

(** The requests of the chunks of index [i0 .. i0 + n - 1]. *)
Definition chunk_calls (remote : Remote) (preupload_id : string)
           (file : LocalFile) (slice_size : Z) (i0 n : nat) : list Call :=
  flat_map (chunk_requests remote preupload_id file slice_size) (seq i0 n).

(** The local record of the chunk of index [i]. *)
Definition chunk_record (file : LocalFile) (slice_size : Z) (i : nat) : Part :=
  {| partNumber := Z.of_nat i + 1;
     etag := calculate_chunk_md5 (chunk_bytes file slice_size i) |}.

(** The records of the chunks of index [i0 .. i0 + n - 1]. *)
Definition chunk_records (file : LocalFile) (slice_size : Z) (i0 n : nat)
  : list Part :=
  map (chunk_record file slice_size) (seq i0 n).

(** The state in which the iteration of index [i] of step 2 starts: [i]
    chunks have been pushed and the file is read up to the start of the
    chunk of index [i]. *)
Definition at_chunk (file : LocalFile) (slice_size : Z) (i : nat)
           (st : State) : Prop :=
  count is_put (calls st) = i /\
  f_pos st = skipn (i * Z.to_nat slice_size) (content file).

(** The request that opens the session. *)
Definition create_call (file : LocalFile) (parent_id : Z) : Call :=
  CreateFile parent_id (basename file) (calculate_file_md5 file) (getsize file).

(** The entry the verification compares a local record to: the first
    entry of the server list with the same part number. *)
Definition server_entry (server_parts : list Part) (local_part : Part)
  : option Part :=
  find (fun p => partNumber p =? partNumber local_part) server_parts.

Definition part_verified (server_parts : list Part) (local_part : Part) : bool :=
  match server_entry server_parts local_part with
  | Some server_part => String.eqb (etag server_part) (etag local_part)
  | None => false
  end.

(** The verification of step 3 lets the records of the first [n] chunks
    through: it does not apply, or the parts are listed and every record
    has its entry. *)
Definition parts_verified (remote : Remote) (file : LocalFile)
           (slice_size : Z) (n : nat) : Prop :=
  slice_size < getsize file ->
  code (on_list_upload_parts remote) = 0 /\
  forallb (part_verified (parts (data (on_list_upload_parts remote))))
          (chunk_records file slice_size 0 n) = true.

(** The session gets through steps 1 and 2: a chunked session is opened
    with a slice size that [f.read] accepts, the chunk count is [total]
    and every chunk is accepted. *)
Definition chunks_uploaded (remote : Remote) (file : LocalFile)
           (preupload_id : string) (slice_size total : Z) : Prop :=
  chunked_session remote preupload_id slice_size /\
  0 < slice_size <= bytes_maxsize /\
  total_chunks (getsize file) slice_size = Return total /\
  chunks_accepted remote (Z.to_nat total).

(** It gets through step 3 as well, and the complete call succeeds. *)
Definition upload_completes (remote : Remote) (file : LocalFile)
           (preupload_id : string) (slice_size total : Z) : Prop :=
  chunks_uploaded remote file preupload_id slice_size total /\
  parts_verified remote file slice_size (Z.to_nat total) /\
  code (on_upload_complete remote) = 0.

(** The state [st] after the requests [cs]. *)
Definition log (cs : list Call) (st : State) : State :=
  {| calls := calls st ++ cs;
     f_pos := f_pos st;
     uploaded_chunks := uploaded_chunks st |}.

(** The state at the end of step 2 when [n] chunks went through. *)
Definition after_chunks (remote : Remote) (file : LocalFile) (parent_id : Z)
           (preupload_id : string) (slice_size : Z) (n : nat) : State :=
  {| calls := create_call file parent_id
              :: chunk_calls remote preupload_id file slice_size 0 n;
     f_pos := skipn (n * Z.to_nat slice_size) (content file);
     uploaded_chunks := chunk_records file slice_size 0 n |}.

(** The same service with another [fileID] in the answer to the create
    call. *)
Definition with_create_file_id (file_id : option Z) (remote : Remote) : Remote :=
  {| on_create :=
       {| code := code (on_create remote);
          message := message (on_create remote);
          data := {| preuploadID := preuploadID (data (on_create remote));
                     create_fileID := file_id;
                     reuse := reuse (data (on_create remote));
                     sliceSize := sliceSize (data (on_create remote)) |} |};
     on_get_upload_url := on_get_upload_url remote;
     on_put := on_put remote;
     on_list_upload_parts := on_list_upload_parts remote;
     on_upload_complete := on_upload_complete remote;
     on_upload_async_result := on_upload_async_result remote |}.

(* ===================================================================== *)
(** ** Sample sessions *)
(* ===================================================================== *)

Definition ok {A} (d : A) : Envelope A :=
  {| code := 0; message := "ok"; data := d |}.

(** A service that answers every call with success: [create] as given,
    the address ["https://upload/"] for every slice, the status [puts n]
    for the [PUT] of rank [n], the list [server_parts], [complete] as given
    and [polls n] for the poll of rank [n]. *)
Definition scripted (create : CreateData) (puts : nat -> Z)
           (server_parts : list Part) (complete : CompleteData)
           (polls : nat -> AsyncData) : Remote :=
  {| on_create := ok create;
     on_get_upload_url := fun _ => ok {| presignedURL := "https://upload/" |};
     on_put := fun n => {| status_code := puts n; text := "" |};
     on_list_upload_parts := ok {| parts := server_parts |};
     on_upload_complete := ok complete;
     on_upload_async_result := fun n => ok (polls n) |}.

Definition chunked (token : option string) (slice : option Z) : CreateData :=
  {| preuploadID := token; create_fileID := Some 5;
     reuse := Some false; sliceSize := slice |}.

Definition completed_as (file_id : Z) : CompleteData :=
  {| complete_fileID := Some file_id; async := false; completed := true |}.

Definition deferred : CompleteData :=
  {| complete_fileID := None; async := true; completed := false |}.

(** Completed with file id 42 from the third poll on. *)
Definition third_poll (n : nat) : AsyncData :=
  {| async_completed := (2 <=? n)%nat; async_fileID := 42 |}.

Definition no_poll (n : nat) : AsyncData :=
  {| async_completed := false; async_fileID := 0 |}.

(** Ten bytes; with slices of 4 bytes, the chunks [1..4], [5..8], [9..10]. *)
Definition ten_bytes : LocalFile :=
  {| basename := "ten.bin";
     content := [x01; x02; x03; x04; x05; x06; x07; x08; x09; x0a] |}.

(** What the service has recorded when the ten bytes arrived intact. *)
Definition ten_bytes_parts : list Part :=
  [ {| partNumber := 1; etag := "08d6c05a21512a79a1dfeb9d2a8f262f" |};
    {| partNumber := 2; etag := "dece8077759a2b36b96fbd1203a832ab" |};
    {| partNumber := 3; etag := "9dd172a836334f81b8e77c6bdd621ba2" |} ].

(** The content already exists remotely, as file 99. *)
Definition remote_reuse : Remote :=
  scripted {| preuploadID := None; create_fileID := Some 99;
              reuse := Some true; sliceSize := None |}
           (fun _ => 200) [] (completed_as 7) no_poll.

(** Success without a session token. *)
Definition remote_no_token : Remote :=
  scripted (chunked None (Some 4)) (fun _ => 200) ten_bytes_parts
           (completed_as 7) no_poll.

(** Success with a negative slice size. *)
Definition remote_negative_slice : Remote :=
  scripted (chunked (Some "tok"%string) (Some (-4))) (fun _ => 200) []
           (completed_as 7) no_poll.

(** Success without a slice size. *)
Definition remote_no_slice : Remote :=
  scripted (chunked (Some "tok"%string) None) (fun _ => 200) []
           (completed_as 7) no_poll.

(** The ten bytes go through in three chunks and the upload completes
    at once, as file 7. *)
Definition remote_plain : Remote :=
  scripted (chunked (Some "tok"%string) (Some 4)) (fun _ => 200) ten_bytes_parts
           (completed_as 7) no_poll.

(** The same, with a completion deferred until the third poll. *)
Definition remote_async : Remote :=
  scripted (chunked (Some "tok"%string) (Some 4)) (fun _ => 200) ten_bytes_parts
           deferred third_poll.

(** The [PUT] of the second chunk is refused. *)
Definition remote_second_refused : Remote :=
  scripted (chunked (Some "tok"%string) (Some 4))
           (fun n => if (n =? 1)%nat then 500 else 200) ten_bytes_parts
           (completed_as 7) no_poll.

(** Slices of 5 bytes: two chunks.  The last byte of the second chunk
    arrived as [0x0b], and the service recorded the digest of what it
    received. *)
Definition remote_corrupted : Remote :=
  scripted (chunked (Some "tok"%string) (Some 5)) (fun _ => 200)
           [ {| partNumber := 1; etag := "7cfdd07889b3295d6a550914ab35e068" |};
             {| partNumber := 2; etag := "9e71a250bb8289baae80af50bcdeeba1" |} ]
           (completed_as 7) no_poll.

(* ===================================================================== *)
(** ** What a log shows *)
(* ===================================================================== *)

(** The bodies of the [PUT]s of a log, oldest first. *)
Definition put_bodies (cs : list Call) : list (list byte) :=
  flat_map (fun c => match c with PutChunk _ body => [body] | _ => [] end) cs.

(** The token and the slice number of its requests for an upload
    address. *)
Definition upload_url_requests (cs : list Call) : list (string * Z) :=
  flat_map (fun c => match c with GetUploadUrl t n => [(t, n)] | _ => [] end)
           cs.

(** The slice numbers [1 .. n]. *)
Definition slice_numbers (n : nat) : list Z :=
  map (fun i => Z.of_nat i + 1) (seq 0 n).

Definition is_create (c : Call) : bool :=
  match c with CreateFile _ _ _ _ => true | _ => false end.

Definition is_chunk_call (c : Call) : bool :=
  is_get_upload_url c || is_put c.

(** The state of step 2 between two iterations, [m] chunks pushed: the
    addresses were asked for the slices [1 .. m] under the token, each
    [PUT] has its record, numbered alike and with the digest of the body
    pushed, and the bodies pushed followed by the unread rest are the
    file. *)
Definition pushed_in_order (file : LocalFile) (token : string) (m : nat)
           (st : State) : Prop :=
  upload_url_requests (calls st) = map (pair token) (slice_numbers m) /\
  count is_put (calls st) = m /\
  map partNumber (uploaded_chunks st) = slice_numbers m /\
  map etag (uploaded_chunks st)
  = map calculate_chunk_md5 (put_bodies (calls st)) /\
  List.concat (put_bodies (calls st)) ++ f_pos st = content file.

(** What holds of the state wherever a session stops: [r] records for
    [b] bodies pushed after [u] requests of an address, with
    [r <= b <= u <= r + 1]. *)
Definition session_log_ok (file : LocalFile) (token : string) (st : State)
  : Prop :=
  exists r b u : nat,
    (r <= b <= u)%nat /\ (u <= S r)%nat /\
    upload_url_requests (calls st) = map (pair token) (slice_numbers u) /\
    List.length (put_bodies (calls st)) = b /\
    map partNumber (uploaded_chunks st) = slice_numbers r /\
    map etag (uploaded_chunks st)
    = map calculate_chunk_md5 (firstn r (put_bodies (calls st))) /\
    exists rest, List.concat (put_bodies (calls st)) ++ rest = content file.

(** The same service with another [completed] in the answer to the
    complete call. *)
Definition with_completed (b : bool) (remote : Remote) : Remote :=
  {| on_create := on_create remote;
     on_get_upload_url := on_get_upload_url remote;
     on_put := on_put remote;
     on_list_upload_parts := on_list_upload_parts remote;
     on_upload_complete :=
       {| code := code (on_upload_complete remote);
          message := message (on_upload_complete remote);
          data := {| complete_fileID :=
                       complete_fileID (data (on_upload_complete remote));
                     async := async (data (on_upload_complete remote));
                     completed := b |} |};
     on_upload_async_result := on_upload_async_result remote |}.

(** A refusal, with its message. *)
Definition refused {A} (d : A) : Envelope A :=
  {| code := 401; message := "refused"; data := d |}.

(** [remote_plain] with one answer replaced by a refusal. *)
Definition remote_create_refused : Remote :=
  {| on_create := refused (data (on_create remote_plain));
     on_get_upload_url := on_get_upload_url remote_plain;
     on_put := on_put remote_plain;
     on_list_upload_parts := on_list_upload_parts remote_plain;
     on_upload_complete := on_upload_complete remote_plain;
     on_upload_async_result := on_upload_async_result remote_plain |}.

Definition remote_second_url_refused : Remote :=
  {| on_create := on_create remote_plain;
     on_get_upload_url :=
       fun n => if n =? 2 then refused {| presignedURL := "" |}
                else on_get_upload_url remote_plain n;
     on_put := on_put remote_plain;
     on_list_upload_parts := on_list_upload_parts remote_plain;
     on_upload_complete := on_upload_complete remote_plain;
     on_upload_async_result := on_upload_async_result remote_plain |}.

Definition remote_list_refused : Remote :=
  {| on_create := on_create remote_plain;
     on_get_upload_url := on_get_upload_url remote_plain;
     on_put := on_put remote_plain;
     on_list_upload_parts := refused {| parts := [] |};
     on_upload_complete := on_upload_complete remote_plain;
     on_upload_async_result := on_upload_async_result remote_plain |}.

Definition remote_complete_refused : Remote :=
  {| on_create := on_create remote_plain;
     on_get_upload_url := on_get_upload_url remote_plain;
     on_put := on_put remote_plain;
     on_list_upload_parts := on_list_upload_parts remote_plain;
     on_upload_complete := refused deferred;
     on_upload_async_result := on_upload_async_result remote_plain |}.

(** A deferred completion whose second poll is refused. *)
Definition remote_second_poll_refused : Remote :=
  {| on_create := on_create remote_async;
     on_get_upload_url := on_get_upload_url remote_async;
     on_put := on_put remote_async;
     on_list_upload_parts := on_list_upload_parts remote_async;
     on_upload_complete := on_upload_complete remote_async;
     on_upload_async_result :=
       fun n => if (n =? 1)%nat then refused (no_poll n) else ok (no_poll n) |}.

(** A deferred completion that no poll ever reports. *)
Definition remote_never_completed : Remote :=
  scripted (chunked (Some "tok"%string) (Some 4)) (fun _ => 200) ten_bytes_parts
           deferred no_poll.

(** A file without bytes. *)
Definition empty_file : LocalFile := {| basename := "empty.bin"; content := [] |}.

(** A file of [n] zero bytes. *)
Definition zeros (n : Z) : LocalFile :=
  {| basename := "zeros.bin"; content := repeat x00 (Z.to_nat n) |}.

(* ===================================================================== *)
(** ** [str] and [os.path] *)
(* ===================================================================== *)

(** A [str] is held as its UTF-8 bytes.  The characters ['.'] and ['/']
    are one byte each and occur inside no longer sequence, so splitting
    and joining at them, comparing, and testing a prefix or a suffix give
    on the bytes the encoding of what Python gives on the characters. *)

(** [str(n)] of an [int], as in [f"{n}"]. *)
Definition str (n : Z) : string := NilZero.string_of_int (Z.to_int n).

(** [s.startswith(prefix)] and [s.endswith(suffix)]. *)
Definition startswith (s prefix : string) : bool := String.prefix prefix s.

Definition endswith (s suffix : string) : bool :=
  (String.length suffix <=? String.length s)%nat &&
  String.eqb (substring (String.length s - String.length suffix)
                        (String.length suffix) s)
             suffix.

(** [os.path] on a POSIX system. *)
Module PosixPath.

(** [p.rfind(c)] for one character [c]: the last index of [c] in [p], or
    [-1]; [found] is the last index seen before the index [i]. *)
Fixpoint rfind_from (c : ascii) (p : string) (i found : Z) : Z :=
  match p with
  | EmptyString => found
  | String a p' =>
      rfind_from c p' (i + 1) (if Ascii.eqb a c then i else found)
  end.

Definition rfind (p : string) (c : ascii) : Z := rfind_from c p 0 (-1).

(** [p[lo:hi]] and [p[lo:]] for [0 <= lo]. *)
Definition slice (p : string) (lo hi : Z) : string :=
  substring (Z.to_nat lo) (Z.to_nat (hi - lo)) p.

Definition slice_from (p : string) (lo : Z) : string :=
  substring (Z.to_nat lo) (String.length p - Z.to_nat lo) p.

(** The loop of [genericpath._splitext], which skips the leading dots of
    the last component: [n] bounds the turns left, [dotIndex -
    filenameIndex]. *)
Fixpoint skip_leading_dots (n : nat) (p : string) (filenameIndex dotIndex : Z)
  : string * string :=
  match n with
  | O => (p, EmptyString)
  | S n' =>
      if negb (String.eqb (slice p filenameIndex (filenameIndex + 1)) ".")
      then (slice p 0 dotIndex, slice_from p dotIndex)
      else skip_leading_dots n' p (filenameIndex + 1) dotIndex
  end.

(** [os.path.splitext(p)]: [genericpath._splitext(p, '/', None, '.')]. *)
Definition splitext (p : string) : string * string :=
  let sepIndex := rfind p "/" in
  let dotIndex := rfind p "." in
  if dotIndex >? sepIndex then
    let filenameIndex := sepIndex + 1 in
    skip_leading_dots (Z.to_nat (dotIndex - filenameIndex)) p
                      filenameIndex dotIndex
  else (p, EmptyString).

(** [os.path.join(a, b)]. *)
Definition join (a b : string) : string :=
  if startswith b "/" then b
  else if String.eqb a "" || endswith a "/" then (a ++ b)%string
  else (a ++ "/" ++ b)%string.

End PosixPath.

(* ===================================================================== *)
(** ** [Pan123FileManager] *)
(* ===================================================================== *)

(** An entry of [fileList]: the fields that the code reads. *)
Record FileInfo := { fileId : Z; filename : string; type : Z }.

(** [data] of [/api/v2/file/list]. *)
Record FileListData := { fileList : list FileInfo; lastFileId : Z }.

(** The query of a [GET /api/v2/file/list]: the dict [params], whose
    keys [searchData], [searchMode] and [lastFileId] may be absent. *)
Record ListParams := {
  parentFileId : Z;
  limit : Z;
  searchData : option string;
  searchMode : option Z;
  params_lastFileId : option Z
}.

(** [params['lastFileId'] = last]. *)
Definition set_lastFileId (params : ListParams) (last : Z) : ListParams :=
  {| parentFileId := parentFileId params;
     limit := limit params;
     searchData := searchData params;
     searchMode := searchMode params;
     params_lastFileId := Some last |}.

(** [file['filename'] == name] and [f['type'] == 1]. *)
Definition has_filename (name : string) (file : FileInfo) : bool :=
  String.eqb (filename file) name.

Definition is_folder (f : FileInfo) : bool := type f =? 1.

(** The truth value of an optional [str]: [None] and [''] are false. *)
Definition truthy (s : option string) : bool :=
  match s with
  | Some s' => negb (String.eqb s' "")
  | None => false
  end.

(** Steps 1 to 5 of [Pan123FileManager.upload_file], which are those of
    [Pan123Uploader.upload_file] under the name [filename].  The methods
    called are the same line for line in both classes, but for a
    [Content-Type] header on the [PUT] of a chunk, which the log does not
    record. *)
Definition upload_as (remote : Remote) (fuel : nat) (filename : string)
           (file : LocalFile) (parent_id : Z) : M Z :=
  '(preupload_id, file_id, is_reuse, slice_size) <-
    create_file remote filename file parent_id ;;
  if is_reuse : bool then ret file_id
  else
    upload_chunks remote file preupload_id slice_size ;;
    verify_chunks remote file preupload_id slice_size ;;
    finish_upload remote fuel preupload_id.

(** The exceptions of the manager, one constructor for each site, and
    those of the upload session. *)
Inductive Failure :=
| ListFilesFailed (message : string)
| ListFoldersFailed (message : string)
| CheckFileExistsFailed (message : string)
| UploadFailed (e : Exn).

(** How a run of the manager ends: a value, an exception, [sys.exit], or
    still inside a loop when the fuel given to it is used up. *)
Inductive Ending (A : Type) :=
| Returns (a : A)
| Raises (e : Failure)
| SystemExit (status : Z)
| Looping.
Arguments Returns {A} a.
Arguments Raises {A} e.
Arguments SystemExit {A} status.
Arguments Looping {A}.

Record World := {
  gets : list ListParams;   (* the queries of the file list, oldest first *)
  prompts : nat;            (* the questions put to the user *)
  session : State           (* the upload session *)
}.

Definition idle : World := {| gets := []; prompts := 0; session := start |}.

Definition Run (A : Type) : Type := World -> Ending A * World.

Definition returns {A} (a : A) : Run A := fun w => (Returns a, w).

Definition raises {A} (e : Failure) : Run A := fun w => (Raises e, w).

Definition sys_exit {A} (status : Z) : Run A := fun w => (SystemExit status, w).

Definition looping {A} : Run A := fun w => (Looping, w).

Definition and_then {A B} (m : Run A) (k : A -> Run B) : Run B :=
  fun w =>
    match m w with
    | (Returns a, w') => k a w'
    | (Raises e, w') => (Raises e, w')
    | (SystemExit status, w') => (SystemExit status, w')
    | (Looping, w') => (Looping, w')
    end.

Declare Scope manager_scope.
Delimit Scope manager_scope with manager.
Notation "x <- m ;; k" := (and_then m (fun x => k))
  (at level 61, m at next level, right associativity) : manager_scope.

(** How the upload session ends, seen from the manager. *)
Definition ending {A} (o : Outcome A) : Ending A :=
  match o with
  | Return a => Returns a
  | Raise e => Raises (UploadFailed e)
  | Polling => Looping
  end.

(** The upload session runs inside the manager. *)
Definition in_session {A} (m : M A) : Run A :=
  fun w =>
    (ending (fst (m (session w))),
     {| gets := gets w; prompts := prompts w;
        session := snd (m (session w)) |}).

(** The dict [params] of [list_files] before the first request. *)
Definition list_files_params (parent_id limit : Z)
           (search_data : option string) (search_mode : Z) : ListParams :=
  let params := {| parentFileId := parent_id; limit := limit;
                   searchData := None; searchMode := None;
                   params_lastFileId := None |} in
  if truthy search_data
  then {| parentFileId := parentFileId params; limit := limit;
          searchData := search_data; searchMode := Some search_mode;
          params_lastFileId := params_lastFileId params |}
  else params.

(** The dict [params] of [check_file_exists]. *)
Definition check_file_exists_params (filename : string) (parent_id : Z)
  : ListParams :=
  {| parentFileId := parent_id; limit := 100;
     searchData := Some filename; searchMode := Some 1;
     params_lastFileId := None |}.

Module Pan123FileManager.

#[local] Open Scope manager_scope.

Section Manager.

(** The answers of the service to the queries of the file list, by
    their rank from 0; the manager sends them in a fixed order, so every
    deterministic service is such a script.  [upload_copy] is what the
    user answers when asked for a copy, lowered and stripped. *)
Variable on_file_list : nat -> Envelope FileListData.
Variable upload_copy : string.
Variable remote : Remote.

(** [requests.get(url, headers=self.headers, params=params).json()]. *)
Definition requests_get (params : ListParams) : Run (Envelope FileListData) :=
  fun w => (Returns (on_file_list (List.length (gets w))),
            {| gets := gets w ++ [params];
               prompts := prompts w;
               session := session w |}).

(** [input(...).lower().strip()]. *)
Definition input_upload_copy : Run string :=
  fun w => (Returns upload_copy,
            {| gets := gets w;
               prompts := S (prompts w);
               session := session w |}).

(** The [while True] of [list_files]; [fuel] bounds the pages asked
    for. *)
Fixpoint list_files_pages (fuel : nat) (params : ListParams)
         (files : list FileInfo) : Run (list FileInfo) :=
  match fuel with
  | O => looping
  | S fuel' =>
      response <- requests_get params ;;
      if negb (code response =? 0)
      then raises (ListFilesFailed (message response))
      else
        let files := files ++ fileList (data response) in
        if lastFileId (data response) =? -1 then returns files
        else list_files_pages fuel'
               (set_lastFileId params (lastFileId (data response))) files
  end.

Definition list_files (fuel : nat) (parent_id limit : Z)
           (search_data : option string) (search_mode : Z)
  : Run (list FileInfo) :=
  let params := list_files_params parent_id limit search_data search_mode in
  let files := [] in
  list_files_pages fuel params files.

(** The [while True] of [list_folders]. *)
Fixpoint list_folders_pages (fuel : nat) (params : ListParams)
         (folders : list FileInfo) : Run (list FileInfo) :=
  match fuel with
  | O => looping
  | S fuel' =>
      response <- requests_get params ;;
      if negb (code response =? 0)
      then raises (ListFoldersFailed (message response))
      else
        let folders :=
          folders ++ filter is_folder (fileList (data response)) in
        if lastFileId (data response) =? -1 then returns folders
        else list_folders_pages fuel'
               (set_lastFileId params (lastFileId (data response))) folders
  end.

Definition list_folders (fuel : nat) (parent_id : Z) : Run (list FileInfo) :=
  let params := {| parentFileId := parent_id; limit := 100;
                   searchData := None; searchMode := None;
                   params_lastFileId := None |} in
  let folders := [] in
  list_folders_pages fuel params folders.

Definition check_file_exists (filename : string) (parent_id : Z)
  : Run (option FileInfo) :=
  let params := check_file_exists_params filename parent_id in
  response <- requests_get params ;;
  if negb (code response =? 0)
  then raises (CheckFileExistsFailed (message response))
  else returns (find (has_filename filename) (fileList (data response))).

(** [while self.check_file_exists(filename, parent_id)]: an entry is a
    dict with the key ['filename'], which is true; [fuel] bounds the
    names tried. *)
Fixpoint free_filename (fuel : nat) (name ext filename : string)
         (counter parent_id : Z) : Run string :=
  match fuel with
  | O => looping
  | S fuel' =>
      existing_file <- check_file_exists filename parent_id ;;
      match existing_file with
      | Some _ =>
          free_filename fuel' name ext
                        (name ++ "_copy" ++ str counter ++ ext)%string
                        (counter + 1) parent_id
      | None => returns filename
      end
  end.

Definition upload_file (fuel : nat) (file : LocalFile) (parent_id : Z)
  : Run Z :=
  let original_filename := basename file in
  let filename := original_filename in
  existing_file <- check_file_exists filename parent_id ;;
  filename <-
    match existing_file with
    | Some _ =>
        upload_copy <- input_upload_copy ;;
        if negb (String.eqb upload_copy "y") then sys_exit 0
        else
          let (name, ext) := PosixPath.splitext filename in
          let counter := 1 in
          free_filename fuel name ext filename counter parent_id
    | None => returns filename
    end ;;
  in_session (upload_as remote fuel filename file parent_id).

End Manager.

(** The lines of [download_file] that choose the file name, from
    [original_filename], the name parsed from the download address;
    [keep_original_name] and [new_filename] are what the user types,
    stripped, the first one lowered. *)
Definition download_filename
           (original_filename keep_original_name new_filename : string)
  : string :=
  if String.eqb keep_original_name "y" then original_filename
  else
    let original_ext := snd (PosixPath.splitext original_filename) in
    if endswith new_filename original_ext then new_filename
    else (new_filename ++ original_ext)%string.

(** The path handed to [wget -O]. *)
Definition full_save_path
           (save_path original_filename keep_original_name new_filename
            : string) : string :=
  PosixPath.join save_path
    (download_filename original_filename keep_original_name new_filename).

End Pan123FileManager.

(* ===================================================================== *)
(** ** Notions used to state the properties of the manager *)
(* ===================================================================== *)

(** The query of the page of rank [r + k] of a listing whose first
    query, [params], has the rank [r]: the cursor is the [lastFileId] of
    the page before. *)
Definition page_query (on_file_list : nat -> Envelope FileListData)
           (params : ListParams) (r k : nat) : ListParams :=
  match k with
  | O => params
  | S k' =>
      set_lastFileId params (lastFileId (data (on_file_list (r + k')%nat)))
  end.

Definition page_queries (on_file_list : nat -> Envelope FileListData)
           (params : ListParams) (r n : nat) : list ListParams :=
  map (page_query on_file_list params r) (seq 0 n).

(** The entries of the pages of rank [r .. r + n - 1], in order. *)
Definition pages_files (on_file_list : nat -> Envelope FileListData)
           (r n : nat) : list FileInfo :=
  flat_map (fun k => fileList (data (on_file_list k))) (seq r n).

(** The answer is a success and announces a next page. *)
Definition more_pages (response : Envelope FileListData) : Prop :=
  code response = 0 /\ lastFileId (data response) <> -1.

(** What [list_folders] makes of a run of [list_files]. *)
Definition as_folders (run : Ending (list FileInfo) * World)
  : Ending (list FileInfo) * World :=
  (match fst run with
   | Returns files => Returns (filter is_folder files)
   | Raises (ListFilesFailed message) => Raises (ListFoldersFailed message)
   | other => other
   end, snd run).

(** [f"{name}_copy{k}{ext}"] for [name, ext = os.path.splitext(original)]. *)
Definition copy_name (original : string) (k : nat) : string :=
  (fst (PosixPath.splitext original) ++ "_copy" ++ str (Z.of_nat k)
   ++ snd (PosixPath.splitext original))%string.

(** The name that the check of rank [k] of an upload asks for: the
    original name at the ranks 0 and 1, then the copies 1, 2, ... *)
Definition queried (original : string) (k : nat) : string :=
  match k with
  | 0%nat | 1%nat => original
  | S (S k') => copy_name original (S k')
  end.

Definition queries (original : string) (parent_id : Z) (n : nat)
  : list ListParams :=
  map (fun k => check_file_exists_params (queried original k) parent_id)
      (seq 0 n).

(** The answer shows a file of this name, or none. *)
Definition name_taken (response : Envelope FileListData) (name : string)
  : Prop :=
  code response = 0 /\
  existsb (has_filename name) (fileList (data response)) = true.

Definition name_free (response : Envelope FileListData) (name : string)
  : Prop :=
  code response = 0 /\
  existsb (has_filename name) (fileList (data response)) = false.

(** The file under another name. *)
Definition renamed (file : LocalFile) (name : string) : LocalFile :=
  {| basename := name; content := content file |}.

(** [c in s] for one character [c]. *)
Fixpoint occurs (c : ascii) (s : string) : bool :=
  match s with
  | EmptyString => false
  | String a s' => Ascii.eqb a c || occurs c s'
  end.

(* ===================================================================== *)
(** ** Sample folders *)
(* ===================================================================== *)

Definition entry (id : Z) (name : string) (t : Z) : FileInfo :=
  {| fileId := id; filename := name; type := t |}.

(** Three pages: a file and a folder, a folder, a file. *)
Definition three_pages (k : nat) : Envelope FileListData :=
  match k with
  | 0%nat => ok {| fileList := [entry 1 "a.txt" 0; entry 2 "docs" 1];
                   lastFileId := 2 |}
  | 1%nat => ok {| fileList := [entry 3 "img" 1]; lastFileId := 3 |}
  | _ => ok {| fileList := [entry 4 "b.txt" 0]; lastFileId := -1 |}
  end.

(** The second page is refused. *)
Definition second_page_refused (k : nat) : Envelope FileListData :=
  match k with
  | 1%nat => refused {| fileList := []; lastFileId := -1 |}
  | _ => three_pages k
  end.

(** A service that always announces one more page. *)
Definition endless_pages (k : nat) : Envelope FileListData :=
  ok {| fileList := [entry (Z.of_nat k) "f" 0]; lastFileId := Z.of_nat k |}.

(** A folder without any file. *)
Definition empty_folder (k : nat) : Envelope FileListData :=
  ok {| fileList := []; lastFileId := -1 |}.

(** A folder that holds [ten.bin] and [ten_copy1.bin]. *)
Definition folder_with_copy (k : nat) : Envelope FileListData :=
  match k with
  | 0%nat | 1%nat =>
      ok {| fileList := [entry 1 "ten.bin" 0]; lastFileId := -1 |}
  | 2%nat => ok {| fileList := [entry 2 "ten_copy1.bin" 0]; lastFileId := -1 |}
  | _ => ok {| fileList := []; lastFileId := -1 |}
  end.

(** The same, with the third check refused. *)
Definition folder_check_refused (k : nat) : Envelope FileListData :=
  match k with
  | 2%nat => refused {| fileList := []; lastFileId := -1 |}
  | _ => folder_with_copy k
  end.

(** A folder that shows a file for every name asked for. *)
Definition every_name_taken (original : string) (k : nat)
  : Envelope FileListData :=
  ok {| fileList := [entry (Z.of_nat k) (queried original k) 0];
        lastFileId := -1 |}.

(* ===================================================================== *)
(** ** Properties *)
(* ===================================================================== *)

(** *** The monad *)

Lemma bind_return {A B} (m : M A) (k : A -> M B) st a st' :
  m st = (Return a, st') -> bind m k st = k a st'.
Proof. intros H. unfold bind. rewrite H. reflexivity. Qed.

Lemma bind_raise {A B} (m : M A) (k : A -> M B) st e st' :
  m st = (Raise e, st') -> bind m k st = (Raise e, st').
Proof. intros H. unfold bind. rewrite H. reflexivity. Qed.

Lemma bind_polling {A B} (m : M A) (k : A -> M B) st st' :
  m st = (Polling, st') -> bind m k st = (Polling, st').
Proof. intros H. unfold bind. rewrite H. reflexivity. Qed.

(** *** The digest of the file *)

Lemma read_fst_snd n f : fst (read n f) ++ snd (read n f) = f.
Proof.
  unfold read. destruct (n <? 0); cbn [fst snd].
  - apply app_nil_r.
  - apply firstn_skipn.
Qed.

Lemma iter_read_step n f :
  iter_read n f =
  match fst (read n f) with
  | [] => []
  | chunk => chunk :: iter_read n (snd (read n f))
  end.
Proof.
  rewrite iter_read_equation_1.
  generalize (inspect (fst (read n f))).
  intros [[| b chunk] e]; cbn; rewrite e; reflexivity.
Qed.

Lemma read_nothing n f : 0 < n -> fst (read n f) = [] -> f = [].
Proof.
  intros Hn. unfold read. destruct (n <? 0) eqn:En; [lia |]. cbn [fst].
  destruct f as [| x f]; [reflexivity |].
  destruct (Z.to_nat n) eqn:E; [lia | discriminate].
Qed.

Lemma iter_read_concat n f : 0 < n -> List.concat (iter_read n f) = f.
Proof.
  intros Hn. remember (List.length f) as len eqn:Hlen.
  revert f Hlen. induction len as [len IH] using lt_wf_ind. intros f Hlen.
  rewrite iter_read_step.
  pose proof (read_fst_snd n f) as Hf.
  destruct (fst (read n f)) as [| b chunk] eqn:E.
  - symmetry. now apply (read_nothing n).
  - cbn [List.concat]. rewrite (IH (List.length (snd (read n f)))); auto.
    apply (f_equal (@List.length _)) in Hf.
    rewrite length_app in Hf. cbn [List.length] in Hf. lia.
Qed.

Lemma iter_read_bounded n f w :
  0 < n -> In w (iter_read n f) -> 0 < Z.of_nat (List.length w) <= n.
Proof.
  intros Hn. remember (List.length f) as len eqn:Hlen.
  revert f Hlen. induction len as [len IH] using lt_wf_ind. intros f Hlen.
  rewrite iter_read_step.
  pose proof (read_fst_snd n f) as Hf.
  destruct (fst (read n f)) as [| b chunk] eqn:E; cbn [In]; [tauto |].
  intros [<- | Hin].
  - rewrite <- E. unfold read. destruct (n <? 0) eqn:En; [lia |]. cbn [fst].
    rewrite length_firstn. split; [| lia].
    unfold read in E. rewrite En in E. cbn [fst] in E.
    apply (f_equal (@List.length _)) in E. rewrite length_firstn in E.
    cbn [List.length] in E. lia.
  - apply (IH (List.length (snd (read n f)))) with (f := snd (read n f)); auto.
    apply (f_equal (@List.length _)) in Hf.
    rewrite length_app in Hf. cbn [List.length] in Hf. lia.
Qed.

Lemma fold_update_fed ws h :
  Hashlib.fed (fold_left Hashlib.update ws h) = Hashlib.fed h ++ List.concat ws.
Proof.
  revert h. induction ws as [| w ws IH]; intros h; cbn [fold_left List.concat].
  - symmetry. apply app_nil_r.
  - rewrite IH. cbn [Hashlib.update Hashlib.fed]. symmetry. apply app_assoc.
Qed.

Lemma calculate_file_md5_content file :
  calculate_file_md5 file = calculate_chunk_md5 (content file).
Proof.
  unfold calculate_file_md5, calculate_chunk_md5, Hashlib.hexdigest.
  rewrite fold_update_fed, iter_read_concat by lia. reflexivity.
Qed.

(** C8: the digest that [calculate_file_md5] accumulates over the windows
    read from the file, each of 1 to 4096 bytes and together the whole
    content, is the MD5 digest of the content taken in one pass; it
    depends on the bytes only, so two files of the same content have the
    same digest. *)
Theorem file_md5_is_one_pass_md5 :
  forall name bytes,
    let file := {| basename := name; content := bytes |} in
    (forall w, In w (iter_read 4096 bytes) -> 0 < Z.of_nat (List.length w) <= 4096) /\
    List.concat (iter_read 4096 bytes) = bytes /\
    calculate_file_md5 file = Hashlib.hexdigest (Hashlib.md5 bytes) /\
    (forall name', calculate_file_md5 {| basename := name'; content := bytes |}
                   = calculate_file_md5 file).
Proof.
  intros name bytes file. split; [| split; [| split]].
  - intros w. apply iter_read_bounded. lia.
  - apply iter_read_concat. lia.
  - apply (calculate_file_md5_content file).
  - intros name'. rewrite !calculate_file_md5_content. reflexivity.
Qed.

(** *** [math.ceil(file_size / slice_size)] *)

Lemma round_half_even_exact n d :
  0 < d -> n mod d = 0 -> PyFloat.round_half_even n d = n / d.
Proof.
  intros Hd Hr. unfold PyFloat.round_half_even. rewrite Hr.
  destruct (2 * 0 <? d) eqn:E; [reflexivity | lia].
Qed.

Lemma round_half_even_range n d :
  0 < d -> n / d <= PyFloat.round_half_even n d <= n / d + 1.
Proof.
  intros Hd. unfold PyFloat.round_half_even.
  destruct (2 * (n mod d) <? d); [lia |].
  destruct (d <? 2 * (n mod d)); [lia |].
  destruct (Z.even (n / d)); lia.
Qed.

Lemma round_half_even_up n d :
  0 < d -> d < 2 * (n mod d) -> PyFloat.round_half_even n d = n / d + 1.
Proof.
  intros Hd Hr. unfold PyFloat.round_half_even.
  destruct (2 * (n mod d) <? d) eqn:E1; [lia |].
  destruct (d <? 2 * (n mod d)) eqn:E2; [reflexivity | lia].
Qed.

Lemma log2_quot_le a b :
  PyFloat.log2_quot a b <= Z.log2 a - Z.log2 b.
Proof.
  unfold PyFloat.log2_quot.
  destruct (0 <=? Z.log2 a - Z.log2 b);
    [destruct (b * 2 ^ (Z.log2 a - Z.log2 b) <=? a)
    | destruct (b <=? a * 2 ^ (- (Z.log2 a - Z.log2 b)))]; lia.
Qed.

(** [2 ^ log2_quot a b <= a / b], without fractions. *)
Lemma log2_quot_lower a b :
  0 < a -> 0 < b ->
  b * 2 ^ Z.max (PyFloat.log2_quot a b) 0
  <= a * 2 ^ Z.max (- PyFloat.log2_quot a b) 0.
Proof.
  intros Ha Hb.
  pose proof (Z.log2_spec a Ha) as [La _].
  pose proof (Z.log2_spec b Hb) as [_ Ub].
  pose proof (Z.log2_nonneg a) as Na. pose proof (Z.log2_nonneg b) as Nb.
  unfold PyFloat.log2_quot.
  set (la := Z.log2 a) in *. set (lb := Z.log2 b) in *.
  destruct (0 <=? la - lb) eqn:Ed.
  - apply Z.leb_le in Ed.
    destruct (b * 2 ^ (la - lb) <=? a) eqn:Et.
    + apply Z.leb_le in Et. rewrite Z.max_l, Z.max_r by lia.
      rewrite Z.pow_0_r. lia.
    + (* la - lb - 1 *)
      assert (Hk : b * 2 ^ (la - lb) < 2 * 2 ^ la).
      { replace (2 * 2 ^ la) with (2 ^ (Z.succ lb) * 2 ^ (la - lb)).
        - apply Z.mul_lt_mono_pos_r; [apply Z.pow_pos_nonneg; lia | exact Ub].
        - rewrite <- Z.pow_add_r by lia. replace (Z.succ lb + (la - lb)) with (Z.succ la) by lia.
          rewrite Z.pow_succ_r by lia. reflexivity. }
      destruct (Z.eq_dec (la - lb) 0) as [E0 | E0].
      * rewrite E0 in *. rewrite Z.max_r, Z.max_l by lia.
        change (- (0 - 1)) with 1. rewrite Z.pow_0_r, Z.pow_1_r in *. lia.
      * rewrite Z.max_l, Z.max_r by lia. rewrite Z.pow_0_r.
        replace (la - lb) with (Z.succ (la - lb - 1)) in Hk by lia.
        rewrite Z.pow_succ_r in Hk by lia. lia.
  - apply Z.leb_gt in Ed.
    destruct (b <=? a * 2 ^ (- (la - lb))) eqn:Et.
    + apply Z.leb_le in Et. rewrite Z.max_r, Z.max_l by lia.
      rewrite Z.pow_0_r. lia.
    + rewrite Z.max_r, Z.max_l by lia. rewrite Z.pow_0_r.
      replace (- (la - lb - 1)) with (Z.succ (lb - la)) by lia.
      rewrite Z.pow_succ_r by lia.
      assert (Hk : 2 ^ (Z.succ lb) <= a * (2 * 2 ^ (lb - la))).
      { rewrite Z.pow_succ_r by lia.
        replace lb with (la + (lb - la)) at 1 by lia.
        rewrite Z.pow_add_r by lia.
        assert (0 < 2 ^ (lb - la)) by (apply Z.pow_pos_nonneg; lia). nia. }
      lia.
Qed.

Lemma ceil_div_exact a b : 0 < b -> a mod b = 0 -> ceil_div a b = a / b.
Proof.
  intros Hb Hr. unfold ceil_div.
  pose proof (Z.div_mod a b ltac:(lia)) as E. rewrite Hr in E.
  symmetry. apply (Z.div_unique _ _ _ (b - 1)); lia.
Qed.

Lemma ceil_div_inexact a b : 0 < b -> a mod b <> 0 -> ceil_div a b = a / b + 1.
Proof.
  intros Hb Hr. unfold ceil_div.
  pose proof (Z.div_mod a b ltac:(lia)) as E.
  pose proof (Z.mod_pos_bound a b Hb) as B.
  symmetry. apply (Z.div_unique _ _ _ (a mod b - 1)); lia.
Qed.

(** Rounding the quotient scaled by [t], with [b < 2 * t], then taking
    the ceiling, gives the exact ceiling. *)
Lemma ceil_round_scaled a b t :
  0 <= a -> 0 < b -> 0 < t -> b < 2 * t ->
  - ((- PyFloat.round_half_even (a * t) b) / t) = ceil_div a b.
Proof.
  intros Ha Hb Ht Hbt.
  pose proof (Z.div_mod a b ltac:(lia)) as Ea.
  pose proof (Z.mod_pos_bound a b Hb) as Ba.
  set (n := a / b) in *. set (r := a mod b) in *.
  destruct (Z.eq_dec r 0) as [Hr | Hr].
  - rewrite ceil_div_exact by (fold r; lia). fold n.
    assert (Et : a * t = n * t * b) by nia.
    rewrite round_half_even_exact; [| lia | rewrite Et; apply Z.mod_mul; lia].
    rewrite Et, Z.div_mul by lia.
    replace (- (n * t)) with (- n * t) by lia. rewrite Z.div_mul by lia. lia.
  - rewrite ceil_div_inexact by (fold r; lia). fold n.
    pose proof (Z.div_mod (a * t) b ltac:(lia)) as Eq.
    pose proof (Z.mod_pos_bound (a * t) b Hb) as Bq.
    pose proof (round_half_even_range (a * t) b Hb) as Rm.
    set (q := a * t / b) in *. set (r' := (a * t) mod b) in *.
    set (m := PyFloat.round_half_even (a * t) b) in *.
    assert (Hq : n * t <= q <= n * t + t - 1) by nia.
    assert (Hm : n * t < m <= (n + 1) * t).
    { split; [| nia].
      destruct (Z.eq_dec q (n * t)) as [E | E]; [| lia].
      assert (r' = r * t) by nia.
      unfold m. rewrite round_half_even_up; fold q r'; nia. }
    assert (E : - m / t = - (n + 1)).
    { symmetry. apply (Z.div_unique _ _ _ ((n + 1) * t - m)); lia. }
    rewrite E. lia.
Qed.

Lemma divide_pos_ceil a b :
  0 < a < 2 ^ 53 -> 0 < b < 2 ^ 1075 ->
  exists x, PyFloat.divide_pos a b = PyFloat.Quot x /\
            PyFloat.ceil x = ceil_div a b.
Proof.
  intros [Ha Ha53] [Hb Hb1075].
  pose proof (log2_quot_le a b) as HLd.
  pose proof (log2_quot_lower a b Ha Hb) as HLl.
  pose proof (proj1 (Z.log2_lt_pow2 a 53 Ha) Ha53) as Hla.
  pose proof (Z.log2_nonneg b) as Hlb.
  unfold PyFloat.divide_pos, PyFloat.ulp_exp, PyFloat.prec, PyFloat.emin, PyFloat.emax.
  set (L := PyFloat.log2_quot a b) in *.
  set (e := Z.max (L - (53 - 1)) (-1074)).
  assert (He : e <= 0). { subst e. lia. }
  replace (971 <? e) with false by (symmetry; apply Z.ltb_ge; lia).
  replace (e =? 971) with false by (symmetry; apply Z.eqb_neq; lia).
  cbn [orb andb]. eexists. split; [reflexivity |].
  unfold PyFloat.ceil. cbn [PyFloat.expo PyFloat.mant].
  destruct (0 <=? e) eqn:E0.
  - apply Z.leb_le in E0.
    assert (HL : L = 52) by (subst e; lia).
    assert (He0 : e = 0) by lia. rewrite He0.
    assert (Hb1 : b = 1).
    { pose proof (Z.log2_spec b Hb) as [_ Ub].
      replace (Z.log2 b) with 0 in Ub by lia. cbn in Ub. lia. }
    subst b. rewrite Z.pow_0_r, !Z.mul_1_r.
    rewrite round_half_even_exact by (try apply Z.mod_1_r; lia).
    rewrite Z.div_1_r. unfold ceil_div. rewrite Z.div_1_r. lia.
  - apply Z.leb_gt in E0.
    apply ceil_round_scaled;
      [lia | lia | apply Z.pow_pos_nonneg; lia |].
    destruct (Z.max_spec (L - (53 - 1)) (-1074)) as [[Hc Ee] | [Hc Ee]];
        fold e in Ee; rewrite Ee.
    + change (- -1074) with 1074.
      change (2 ^ 1075) with (2 * 2 ^ 1074) in Hb1075. exact Hb1075.
    + replace (2 * 2 ^ (- (L - (53 - 1)))) with (2 ^ (53 - L))
          by (replace (53 - L) with (Z.succ (- (L - (53 - 1)))) by lia;
              rewrite Z.pow_succ_r by lia; reflexivity).
      destruct (Z.le_gt_cases 0 L) as [HL | HL].
      * rewrite Z.max_l, Z.max_r, Z.pow_0_r in HLl by lia.
           assert (b * 2 ^ L < 2 ^ (53 - L) * 2 ^ L).
           { rewrite <- Z.pow_add_r by lia.
             replace (53 - L + L) with 53 by lia. lia. }
           apply Z.mul_lt_mono_pos_r with (p := 2 ^ L); [| assumption].
           apply Z.pow_pos_nonneg; lia.
      * rewrite Z.max_r, Z.max_l, Z.pow_0_r in HLl by lia.
           replace (53 - L) with (53 + - L) by lia.
           rewrite Z.pow_add_r by lia.
           assert (0 < 2 ^ (- L)) by (apply Z.pow_pos_nonneg; lia). nia.
Qed.

Lemma total_chunks_zero_slice file_size :
  total_chunks file_size 0 = Raise ZeroDivisionError.
Proof. reflexivity. Qed.

Lemma total_chunks_empty_file slice_size :
  slice_size <> 0 -> total_chunks 0 slice_size = Return 0.
Proof.
  intros Hk. unfold total_chunks, PyFloat.true_divide.
  destruct (slice_size =? 0) eqn:E; [apply Z.eqb_eq in E; lia |].
  reflexivity.
Qed.

(** Below [2 ^ 53] bytes the float quotient loses nothing: the count is
    the exact ceiling. *)
Lemma total_chunks_exact file_size slice_size :
  0 <= file_size < 2 ^ 53 -> 0 < slice_size < 2 ^ 1075 ->
  total_chunks file_size slice_size = Return (ceil_div file_size slice_size).
Proof.
  intros [Hs Hs53] Hk.
  destruct (Z.eq_dec file_size 0) as [-> | Hs0].
  - rewrite total_chunks_empty_file by lia. unfold ceil_div.
    rewrite Z.div_small by lia. reflexivity.
  - unfold total_chunks, PyFloat.true_divide.
    destruct (slice_size =? 0) eqn:Ek; [apply Z.eqb_eq in Ek; lia |].
    destruct (file_size =? 0) eqn:Ef; [apply Z.eqb_eq in Ef; lia |].
    rewrite !Z.abs_eq by lia.
    replace (file_size <? 0) with false by (symmetry; apply Z.ltb_ge; lia).
    replace (slice_size <? 0) with false by (symmetry; apply Z.ltb_ge; lia).
    cbn [Bool.eqb].
    destruct (divide_pos_ceil file_size slice_size) as (x & -> & ->); try lia.
    reflexivity.
Qed.

(** A file of exactly one slice is one chunk, whatever its size. *)
Lemma total_chunks_one_slice slice_size :
  0 < slice_size -> total_chunks slice_size slice_size = Return 1.
Proof.
  intros Hk. unfold total_chunks, PyFloat.true_divide.
  destruct (slice_size =? 0) eqn:Ek; [apply Z.eqb_eq in Ek; lia |].
  rewrite !Z.abs_eq by lia.
  replace (slice_size <? 0) with false by (symmetry; apply Z.ltb_ge; lia).
  cbn [Bool.eqb].
  unfold PyFloat.divide_pos, PyFloat.ulp_exp, PyFloat.log2_quot.
  rewrite Z.sub_diag. cbn [Z.leb Z.compare].
  rewrite Z.pow_0_r, Z.mul_1_r, Z.leb_refl.
  change (Z.max (0 - (PyFloat.prec - 1)) PyFloat.emin) with (-52).
  cbn [Z.leb Z.compare Z.opp].
  rewrite (Z.mul_comm slice_size).
  rewrite round_half_even_exact by (try apply Z.mod_mul; lia).
  rewrite Z.div_mul by lia.
  reflexivity.
Qed.

(** A file of at most one slice never counts for more than one chunk,
    whatever the sizes. *)
Lemma total_chunks_within_slice file_size slice_size total :
  0 <= file_size <= slice_size -> 0 < slice_size ->
  total_chunks file_size slice_size = Return total -> total <= 1.
Proof.
  intros [Hs Hsk] Hk.
  destruct (Z.eq_dec file_size 0) as [-> | Hs0].
  - rewrite total_chunks_empty_file by lia. intros [= <-]. lia.
  - unfold total_chunks, PyFloat.true_divide.
    destruct (slice_size =? 0) eqn:Ek; [apply Z.eqb_eq in Ek; lia |].
    destruct (file_size =? 0) eqn:Ef; [apply Z.eqb_eq in Ef; lia |].
    rewrite !Z.abs_eq by lia.
    replace (file_size <? 0) with false by (symmetry; apply Z.ltb_ge; lia).
    replace (slice_size <? 0) with false by (symmetry; apply Z.ltb_ge; lia).
    cbn [Bool.eqb].
    unfold PyFloat.divide_pos, PyFloat.ulp_exp, PyFloat.prec, PyFloat.emin.
    pose proof (log2_quot_le file_size slice_size) as HL.
    pose proof (Z.log2_le_mono file_size slice_size Hsk) as Hlog.
    set (e := Z.max (PyFloat.log2_quot file_size slice_size - (53 - 1)) (-1074)).
    assert (He : e < 0) by (subst e; lia).
    replace (0 <=? e) with false by (symmetry; apply Z.leb_gt; exact He).
    set (t := 2 ^ (- e)).
    assert (Ht : 0 < t) by (apply Z.pow_pos_nonneg; lia).
    set (m := PyFloat.round_half_even (file_size * t) slice_size).
    assert (Hm : m <= t).
    { pose proof (round_half_even_range (file_size * t) slice_size Hk) as Hr.
      fold m in Hr.
      destruct (Z.eq_dec file_size slice_size) as [-> | Hne].
      - subst m. rewrite round_half_even_exact
          by (try (rewrite Z.mul_comm; apply Z.mod_mul); lia).
        rewrite Z.mul_comm, Z.div_mul by lia. lia.
      - assert (file_size * t / slice_size < t)
          by (apply Z.div_lt_upper_bound; nia).
        lia. }
    destruct (_ || _); [discriminate |].
    intros [= <-]. unfold PyFloat.ceil. cbn [PyFloat.expo PyFloat.mant].
    replace (0 <=? e) with false by (symmetry; apply Z.leb_gt; exact He).
    fold t.
    assert (-1 <= - m / t) by (apply Z.div_le_lower_bound; lia).
    lia.
Qed.

(** C2 on the code: the chunk count is the float quotient rounded up.
    For a file of [2 ^ 54 + 1] bytes and slices of 4 MiB the quotient
    rounds to [2 ^ 32] and the count is one chunk short of
    [ceil (file_size / slice_size)]. *)
Theorem chunk_count_short_beyond_float_precision :
  total_chunks (2 ^ 54 + 1) 4194304 = Return (2 ^ 32) /\
  ceil_div (2 ^ 54 + 1) 4194304 = 2 ^ 32 + 1.
Proof. split; vm_compute; reflexivity. Qed.

(** *** [create_file] and the first branch of [upload_file] *)

Lemma create_file_succeeds remote name file parent_id st :
  code (on_create remote) = 0 ->
  create_file remote name file parent_id st =
  (Return (get (preuploadID (data (on_create remote))) ""%string,
           get (create_fileID (data (on_create remote))) 0,
           get (reuse (data (on_create remote))) false,
           get (sliceSize (data (on_create remote))) 0),
   {| calls := calls st
               ++ [CreateFile parent_id name (calculate_file_md5 file) (getsize file)];
      f_pos := f_pos st;
      uploaded_chunks := uploaded_chunks st |}).
Proof.
  intros Hc. unfold create_file, bind, send, ret. rewrite Hc. reflexivity.
Qed.

(** C3: when the create call answers [reuse = true], the upload returns
    the file id of that answer and the create call is the only request of
    the session: no upload address is asked for, no chunk is pushed, the
    parts are not listed, the upload is not completed and nothing is
    polled. *)
Theorem reuse_returns_created_file_id :
  forall remote fuel file parent_id file_id,
    code (on_create remote) = 0 ->
    reuse (data (on_create remote)) = Some true ->
    create_fileID (data (on_create remote)) = Some file_id ->
    upload_file remote fuel file parent_id start =
    (Return file_id,
     {| calls := [create_call file parent_id];
        f_pos := []; uploaded_chunks := [] |}).
Proof.
  intros remote fuel file parent_id file_id Hc Hr Hf.
  unfold upload_file.
  rewrite (bind_return _ _ _ _ _ (create_file_succeeds _ _ _ _ _ Hc)).
  rewrite Hr, Hf. reflexivity.
Qed.

Lemma reuse_returns_created_file_id_witness :
  upload_file remote_reuse 0 ten_bytes 0 start =
  (Return 99,
   {| calls := [create_call ten_bytes 0]; f_pos := []; uploaded_chunks := [] |}).
Proof.
  apply (reuse_returns_created_file_id remote_reuse 0 ten_bytes 0 99);
    reflexivity.
Defined.

(** *** A success answer that cannot start a chunked session *)

(** C1, as the code has it: when the create call answers success without
    [reuse] and without a slice size, or with the slice size 0, the upload
    ends with the [ZeroDivisionError] of [file_size / slice_size] and the
    create call is the only request sent; no chunk is pushed. *)
Theorem missing_slice_size_fails :
  forall remote fuel file parent_id,
    code (on_create remote) = 0 ->
    get (reuse (data (on_create remote))) false = false ->
    get (sliceSize (data (on_create remote))) 0 = 0 ->
    upload_file remote fuel file parent_id start =
    (Raise ZeroDivisionError,
     {| calls := [create_call file parent_id];
        f_pos := []; uploaded_chunks := [] |}).
Proof.
  intros remote fuel file parent_id Hc Hr Hs.
  unfold upload_file.
  rewrite (bind_return _ _ _ _ _ (create_file_succeeds _ _ _ _ _ Hc)).
  rewrite Hr, Hs. reflexivity.
Qed.

Lemma missing_slice_size_fails_witness :
  upload_file remote_no_slice 0 ten_bytes 0 start =
  (Raise ZeroDivisionError,
   {| calls := [create_call ten_bytes 0]; f_pos := []; uploaded_chunks := [] |}).
Proof.
  apply (missing_slice_size_fails remote_no_slice 0 ten_bytes 0);
    reflexivity.
Defined.

(** C1 fails as stated: a success answer without a session token starts
    a session under the empty token, its chunks are pushed and the upload
    returns a file id; a negative slice size is not refused either. *)
Lemma missing_token_is_not_refused :
  (code (on_create remote_no_token) = 0 /\
   reuse (data (on_create remote_no_token)) = Some false /\
   preuploadID (data (on_create remote_no_token)) = None /\
   fst (upload_file remote_no_token 0 ten_bytes 0 start) = Return 7 /\
   filter is_get_upload_url
          (calls (snd (upload_file remote_no_token 0 ten_bytes 0 start)))
   = [GetUploadUrl "" 1; GetUploadUrl "" 2; GetUploadUrl "" 3] /\
   count is_put (calls (snd (upload_file remote_no_token 0 ten_bytes 0 start)))
   = 3%nat) /\
  (code (on_create remote_negative_slice) = 0 /\
   reuse (data (on_create remote_negative_slice)) = Some false /\
   sliceSize (data (on_create remote_negative_slice)) = Some (-4) /\
   fst (upload_file remote_negative_slice 0 ten_bytes 0 start) = Return 7).
Proof. vm_compute. repeat split. Qed.

(** *** Reading the chunks *)

Lemma count_app p cs cs' : count p (cs ++ cs') = (count p cs + count p cs')%nat.
Proof. unfold count. rewrite filter_app. apply length_app. Qed.

Lemma getsize_length file : Z.to_nat (getsize file) = List.length (content file).
Proof. unfold getsize. apply Nat2Z.id. Qed.

Lemma firstn_min {A} n (l : list A) :
  firstn n l = firstn (Nat.min n (List.length l)) l.
Proof.
  destruct (Nat.le_gt_cases n (List.length l)) as [H | H].
  - rewrite Nat.min_l by exact H. reflexivity.
  - rewrite Nat.min_r by lia. rewrite !firstn_all2 by lia. reflexivity.
Qed.

(** The read of the loop for the chunk of index [i] returns the bytes of
    its range. *)
Lemma read_chunk file slice_size i :
  0 < slice_size ->
  fst (read slice_size (skipn (i * Z.to_nat slice_size) (content file)))
  = chunk_bytes file slice_size i.
Proof.
  intros Hk. unfold read.
  destruct (slice_size <? 0) eqn:E; [apply Z.ltb_lt in E; lia |]. cbn [fst].
  unfold chunk_bytes, byte_range, chunk_range. cbn [fst snd].
  pose proof (getsize_length file) as Hlen.
  assert (Hs : 0 <= getsize file) by (unfold getsize; lia).
  set (k := Z.to_nat slice_size) in *.
  assert (Ek : slice_size = Z.of_nat k) by (unfold k; lia).
  destruct (Z.le_gt_cases (getsize file) (Z.of_nat i * slice_size)) as [H | H].
  - rewrite skipn_all2 by nia.
    rewrite !Z.min_r by nia. rewrite Z.sub_diag. now rewrite firstn_nil.
  - rewrite (Z.min_l (Z.of_nat i * slice_size)) by lia.
    replace (Z.to_nat (Z.of_nat i * slice_size)) with (i * k)%nat by nia.
    rewrite firstn_min. f_equal. rewrite length_skipn, <- Hlen.
    destruct (Z.le_gt_cases ((Z.of_nat i + 1) * slice_size) (getsize file)).
    + rewrite Z.min_l by lia. nia.
    + rewrite Z.min_r by lia. nia.
Qed.

Lemma read_rest file slice_size i :
  0 < slice_size ->
  snd (read slice_size (skipn (i * Z.to_nat slice_size) (content file)))
  = skipn (S i * Z.to_nat slice_size) (content file).
Proof.
  intros Hk. unfold read.
  destruct (slice_size <? 0) eqn:E; [apply Z.ltb_lt in E; lia |]. cbn [snd].
  rewrite skipn_skipn. reflexivity.
Qed.

(** *** The chunks and the content of the file *)

Lemma firstn_plus {A} a b : forall l : list A,
  firstn (a + b) l = firstn a l ++ firstn b (skipn a l).
Proof.
  induction a as [| a IH]; intros l; [reflexivity |].
  destruct l as [| x l]; cbn [Nat.add firstn skipn app].
  - now rewrite firstn_nil.
  - now rewrite IH.
Qed.

(** The first [n] chunks, in order, are the first [n] slices of the
    content: they follow one another without gap or overlap. *)
Lemma chunks_concat file slice_size n :
  0 < slice_size ->
  List.concat (map (chunk_bytes file slice_size) (seq 0 n))
  = firstn (n * Z.to_nat slice_size) (content file).
Proof.
  intros Hk. induction n as [| n IH]; [reflexivity |].
  rewrite seq_S, map_app, concat_app, IH. cbn [Nat.add map List.concat].
  rewrite app_nil_r, <- read_chunk by exact Hk.
  unfold read. destruct (slice_size <? 0) eqn:E; [apply Z.ltb_lt in E; lia |].
  cbn [fst]. rewrite <- firstn_plus. f_equal. lia.
Qed.

(** With at least [ceil (file_size / slice_size)] chunks the whole
    content is covered. *)
Lemma chunks_cover_content file slice_size n :
  0 < slice_size ->
  ceil_div (getsize file) slice_size <= Z.of_nat n ->
  List.concat (map (chunk_bytes file slice_size) (seq 0 n)) = content file.
Proof.
  intros Hk Hn. rewrite chunks_concat by exact Hk.
  apply firstn_all2. rewrite <- getsize_length.
  assert (getsize file <= Z.of_nat n * slice_size).
  { unfold ceil_div in Hn.
    pose proof (Z.div_mod (getsize file + slice_size - 1) slice_size ltac:(lia)).
    pose proof (Z.mod_pos_bound (getsize file + slice_size - 1) slice_size Hk).
    nia. }
  assert (0 <= getsize file) by (unfold getsize; lia). nia.
Qed.

(** With fewer chunks the bytes after the last slice are in no chunk. *)
Lemma chunks_miss_bytes file slice_size n :
  0 < slice_size ->
  Z.of_nat n * slice_size < getsize file ->
  Z.of_nat (List.length
              (List.concat (map (chunk_bytes file slice_size) (seq 0 n))))
  = Z.of_nat n * slice_size.
Proof.
  intros Hk Hn. rewrite chunks_concat by exact Hk.
  rewrite length_firstn, Nat.min_l; [nia |].
  rewrite <- getsize_length. nia.
Qed.

(** Consecutive ranges share their bound, the first starts at 0 and the
    last of [ceil (file_size / slice_size)] ranges ends at the file size. *)
Lemma chunk_ranges_contiguous file_size slice_size i :
  snd (chunk_range file_size slice_size i)
  = fst (chunk_range file_size slice_size (i + 1)).
Proof. reflexivity. Qed.

Lemma chunk_ranges_start file_size slice_size :
  0 <= file_size -> fst (chunk_range file_size slice_size 0) = 0.
Proof. intros H. unfold chunk_range. cbn [fst]. lia. Qed.

Lemma chunk_ranges_end file_size slice_size :
  0 < slice_size -> 0 <= file_size ->
  snd (chunk_range file_size slice_size (ceil_div file_size slice_size - 1))
  = file_size.
Proof.
  intros Hk Hs. unfold chunk_range, ceil_div. cbn [snd].
  pose proof (Z.div_mod (file_size + slice_size - 1) slice_size ltac:(lia)).
  pose proof (Z.mod_pos_bound (file_size + slice_size - 1) slice_size Hk).
  apply Z.min_r. nia.
Qed.

(** Below [2 ^ 53] bytes the chunks that [upload_file] plans are a
    partition of the content. *)
Lemma planned_chunks_partition_content file slice_size :
  getsize file < 2 ^ 53 -> 0 < slice_size < 2 ^ 1075 ->
  exists total,
    total_chunks (getsize file) slice_size = Return total /\
    total = ceil_div (getsize file) slice_size /\
    List.concat (map (chunk_bytes file slice_size) (seq 0 (Z.to_nat total)))
    = content file.
Proof.
  intros Hs Hk. assert (0 <= getsize file) by (unfold getsize; lia).
  exists (ceil_div (getsize file) slice_size).
  split; [apply total_chunks_exact; lia |]. split; [reflexivity |].
  apply chunks_cover_content; [lia |].
  assert (0 <= ceil_div (getsize file) slice_size)
    by (unfold ceil_div; apply Z.div_pos; lia).
  lia.
Qed.

(** C7 on the code: the loop reads one slice per planned chunk
    ([read_chunk], [chunks_concat]), and the chunk count is the float
    quotient rounded up.  For a file of [2 ^ 54 + 1] bytes and slices of
    4 MiB the count is [2 ^ 32]: the last range read ends at [2 ^ 54], one
    byte before the end of the file, so the ranges do not cover
    [[0, file_size)]. *)
Theorem planned_ranges_miss_last_byte :
  total_chunks (2 ^ 54 + 1) 4194304 = Return (2 ^ 32) /\
  chunk_range (2 ^ 54 + 1) 4194304 (2 ^ 32 - 1) = (2 ^ 54 - 4194304, 2 ^ 54) /\
  snd (chunk_range (2 ^ 54 + 1) 4194304 (2 ^ 32 - 1)) < 2 ^ 54 + 1.
Proof. repeat split; vm_compute; reflexivity. Qed.

(** *** The loop of step 2 *)

(** The sizes that [f.read] accepts. *)
Lemma read_raises_none n :
  -1 <= n <= bytes_maxsize -> read_raises n = None.
Proof.
  unfold read_raises, bytes_maxsize, sys_maxsize. intros Hn.
  replace (n <? - (2 ^ 63 - 1) - 1) with false by (symmetry; apply Z.ltb_ge; lia).
  replace (2 ^ 63 - 1 <? n) with false by (symmetry; apply Z.ltb_ge; lia).
  replace (n <? -1) with false by (symmetry; apply Z.ltb_ge; lia).
  replace (2 ^ 63 - 1 - 33 <? n) with false by (symmetry; apply Z.ltb_ge; lia).
  reflexivity.
Qed.

(** One iteration, down to the primitives of the monad, for a slice size
    that [f.read] accepts. *)
Ltac enter_upload_chunk :=
  unfold upload_chunk, get_upload_url, requests_put, f_read, sent, send,
    uploaded_chunks_append, bind, ret, raise;
  rewrite read_raises_none by lia;
  cbn [calls f_pos uploaded_chunks].

Section ChunkLoop.

Variable remote : Remote.
Variable file : LocalFile.
Variable preupload_id : string.
Variable slice_size : Z.
Hypothesis slice_positive : 0 < slice_size.
Hypothesis slice_readable : slice_size <= bytes_maxsize.

Lemma upload_chunk_accepted i st :
  at_chunk file slice_size i st ->
  code (on_get_upload_url remote (Z.of_nat i + 1)) = 0 ->
  status_code (on_put remote i) = 200 ->
  upload_chunk remote preupload_id slice_size (Z.of_nat i) st =
  (Return tt,
   {| calls := calls st ++ chunk_requests remote preupload_id file slice_size i;
      f_pos := skipn (S i * Z.to_nat slice_size) (content file);
      uploaded_chunks := uploaded_chunks st ++ [chunk_record file slice_size i] |}).
Proof.
  intros [Hput Hpos] Hurl Hst.
  enter_upload_chunk. rewrite Hurl. cbn [Z.eqb calls f_pos uploaded_chunks].
  rewrite count_app, Hput. cbn [count filter is_put List.length].
  rewrite Nat.add_0_r, Hst. cbn [Z.eqb Pos.eqb negb calls f_pos uploaded_chunks].
  rewrite Hpos, read_chunk, read_rest by exact slice_positive.
  rewrite <- app_assoc. reflexivity.
Qed.

Lemma upload_chunk_refused i st :
  at_chunk file slice_size i st ->
  code (on_get_upload_url remote (Z.of_nat i + 1)) = 0 ->
  status_code (on_put remote i) <> 200 ->
  upload_chunk remote preupload_id slice_size (Z.of_nat i) st =
  (Raise (ChunkUploadFailed (Z.of_nat i + 1) (text (on_put remote i))),
   {| calls := calls st ++ chunk_requests remote preupload_id file slice_size i;
      f_pos := skipn (S i * Z.to_nat slice_size) (content file);
      uploaded_chunks := uploaded_chunks st |}).
Proof.
  intros [Hput Hpos] Hurl Hst.
  enter_upload_chunk. rewrite Hurl. cbn [Z.eqb calls f_pos uploaded_chunks].
  rewrite count_app, Hput. cbn [count filter is_put List.length].
  rewrite Nat.add_0_r.
  apply Z.eqb_neq in Hst. rewrite Hst. cbn [negb calls f_pos uploaded_chunks].
  rewrite Hpos, read_chunk, read_rest by exact slice_positive.
  rewrite <- app_assoc. reflexivity.
Qed.

Lemma at_chunk_next i st :
  at_chunk file slice_size i st ->
  at_chunk file slice_size (S i)
    {| calls := calls st ++ chunk_requests remote preupload_id file slice_size i;
       f_pos := skipn (S i * Z.to_nat slice_size) (content file);
       uploaded_chunks := uploaded_chunks st ++ [chunk_record file slice_size i] |}.
Proof.
  intros [Hput Hpos]. split; cbn [calls f_pos]; [| reflexivity].
  rewrite count_app, Hput. cbn. lia.
Qed.

(** [n] accepted chunks from the index [i0]. *)
Lemma for_range_accepted n : forall i0 st,
  at_chunk file slice_size i0 st ->
  (forall i, (i0 <= i < i0 + n)%nat ->
     code (on_get_upload_url remote (Z.of_nat i + 1)) = 0 /\
     status_code (on_put remote i) = 200) ->
  for_range n (Z.of_nat i0) (upload_chunk remote preupload_id slice_size) st =
  (Return tt,
   {| calls := calls st ++ chunk_calls remote preupload_id file slice_size i0 n;
      f_pos := match n with
               | O => f_pos st
               | S _ => skipn ((i0 + n) * Z.to_nat slice_size) (content file)
               end;
      uploaded_chunks :=
        uploaded_chunks st ++ chunk_records file slice_size i0 n |}).
Proof.
  induction n as [| n IH]; intros i0 st Hat Hok.
  - cbn [for_range]. unfold ret, chunk_calls, chunk_records. cbn.
    rewrite !app_nil_r. destruct st; reflexivity.
  - cbn [for_range].
    destruct (Hok i0 ltac:(lia)) as [Hurl Hput].
    rewrite (bind_return _ _ _ _ _ (upload_chunk_accepted i0 st Hat Hurl Hput)).
    replace (Z.of_nat i0 + 1) with (Z.of_nat (S i0)) by lia.
    rewrite IH; [| now apply at_chunk_next | intros i Hi; apply Hok; lia].
    cbn [calls f_pos uploaded_chunks].
    unfold chunk_calls, chunk_records. cbn [seq flat_map map].
    rewrite <- !app_assoc. f_equal. f_equal.
    destruct n; f_equal; lia.
Qed.

(** The chunks before the index [j] are accepted and the [PUT] of chunk
    [j] is refused. *)
Lemma for_range_refused n : forall i0 st j,
  at_chunk file slice_size i0 st ->
  (i0 <= j < i0 + n)%nat ->
  (forall i, (i0 <= i < j)%nat ->
     code (on_get_upload_url remote (Z.of_nat i + 1)) = 0 /\
     status_code (on_put remote i) = 200) ->
  code (on_get_upload_url remote (Z.of_nat j + 1)) = 0 ->
  status_code (on_put remote j) <> 200 ->
  for_range n (Z.of_nat i0) (upload_chunk remote preupload_id slice_size) st =
  (Raise (ChunkUploadFailed (Z.of_nat j + 1) (text (on_put remote j))),
   {| calls := calls st
               ++ chunk_calls remote preupload_id file slice_size i0 (j - i0)
               ++ chunk_requests remote preupload_id file slice_size j;
      f_pos := skipn (S j * Z.to_nat slice_size) (content file);
      uploaded_chunks :=
        uploaded_chunks st ++ chunk_records file slice_size i0 (j - i0) |}).
Proof.
  induction n as [| n IH]; intros i0 st j Hat Hj Hok Hurl Hput; [lia |].
  cbn [for_range].
  destruct (Nat.eq_dec i0 j) as [-> | Hne].
  - rewrite (bind_raise _ _ _ _ _ (upload_chunk_refused j st Hat Hurl Hput)).
    rewrite Nat.sub_diag. unfold chunk_calls, chunk_records. cbn [seq flat_map map].
    rewrite app_nil_r. reflexivity.
  - destruct (Hok i0 ltac:(lia)) as [Hurl0 Hput0].
    rewrite (bind_return _ _ _ _ _ (upload_chunk_accepted i0 st Hat Hurl0 Hput0)).
    replace (Z.of_nat i0 + 1) with (Z.of_nat (S i0)) by lia.
    rewrite (IH (S i0) _ j);
      [| now apply at_chunk_next | lia | intros i Hi; apply Hok; lia
       | assumption | assumption].
    cbn [calls f_pos uploaded_chunks].
    replace (j - i0)%nat with (S (j - S i0)) by lia.
    unfold chunk_calls, chunk_records. cbn [seq flat_map map].
    rewrite <- !app_assoc. reflexivity.
Qed.

End ChunkLoop.

(** *** Steps 1 and 2 of [upload_file] *)

Lemma upload_chunks_accepted remote file preupload_id slice_size total st :
  0 < slice_size ->
  (0 < total -> slice_size <= bytes_maxsize) ->
  total_chunks (getsize file) slice_size = Return total ->
  chunks_accepted remote (Z.to_nat total) ->
  count is_put (calls st) = 0%nat ->
  upload_chunks remote file preupload_id slice_size st =
  (Return tt,
   {| calls := calls st
               ++ chunk_calls remote preupload_id file slice_size 0 (Z.to_nat total);
      f_pos := skipn (Z.to_nat total * Z.to_nat slice_size) (content file);
      uploaded_chunks := chunk_records file slice_size 0 (Z.to_nat total) |}).
Proof.
  intros Hk Hk' Htot Hacc Hput.
  unfold upload_chunks, lift, bind, uploaded_chunks_new, open, range.
  rewrite Htot.
  destruct (Z.to_nat total) as [| n] eqn:En.
  - cbn [for_range Nat.mul skipn]. unfold ret, chunk_calls, chunk_records.
    cbn [seq flat_map map calls f_pos uploaded_chunks].
    now rewrite app_nil_r.
  - rewrite <- En in *. change 0 with (Z.of_nat 0).
    rewrite (for_range_accepted remote file preupload_id slice_size Hk
                                ltac:(apply Hk'; lia)).
    + cbn [calls f_pos uploaded_chunks app Nat.add].
      rewrite En. reflexivity.
    + split; [exact Hput | reflexivity].
    + intros i Hi. apply Hacc. lia.
Qed.

(** Steps 1 and 2 with every chunk accepted; the slice size has to be
    one that [f.read] accepts when a chunk is read at all. *)
Lemma upload_file_chunks_accepted
      remote fuel file parent_id preupload_id slice_size total :
  chunked_session remote preupload_id slice_size ->
  0 < slice_size ->
  (0 < total -> slice_size <= bytes_maxsize) ->
  total_chunks (getsize file) slice_size = Return total ->
  chunks_accepted remote (Z.to_nat total) ->
  upload_file remote fuel file parent_id start =
  (verify_chunks remote file preupload_id slice_size ;;
   finish_upload remote fuel preupload_id)
    (after_chunks remote file parent_id preupload_id slice_size (Z.to_nat total)).
Proof.
  intros (Hc & Hr & Hp & Hs) Hk Hk' Htot Hacc.
  unfold upload_file.
  rewrite (bind_return _ _ _ _ _ (create_file_succeeds _ _ _ _ _ Hc)).
  rewrite Hr, Hp, Hs.
  erewrite bind_return
    by (apply upload_chunks_accepted; [exact Hk | exact Hk' | exact Htot
                                      | exact Hacc | reflexivity]).
  reflexivity.
Qed.

Lemma upload_file_after_chunks
      remote fuel file parent_id preupload_id slice_size total :
  chunks_uploaded remote file preupload_id slice_size total ->
  upload_file remote fuel file parent_id start =
  (verify_chunks remote file preupload_id slice_size ;;
   finish_upload remote fuel preupload_id)
    (after_chunks remote file parent_id preupload_id slice_size (Z.to_nat total)).
Proof.
  intros (Hsession & [Hk Hk'] & Htot & Hacc).
  now apply upload_file_chunks_accepted.
Qed.

(** *** Step 3 *)

Lemma verify_parts_run server_parts uploaded st :
  verify_parts server_parts uploaded st =
  (match find (fun lp => negb (part_verified server_parts lp)) uploaded with
   | Some lp => Raise (ChunkVerifyFailed (partNumber lp))
   | None => Return tt
   end, st).
Proof.
  induction uploaded as [| lp rest IH]; cbn [verify_parts find]; [reflexivity |].
  unfold part_verified at 1, server_entry.
  destruct (find _ server_parts) as [sp |]; [| reflexivity].
  destruct (String.eqb (etag sp) (etag lp)); cbn [negb]; [exact IH | reflexivity].
Qed.

Lemma verify_chunks_skipped remote file preupload_id slice_size st :
  getsize file <= slice_size ->
  verify_chunks remote file preupload_id slice_size st = (Return tt, st).
Proof.
  intros H. unfold verify_chunks.
  replace (getsize file >? slice_size) with false; [reflexivity |].
  symmetry. rewrite Z.gtb_ltb. apply Z.ltb_ge. exact H.
Qed.

Lemma verify_chunks_listed remote file preupload_id slice_size st :
  slice_size < getsize file ->
  code (on_list_upload_parts remote) = 0 ->
  verify_chunks remote file preupload_id slice_size st =
  verify_parts (parts (data (on_list_upload_parts remote)))
               (uploaded_chunks st)
               (log [ListUploadParts preupload_id] st).
Proof.
  intros H Hc. unfold verify_chunks.
  replace (getsize file >? slice_size) with true
    by (symmetry; rewrite Z.gtb_ltb; apply Z.ltb_lt; exact H).
  unfold list_uploaded_parts, get_uploaded_chunks, bind, send, ret.
  rewrite Hc. reflexivity.
Qed.

Lemma verify_chunks_not_listed remote file preupload_id slice_size st :
  slice_size < getsize file ->
  code (on_list_upload_parts remote) <> 0 ->
  verify_chunks remote file preupload_id slice_size st =
  (Raise (ListPartsFailed (message (on_list_upload_parts remote))),
   log [ListUploadParts preupload_id] st).
Proof.
  intros H Hc. unfold verify_chunks.
  replace (getsize file >? slice_size) with true
    by (symmetry; rewrite Z.gtb_ltb; apply Z.ltb_lt; exact H).
  unfold list_uploaded_parts, get_uploaded_chunks, bind, send, ret, raise.
  apply Z.eqb_neq in Hc. rewrite Hc. reflexivity.
Qed.

Lemma find_none_forallb {A} (p : A -> bool) l :
  forallb p l = true -> find (fun x => negb (p x)) l = None.
Proof.
  induction l as [| x l IH]; cbn [forallb find]; [reflexivity |].
  intros H. apply andb_true_iff in H as [Hx Hl]. rewrite Hx. cbn [negb]. auto.
Qed.

Lemma verify_chunks_passes remote file parent_id preupload_id slice_size n :
  parts_verified remote file slice_size n ->
  verify_chunks remote file preupload_id slice_size
                (after_chunks remote file parent_id preupload_id slice_size n) =
  (Return tt,
   log (if slice_size <? getsize file then [ListUploadParts preupload_id] else [])
       (after_chunks remote file parent_id preupload_id slice_size n)).
Proof.
  intros Hv. destruct (slice_size <? getsize file) eqn:E.
  - apply Z.ltb_lt in E. destruct (Hv E) as [Hc Hall].
    rewrite verify_chunks_listed, verify_parts_run by assumption.
    cbn [uploaded_chunks after_chunks].
    rewrite (find_none_forallb _ _ Hall). reflexivity.
  - apply Z.ltb_ge in E. rewrite verify_chunks_skipped by exact E.
    unfold log. rewrite app_nil_r. reflexivity.
Qed.

(** *** Steps 4 and 5 *)

Lemma log_log cs cs' st : log cs' (log cs st) = log (cs ++ cs') st.
Proof. unfold log. cbn [calls f_pos uploaded_chunks]. now rewrite app_assoc. Qed.

Lemma log_nil st : log [] st = st.
Proof. unfold log. rewrite app_nil_r. destruct st; reflexivity. Qed.

Lemma count_chunk_calls p remote preupload_id file slice_size n : forall i0,
  (forall a b, p (GetUploadUrl a b) = false) ->
  (forall a b, p (PutChunk a b) = false) ->
  count p (chunk_calls remote preupload_id file slice_size i0 n) = 0%nat.
Proof.
  unfold chunk_calls, chunk_requests, count.
  induction n as [| n IH]; intros i0 Hg Hp; cbn [seq flat_map app filter];
    [reflexivity |].
  rewrite Hg, Hp. now apply IH.
Qed.

Lemma check_async_result_run remote preupload_id st :
  check_async_result remote preupload_id st =
  (let r := on_upload_async_result remote (count is_async_result (calls st)) in
   if code r =? 0
   then Return (async_completed (data r), async_fileID (data r))
   else Raise (AsyncResultFailed (message r)),
   log [UploadAsyncResult preupload_id] st).
Proof.
  unfold check_async_result, sent, send, bind, ret, raise. cbn zeta.
  destruct (code _ =? 0); reflexivity.
Qed.

(** The poll of rank [r + m] is the first to report completion: the loop
    returns its file id after [m + 1] polls, given fuel for them. *)
Lemma wait_async_result_completes remote preupload_id m : forall fuel st,
  (m < fuel)%nat ->
  (forall j, (j < m)%nat ->
     let r := on_upload_async_result remote (count is_async_result (calls st) + j) in
     code r = 0 /\ async_completed (data r) = false) ->
  (let r := on_upload_async_result remote (count is_async_result (calls st) + m) in
   code r = 0 /\ async_completed (data r) = true) ->
  wait_async_result remote fuel preupload_id st =
  (Return (async_fileID
             (data (on_upload_async_result remote
                      (count is_async_result (calls st) + m)))),
   log (repeat (UploadAsyncResult preupload_id) (S m)) st).
Proof.
  induction m as [| m IH]; intros fuel st Hfuel Hbefore Hlast;
    (destruct fuel as [| fuel]; [lia |]); cbn [wait_async_result];
    unfold bind at 1; rewrite check_async_result_run; cbn zeta.
  - rewrite Nat.add_0_r in *. destruct Hlast as [-> ->]. reflexivity.
  - destruct (Hbefore 0%nat ltac:(lia)) as [Hc Hn].
    rewrite Nat.add_0_r in Hc, Hn. rewrite Hc, Hn. cbn [Z.eqb].
    assert (Hcount : count is_async_result
                       (calls (log [UploadAsyncResult preupload_id] st))
                     = S (count is_async_result (calls st))).
    { cbn [log calls]. rewrite count_app. cbn. lia. }
    rewrite IH.
    + rewrite Hcount, log_log. cbn [app repeat].
      now replace (S (count is_async_result (calls st)) + m)%nat
        with (count is_async_result (calls st) + S m)%nat by lia.
    + lia.
    + intros j Hj. rewrite Hcount.
      replace (S (count is_async_result (calls st)) + j)%nat
        with (count is_async_result (calls st) + S j)%nat by lia.
      apply Hbefore. lia.
    + rewrite Hcount.
      now replace (S (count is_async_result (calls st)) + m)%nat
        with (count is_async_result (calls st) + S m)%nat by lia.
Qed.

(** Whatever the answers, the loop only polls. *)
Lemma wait_async_result_calls remote preupload_id fuel : forall st,
  exists m, snd (wait_async_result remote fuel preupload_id st) =
            log (repeat (UploadAsyncResult preupload_id) m) st.
Proof.
  induction fuel as [| fuel IH]; intros st; cbn [wait_async_result].
  - exists 0%nat. cbn [repeat lift snd]. now rewrite log_nil.
  - unfold bind at 1. rewrite check_async_result_run. cbn zeta.
    destruct (code _ =? 0).
    + destruct (async_completed _).
      * exists 1%nat. reflexivity.
      * destruct (IH (log [UploadAsyncResult preupload_id] st)) as [m Hm].
        exists (S m). rewrite Hm, log_log. reflexivity.
    + exists 1%nat. reflexivity.
Qed.

Lemma finish_upload_sync remote fuel preupload_id st :
  code (on_upload_complete remote) = 0 ->
  async (data (on_upload_complete remote)) = false ->
  finish_upload remote fuel preupload_id st =
  (Return (get (complete_fileID (data (on_upload_complete remote))) 0),
   log [UploadComplete preupload_id] st).
Proof.
  intros Hc Ha. unfold finish_upload, complete_upload, bind, send, ret.
  rewrite Hc, Ha. reflexivity.
Qed.

Lemma finish_upload_async remote fuel preupload_id st :
  code (on_upload_complete remote) = 0 ->
  async (data (on_upload_complete remote)) = true ->
  finish_upload remote fuel preupload_id st =
  wait_async_result remote fuel preupload_id (log [UploadComplete preupload_id] st).
Proof.
  intros Hc Ha. unfold finish_upload, complete_upload, bind, send, ret.
  rewrite Hc, Ha. reflexivity.
Qed.

(** Steps 4 and 5 send the complete call and then only polls. *)
Lemma finish_upload_calls remote fuel preupload_id st :
  exists m, snd (finish_upload remote fuel preupload_id st) =
            log (UploadComplete preupload_id
                 :: repeat (UploadAsyncResult preupload_id) m) st.
Proof.
  destruct (Z.eq_dec (code (on_upload_complete remote)) 0) as [Hc | Hc].
  - destruct (async (data (on_upload_complete remote))) eqn:Ha.
    + rewrite finish_upload_async by assumption.
      destruct (wait_async_result_calls remote preupload_id fuel
                  (log [UploadComplete preupload_id] st)) as [m Hm].
      exists m. rewrite Hm, log_log. reflexivity.
    + rewrite finish_upload_sync by assumption. exists 0%nat. reflexivity.
  - exists 0%nat. unfold finish_upload, complete_upload, bind, send, ret, raise.
    apply Z.eqb_neq in Hc. rewrite Hc. reflexivity.
Qed.

(** A session that gets through step 3 arrives at the complete call with
    the create call, the chunk calls and, for a file larger than a slice,
    the listing of the parts behind it. *)
Lemma upload_file_at_completion
      remote fuel file parent_id preupload_id slice_size total :
  chunks_uploaded remote file preupload_id slice_size total ->
  parts_verified remote file slice_size (Z.to_nat total) ->
  upload_file remote fuel file parent_id start =
  finish_upload remote fuel preupload_id
    (log (if slice_size <? getsize file then [ListUploadParts preupload_id] else [])
         (after_chunks remote file parent_id preupload_id slice_size (Z.to_nat total))).
Proof.
  intros Hup Hv.
  rewrite (upload_file_after_chunks _ _ _ _ _ _ _ Hup).
  now rewrite (bind_return _ _ _ _ _ (verify_chunks_passes _ _ _ _ _ _ Hv)).
Qed.

Lemma count_after_chunks p remote file parent_id preupload_id slice_size n :
  (forall a b, p (GetUploadUrl a b) = false) ->
  (forall a b, p (PutChunk a b) = false) ->
  (forall a b c d, p (CreateFile a b c d) = false) ->
  count p (calls (after_chunks remote file parent_id preupload_id slice_size n))
  = 0%nat.
Proof.
  intros Hg Hp Hc. cbn [after_chunks calls].
  change (create_call file parent_id :: ?l) with ([create_call file parent_id] ++ l).
  rewrite count_app, count_chunk_calls by assumption.
  unfold count, create_call. cbn [filter]. now rewrite Hc.
Qed.

(** The sample session of ten bytes in slices of 4 gets through. *)
Lemma ten_bytes_upload_completes remote complete polls :
  remote = scripted (chunked (Some "tok"%string) (Some 4)) (fun _ => 200)
                    ten_bytes_parts complete polls ->
  upload_completes remote ten_bytes "tok" 4 3.
Proof.
  intros ->. repeat split; try reflexivity. vm_compute. discriminate.
Qed.

(** *** A chunk that is refused *)

Lemma upload_chunks_refused remote file preupload_id slice_size total st j :
  0 < slice_size <= bytes_maxsize ->
  total_chunks (getsize file) slice_size = Return total ->
  (j < Z.to_nat total)%nat ->
  chunks_accepted remote j ->
  code (on_get_upload_url remote (Z.of_nat j + 1)) = 0 ->
  status_code (on_put remote j) <> 200 ->
  count is_put (calls st) = 0%nat ->
  upload_chunks remote file preupload_id slice_size st =
  (Raise (ChunkUploadFailed (Z.of_nat j + 1) (text (on_put remote j))),
   {| calls := calls st
               ++ chunk_calls remote preupload_id file slice_size 0 j
               ++ [GetUploadUrl preupload_id (Z.of_nat j + 1);
                   PutChunk (upload_url remote j) (chunk_bytes file slice_size j)];
      f_pos := skipn (S j * Z.to_nat slice_size) (content file);
      uploaded_chunks := chunk_records file slice_size 0 j |}).
Proof.
  intros [Hk Hk'] Htot Hj Hacc Hurl Hput Hst.
  unfold upload_chunks, lift, bind, uploaded_chunks_new, open, range.
  rewrite Htot. change 0 with (Z.of_nat 0).
  rewrite (for_range_refused remote file preupload_id slice_size Hk Hk'
                             _ _ _ j);
    try assumption.
  - cbn [calls f_pos uploaded_chunks app]. rewrite Nat.sub_0_r. reflexivity.
  - split; [exact Hst | reflexivity].
  - lia.
  - intros i Hi. apply Hacc. lia.
Qed.

Lemma chunk_records_numbers file slice_size n : forall i0,
  map partNumber (chunk_records file slice_size i0 n)
  = map (fun i => Z.of_nat i + 1) (seq i0 n).
Proof.
  unfold chunk_records. intros i0. rewrite map_map. reflexivity.
Qed.

(** C9: the [PUT] of the chunk of index [j] -- slice number [j + 1] -- is
    refused after the chunks before it went through: the upload raises
    at once, the local list holds one record for each of the slice
    numbers [1 .. j] and none for the refused chunk or a later one, and
    the session ends on that [PUT]: the parts are not listed and the
    upload is not completed.  The slice size is one that [f.read]
    accepts, or no [PUT] is reached. *)
Theorem refused_chunk_aborts_upload :
  forall remote fuel file parent_id preupload_id slice_size total j,
    chunked_session remote preupload_id slice_size ->
    0 < slice_size <= bytes_maxsize ->
    total_chunks (getsize file) slice_size = Return total ->
    (j < Z.to_nat total)%nat ->
    chunks_accepted remote j ->
    code (on_get_upload_url remote (Z.of_nat j + 1)) = 0 ->
    status_code (on_put remote j) <> 200 ->
    let run := upload_file remote fuel file parent_id start in
    fst run = Raise (ChunkUploadFailed (Z.of_nat j + 1) (text (on_put remote j))) /\
    uploaded_chunks (snd run) = chunk_records file slice_size 0 j /\
    map partNumber (uploaded_chunks (snd run))
    = map (fun i => Z.of_nat i + 1) (seq 0 j) /\
    calls (snd run)
    = create_call file parent_id
      :: chunk_calls remote preupload_id file slice_size 0 j
      ++ [GetUploadUrl preupload_id (Z.of_nat j + 1);
          PutChunk (upload_url remote j) (chunk_bytes file slice_size j)] /\
    count is_list_upload_parts (calls (snd run)) = 0%nat /\
    count is_upload_complete (calls (snd run)) = 0%nat.
Proof.
  intros remote fuel file parent_id preupload_id slice_size total j
         (Hc & Hr & Hp & Hs) Hk Htot Hj Hacc Hurl Hput run.
  assert (Hrun : run =
    (Raise (ChunkUploadFailed (Z.of_nat j + 1) (text (on_put remote j))),
     {| calls := [create_call file parent_id]
                 ++ chunk_calls remote preupload_id file slice_size 0 j
                 ++ [GetUploadUrl preupload_id (Z.of_nat j + 1);
                     PutChunk (upload_url remote j) (chunk_bytes file slice_size j)];
        f_pos := skipn (S j * Z.to_nat slice_size) (content file);
        uploaded_chunks := chunk_records file slice_size 0 j |})).
  { subst run. unfold upload_file.
    rewrite (bind_return _ _ _ _ _ (create_file_succeeds _ _ _ _ _ Hc)).
    rewrite Hr, Hp, Hs.
    erewrite bind_raise; [reflexivity |].
    apply upload_chunks_refused with (total := total); auto. }
  rewrite Hrun. cbn [fst snd calls uploaded_chunks].
  repeat split.
  - apply chunk_records_numbers.
  - rewrite !count_app, count_chunk_calls by reflexivity. reflexivity.
  - rewrite !count_app, count_chunk_calls by reflexivity. reflexivity.
Qed.

Lemma refused_chunk_aborts_upload_witness :
  fst (upload_file remote_second_refused 0 ten_bytes 0 start)
  = Raise (ChunkUploadFailed 2 "") /\
  map partNumber
      (uploaded_chunks (snd (upload_file remote_second_refused 0 ten_bytes 0 start)))
  = [1] /\
  count is_upload_complete
        (calls (snd (upload_file remote_second_refused 0 ten_bytes 0 start)))
  = 0%nat.
Proof.
  destruct (refused_chunk_aborts_upload
              remote_second_refused 0 ten_bytes 0 "tok" 4 3 1)
    as (Hraise & _ & Hnumbers & _ & _ & Hcomplete).
  - repeat split.
  - unfold bytes_maxsize, sys_maxsize. lia.
  - reflexivity.
  - vm_compute. lia.
  - intros i Hi. destruct i as [| i]; [split; reflexivity | lia].
  - reflexivity.
  - vm_compute. discriminate.
  - split; [exact Hraise | split; [exact Hnumbers | exact Hcomplete]].
Defined.

(** *** Records that the service does not confirm *)

Lemma find_some_exists {A} (p : A -> bool) l x :
  In x l -> p x = true -> exists y, find p l = Some y.
Proof.
  induction l as [| a l IH]; cbn [In find]; [tauto |].
  intros [-> | Hin] Hp.
  - rewrite Hp. eauto.
  - destruct (p a); eauto.
Qed.

Lemma part_verified_entry server_parts lp :
  part_verified server_parts lp = true ->
  exists sp, In sp server_parts /\
             partNumber sp = partNumber lp /\ etag sp = etag lp.
Proof.
  unfold part_verified, server_entry.
  destruct (find _ server_parts) as [sp |] eqn:E; [| discriminate].
  intros Heq. apply find_some in E as [Hin Hn].
  exists sp. repeat split.
  - exact Hin.
  - now apply Z.eqb_eq.
  - now apply String.eqb_eq.
Qed.

Lemma part_not_verified server_parts lp :
  (forall sp, In sp server_parts -> partNumber sp <> partNumber lp) \/
  (exists sp, server_entry server_parts lp = Some sp /\ etag sp <> etag lp) ->
  part_verified server_parts lp = false.
Proof.
  unfold part_verified, server_entry. intros [Hmissing | (sp & -> & Hne)].
  - destruct (find _ server_parts) as [sp |] eqn:E; [| reflexivity].
    apply find_some in E as [Hin Hn]. apply Z.eqb_eq in Hn.
    now destruct (Hmissing sp Hin).
  - now apply String.eqb_neq.
Qed.

(** C4: the file is larger than a slice, its chunks went through and the
    parts are listed.  The records compared are those of the chunks
    pushed, with the digests computed locally.  If one of them has no
    entry of its part number in the server list, or the entry of its part
    number carries another digest, the upload raises the verification
    error and the complete call is never sent.  Conversely the complete
    call is sent only when, for every record, the server list has an
    entry of the same part number and the same digest. *)
Theorem unconfirmed_part_aborts_upload :
  forall remote fuel file parent_id preupload_id slice_size total,
    chunks_uploaded remote file preupload_id slice_size total ->
    slice_size < getsize file ->
    code (on_list_upload_parts remote) = 0 ->
    let server_parts := parts (data (on_list_upload_parts remote)) in
    let records := chunk_records file slice_size 0 (Z.to_nat total) in
    let run := upload_file remote fuel file parent_id start in
    uploaded_chunks (snd run) = records /\
    ((exists lp,
        In lp records /\
        ((forall sp, In sp server_parts -> partNumber sp <> partNumber lp) \/
         (exists sp, server_entry server_parts lp = Some sp /\
                     etag sp <> etag lp))) ->
     (exists lp, In lp records /\
                 fst run = Raise (ChunkVerifyFailed (partNumber lp))) /\
     count is_upload_complete (calls (snd run)) = 0%nat) /\
    (count is_upload_complete (calls (snd run)) <> 0%nat ->
     forall lp, In lp records ->
       exists sp, In sp server_parts /\
                  partNumber sp = partNumber lp /\ etag sp = etag lp).
Proof.
  intros remote fuel file parent_id preupload_id slice_size total
         Hup Hlarge Hc server_parts records run.
  set (st := after_chunks remote file parent_id preupload_id slice_size
                          (Z.to_nat total)).
  assert (Hst : count is_upload_complete
                  (calls (log [ListUploadParts preupload_id] st)) = 0%nat).
  { cbn [log calls]. rewrite count_app. subst st.
    rewrite count_after_chunks by reflexivity. reflexivity. }
  assert (Hrun : run =
    match find (fun lp => negb (part_verified server_parts lp)) records with
    | Some lp => (Raise (ChunkVerifyFailed (partNumber lp)),
                  log [ListUploadParts preupload_id] st)
    | None => finish_upload remote fuel preupload_id
                            (log [ListUploadParts preupload_id] st)
    end).
  { subst run. rewrite (upload_file_after_chunks _ _ _ _ _ _ _ Hup).
    unfold bind. rewrite verify_chunks_listed, verify_parts_run by assumption.
    fold st server_parts. cbn [uploaded_chunks st after_chunks]. fold records.
    destruct (find _ records); reflexivity. }
  rewrite Hrun. clear Hrun.
  destruct (find (fun lp => negb (part_verified server_parts lp)) records)
    as [bad |] eqn:Efind.
  - cbn [fst snd]. split; [reflexivity |]. split.
    + intros _. split; [| exact Hst].
      apply find_some in Efind as [Hin _]. eauto.
    + intros Hcalled. now rewrite Hst in Hcalled.
  - split; [| split].
    + destruct (finish_upload_calls remote fuel preupload_id
                  (log [ListUploadParts preupload_id] st)) as [m ->].
      reflexivity.
    + intros (lp & Hin & Hbad). exfalso.
      apply part_not_verified in Hbad.
      destruct (find_some_exists (fun lp => negb (part_verified server_parts lp))
                                 records lp Hin) as [y Hy].
      * now rewrite Hbad.
      * congruence.
    + intros _ lp Hin. apply part_verified_entry.
      pose proof (find_none _ _ Efind lp Hin) as Hlp. cbn beta in Hlp.
      now destruct (part_verified server_parts lp).
Qed.

Lemma unconfirmed_part_aborts_upload_witness :
  (exists lp,
     In lp (chunk_records ten_bytes 5 0 2) /\
     fst (upload_file remote_corrupted 0 ten_bytes 0 start)
     = Raise (ChunkVerifyFailed (partNumber lp))) /\
  count is_upload_complete
        (calls (snd (upload_file remote_corrupted 0 ten_bytes 0 start))) = 0%nat.
Proof.
  apply (unconfirmed_part_aborts_upload remote_corrupted 0 ten_bytes 0 "tok" 5 2).
  - repeat split. vm_compute. discriminate.
  - reflexivity.
  - reflexivity.
  - exists {| partNumber := 2; etag := "0110fe6f174900eeba48212ea85f5f08" |}.
    split.
    + right. left. vm_compute. reflexivity.
    + right. eexists. split; [vm_compute; reflexivity |].
      vm_compute. discriminate.
Defined.

(** *** When the parts are verified *)

Lemma count_repeat_false p c m :
  p c = false -> count p (repeat c m) = 0%nat.
Proof.
  intros H. unfold count. induction m as [| m IH]; cbn [repeat filter];
    [reflexivity | now rewrite H].
Qed.

Lemma count_finish_upload p remote fuel preupload_id st :
  p (UploadComplete preupload_id) = false ->
  p (UploadAsyncResult preupload_id) = false ->
  count p (calls (snd (finish_upload remote fuel preupload_id st)))
  = count p (calls st).
Proof.
  intros Hc Ha.
  destruct (finish_upload_calls remote fuel preupload_id st) as [m ->].
  cbn [log calls].
  change (UploadComplete preupload_id :: ?l)
    with ([UploadComplete preupload_id] ++ l).
  rewrite !count_app, count_repeat_false by exact Ha.
  unfold count. cbn [filter]. rewrite Hc. cbn [List.length]. lia.
Qed.

(** From the end of step 2 on, the parts are listed once when the file
    is larger than a slice, and not at all otherwise. *)
Lemma listing_after_chunks
      remote fuel file parent_id preupload_id slice_size n :
  count is_list_upload_parts
        (calls (snd ((verify_chunks remote file preupload_id slice_size ;;
                      finish_upload remote fuel preupload_id)
                       (after_chunks remote file parent_id preupload_id
                                     slice_size n))))
  = if slice_size <? getsize file then 1%nat else 0%nat.
Proof.
  set (st := after_chunks remote file parent_id preupload_id slice_size n).
  assert (Hst : count is_list_upload_parts (calls st) = 0%nat)
    by (apply count_after_chunks; reflexivity).
  assert (Hlisted : count is_list_upload_parts
                      (calls (log [ListUploadParts preupload_id] st)) = 1%nat).
  { cbn [log calls]. rewrite count_app, Hst. reflexivity. }
  destruct (slice_size <? getsize file) eqn:E.
  - apply Z.ltb_lt in E.
    destruct (Z.eq_dec (code (on_list_upload_parts remote)) 0) as [Hc | Hc].
    + unfold bind. rewrite verify_chunks_listed, verify_parts_run by assumption.
      destruct (find _ _).
      * exact Hlisted.
      * rewrite count_finish_upload by reflexivity. exact Hlisted.
    + rewrite (bind_raise _ _ _ _ _
                 (verify_chunks_not_listed _ _ _ _ _ E Hc)).
      exact Hlisted.
  - apply Z.ltb_ge in E.
    rewrite (bind_return _ _ _ _ _ (verify_chunks_skipped _ _ _ _ _ E)).
    rewrite count_finish_upload by reflexivity. exact Hst.
Qed.

Lemma ceil_div_above_one s k : 0 < k -> (k < s <-> 1 < ceil_div s k).
Proof.
  intros Hk. unfold ceil_div. split; intros H.
  - assert (2 <= (s + k - 1) / k) by (apply Z.div_le_lower_bound; lia). lia.
  - destruct (Z.le_gt_cases s k) as [Hle | Hgt]; [| exact Hgt].
    assert ((s + k - 1) / k < 2) by (apply Z.div_lt_upper_bound; lia). lia.
Qed.

(** In a session whose chunks all went through, the parts are listed --
    once -- exactly when the file is larger than the slice size, which
    is when [ceil (file_size / slice_size)] exceeds 1; a file of at most
    one slice is completed without any listing.  The count that the code
    computed agrees in one direction only: more than one chunk was
    planned only for a file larger than a slice, and for every such file
    below [2 ^ 53] bytes. *)
Lemma verification_iff_file_exceeds_slice :
  forall remote fuel file parent_id preupload_id slice_size total,
    chunks_uploaded remote file preupload_id slice_size total ->
    let listed :=
      count is_list_upload_parts
            (calls (snd (upload_file remote fuel file parent_id start))) in
    (listed = 1%nat <-> slice_size < getsize file) /\
    (listed = 0%nat <-> getsize file <= slice_size) /\
    (slice_size < getsize file <-> 1 < ceil_div (getsize file) slice_size) /\
    (1 < total -> slice_size < getsize file) /\
    (getsize file < 2 ^ 53 -> slice_size < 2 ^ 1075 ->
     slice_size < getsize file -> 1 < total).
Proof.
  intros remote fuel file parent_id preupload_id slice_size total Hup listed.
  pose proof Hup as (_ & [Hk _] & Htot & _).
  assert (Hs : 0 <= getsize file) by (unfold getsize; lia).
  assert (Hlisted : listed = if slice_size <? getsize file then 1%nat else 0%nat).
  { subst listed.
    now rewrite (upload_file_after_chunks _ _ _ _ _ _ _ Hup), listing_after_chunks. }
  rewrite Hlisted. clear Hlisted listed.
  split; [| split; [| split; [| split]]].
  - destruct (slice_size <? getsize file) eqn:E;
      [apply Z.ltb_lt in E | apply Z.ltb_ge in E]; split; intros; try lia;
      try discriminate; reflexivity.
  - destruct (slice_size <? getsize file) eqn:E;
      [apply Z.ltb_lt in E | apply Z.ltb_ge in E]; split; intros; try lia;
      try discriminate; reflexivity.
  - apply (ceil_div_above_one _ _ Hk).
  - intros Hmany. destruct (Z.le_gt_cases (getsize file) slice_size) as [Hle | Hgt];
      [| exact Hgt].
    pose proof (total_chunks_within_slice _ _ _ (conj Hs Hle) Hk Htot). lia.
  - intros Hs53 Hk1075 Hlarge.
    rewrite total_chunks_exact in Htot by lia. injection Htot as <-.
    apply (proj1 (ceil_div_above_one _ _ Hk)). exact Hlarge.
Qed.

Lemma verification_iff_file_exceeds_slice_witness :
  count is_list_upload_parts
        (calls (snd (upload_file remote_plain 0 ten_bytes 0 start))) = 1%nat.
Proof.
  apply (verification_iff_file_exceeds_slice remote_plain 0 ten_bytes 0 "tok" 4 3).
  - apply (ten_bytes_upload_completes _ (completed_as 7) no_poll eq_refl).
  - reflexivity.
Defined.





(** *** Whole sessions *)

(** After step 2 the session lists the parts or not, completes or not,
    and then only polls. *)
Lemma calls_after_chunks remote fuel file preupload_id slice_size st :
  exists (listed completing : bool) m,
    calls (snd ((verify_chunks remote file preupload_id slice_size ;;
                 finish_upload remote fuel preupload_id) st))
    = calls st
      ++ (if listed then [ListUploadParts preupload_id] else [])
      ++ (if completing
          then UploadComplete preupload_id
               :: repeat (UploadAsyncResult preupload_id) m
          else []).
Proof.
  destruct (slice_size <? getsize file) eqn:E.
  - apply Z.ltb_lt in E.
    destruct (Z.eq_dec (code (on_list_upload_parts remote)) 0) as [Hc | Hc].
    + unfold bind. rewrite verify_chunks_listed, verify_parts_run by assumption.
      destruct (find _ _).
      * exists true, false, 0%nat. reflexivity.
      * destruct (finish_upload_calls remote fuel preupload_id
                    (log [ListUploadParts preupload_id] st)) as [m ->].
        exists true, true, m. cbn [log calls]. now rewrite <- app_assoc.
    + rewrite (bind_raise _ _ _ _ _ (verify_chunks_not_listed _ _ _ _ _ E Hc)).
      exists true, false, 0%nat. reflexivity.
  - apply Z.ltb_ge in E.
    rewrite (bind_return _ _ _ _ _ (verify_chunks_skipped _ _ _ _ _ E)).
    destruct (finish_upload_calls remote fuel preupload_id st) as [m ->].
    exists false, true, m. reflexivity.
Qed.

Lemma filter_repeat_false {A} (p : A -> bool) c m :
  p c = false -> filter p (repeat c m) = [].
Proof.
  intros H. induction m as [| m IH]; cbn [repeat filter];
    [reflexivity | now rewrite H].
Qed.

Lemma filter_chunk_calls remote preupload_id file slice_size n : forall i0,
  filter (fun c => is_get_upload_url c || is_put c)
         (chunk_calls remote preupload_id file slice_size i0 n)
  = chunk_calls remote preupload_id file slice_size i0 n.
Proof.
  unfold chunk_calls, chunk_requests.
  induction n as [| n IH]; intros i0; cbn [seq flat_map app filter];
    [reflexivity |].
  cbn [is_get_upload_url is_put orb]. now rewrite IH.
Qed.

(** The requests of step 2 are all the requests for an upload address and
    all the [PUT]s of a session that gets through it. *)
Lemma chunk_requests_of_session
      remote fuel file parent_id preupload_id slice_size total :
  chunks_uploaded remote file preupload_id slice_size total ->
  filter (fun c => is_get_upload_url c || is_put c)
         (calls (snd (upload_file remote fuel file parent_id start)))
  = chunk_calls remote preupload_id file slice_size 0 (Z.to_nat total).
Proof.
  intros Hup. rewrite (upload_file_after_chunks _ _ _ _ _ _ _ Hup).
  destruct (calls_after_chunks remote fuel file preupload_id slice_size
              (after_chunks remote file parent_id preupload_id slice_size
                            (Z.to_nat total))) as (listed & completing & m & ->).
  cbn [after_chunks calls]. rewrite !filter_app. cbn [filter create_call].
  cbn [is_get_upload_url is_put orb].
  replace (filter _ (if listed then _ else _)) with (@nil Call)
    by (now destruct listed).
  replace (filter _ (if completing then _ else _)) with (@nil Call)
    by (destruct completing; cbn [filter is_get_upload_url is_put orb];
        [now rewrite filter_repeat_false | reflexivity]).
  rewrite !app_nil_r. apply filter_chunk_calls.
Qed.

(** A file without bytes, with a positive slice size: no chunk is
    planned and the session goes from the create call straight to the
    complete call. *)
Lemma empty_file_goes_straight_to_completion
      remote fuel file parent_id preupload_id slice_size :
  chunked_session remote preupload_id slice_size ->
  0 < slice_size ->
  getsize file = 0 ->
  total_chunks (getsize file) slice_size = Return 0 /\
  exists m,
    calls (snd (upload_file remote fuel file parent_id start))
    = create_call file parent_id
      :: UploadComplete preupload_id
      :: repeat (UploadAsyncResult preupload_id) m.
Proof.
  intros Hsession Hk Hempty.
  assert (Htot : total_chunks (getsize file) slice_size = Return 0)
    by (rewrite Hempty; apply total_chunks_empty_file; lia).
  split; [exact Htot |].
  rewrite (upload_file_chunks_accepted
             remote fuel file parent_id preupload_id slice_size 0)
    by (try assumption; try lia; intros i Hi; cbn in Hi; lia).
  assert (Hsmall : getsize file <= slice_size) by lia.
  rewrite (bind_return _ _ _ _ _ (verify_chunks_skipped _ _ _ _ _ Hsmall)).
  destruct (finish_upload_calls remote fuel preupload_id
              (after_chunks remote file parent_id preupload_id slice_size
                            (Z.to_nat 0))) as [m ->].
  exists m. reflexivity.
Qed.

(** The scenario of 10,000,000 bytes in slices of 4,194,304: three
    chunks, pushed under the slice numbers 1, 2 and 3 with the bytes of
    [[0, 4194304)], [[4194304, 8388608)] and [[8388608, 10000000)], and
    the parts are listed. *)
Lemma ten_million_bytes_session remote fuel file parent_id preupload_id :
  getsize file = 10000000 ->
  chunked_session remote preupload_id 4194304 ->
  chunks_accepted remote 3 ->
  total_chunks (getsize file) 4194304 = Return 3 /\
  filter (fun c => is_get_upload_url c || is_put c)
         (calls (snd (upload_file remote fuel file parent_id start)))
  = [ GetUploadUrl preupload_id 1;
      PutChunk (upload_url remote 0) (byte_range (content file) 0 4194304);
      GetUploadUrl preupload_id 2;
      PutChunk (upload_url remote 1) (byte_range (content file) 4194304 8388608);
      GetUploadUrl preupload_id 3;
      PutChunk (upload_url remote 2) (byte_range (content file) 8388608 10000000) ] /\
  count is_list_upload_parts
        (calls (snd (upload_file remote fuel file parent_id start))) = 1%nat.
Proof.
  intros Hsize Hsession Hacc.
  assert (Htot : total_chunks (getsize file) 4194304 = Return 3)
    by (rewrite Hsize; vm_compute; reflexivity).
  assert (Hup : chunks_uploaded remote file preupload_id 4194304 3).
  { repeat split; try assumption; try apply Hsession;
      try (vm_compute; discriminate); apply Hacc; assumption. }
  split; [exact Htot |]. split.
  - rewrite (chunk_requests_of_session _ _ _ _ _ _ _ Hup).
    unfold chunk_calls, chunk_requests, chunk_bytes. rewrite Hsize. reflexivity.
  - rewrite (upload_file_after_chunks _ _ _ _ _ _ _ Hup), listing_after_chunks.
    rewrite Hsize. reflexivity.
Qed.

(** The same in a whole session: the single chunk planned is pushed and
    the parts are listed once. *)
Lemma one_planned_chunk_session
      remote fuel file parent_id preupload_id :
  chunked_session remote preupload_id (2 ^ 53) ->
  getsize file = 2 ^ 53 + 1 ->
  chunks_accepted remote 1 ->
  filter (fun c => is_get_upload_url c || is_put c)
         (calls (snd (upload_file remote fuel file parent_id start)))
  = chunk_calls remote preupload_id file (2 ^ 53) 0 1 /\
  count is_list_upload_parts
        (calls (snd (upload_file remote fuel file parent_id start))) = 1%nat.
Proof.
  intros Hsession Hsize Hacc.
  assert (Hup : chunks_uploaded remote file preupload_id (2 ^ 53) 1).
  { split; [exact Hsession |]. split; [unfold bytes_maxsize, sys_maxsize; lia |].
    split; [rewrite Hsize; vm_compute; reflexivity | exact Hacc]. }
  split.
  - apply (chunk_requests_of_session _ _ _ _ _ _ _ Hup).
  - rewrite (upload_file_after_chunks _ _ _ _ _ _ _ Hup), listing_after_chunks.
    rewrite Hsize. reflexivity.
Qed.

(** *** Completion *)

(** C6: the complete call answers [async = true] and [completed = false],
    the first two polls answer [completed = false] and the third answers
    [completed = true] with the file id 42: the upload returns 42 and has
    polled three times, for every bound of at least three polls on the
    loop. *)
Theorem async_completion_after_three_polls :
  forall remote fuel file parent_id preupload_id slice_size total,
    upload_completes remote file preupload_id slice_size total ->
    async (data (on_upload_complete remote)) = true ->
    completed (data (on_upload_complete remote)) = false ->
    (forall j, (j < 2)%nat ->
       code (on_upload_async_result remote j) = 0 /\
       async_completed (data (on_upload_async_result remote j)) = false) ->
    code (on_upload_async_result remote 2) = 0 ->
    async_completed (data (on_upload_async_result remote 2)) = true ->
    async_fileID (data (on_upload_async_result remote 2)) = 42 ->
    (3 <= fuel)%nat ->
    fst (upload_file remote fuel file parent_id start) = Return 42 /\
    count is_async_result
          (calls (snd (upload_file remote fuel file parent_id start))) = 3%nat.
Proof.
  intros remote fuel file parent_id preupload_id slice_size total
         (Hup & Hv & Hc) Ha _ Hbefore Hc2 Hd2 Hid Hfuel.
  rewrite (upload_file_at_completion _ _ _ _ _ _ _ Hup Hv).
  rewrite finish_upload_async by assumption.
  set (st := log [UploadComplete preupload_id] _).
  assert (Hst : count is_async_result (calls st) = 0%nat).
  { subst st. cbn [log calls]. rewrite !count_app, count_after_chunks by reflexivity.
    now destruct (slice_size <? getsize file). }
  rewrite (wait_async_result_completes remote preupload_id 2);
    rewrite ?Hst; cbn [Nat.add]; auto.
  cbn [fst snd log calls]. rewrite Hid. split; [reflexivity |].
  rewrite count_app, Hst. reflexivity.
Qed.

Lemma async_completion_after_three_polls_witness :
  fst (upload_file remote_async 5 ten_bytes 0 start) = Return 42 /\
  count is_async_result
        (calls (snd (upload_file remote_async 5 ten_bytes 0 start))) = 3%nat.
Proof.
  apply (async_completion_after_three_polls remote_async 5 ten_bytes 0 "tok" 4 3).
  - apply (ten_bytes_upload_completes _ deferred third_poll). reflexivity.
  - reflexivity.
  - reflexivity.
  - intros j Hj. destruct j as [| [| j]]; [split; reflexivity .. | lia].
  - reflexivity.
  - reflexivity.
  - reflexivity.
  - lia.
Defined.

(** Steps 4 and 5 do not look at the answer to the create call. *)
Lemma wait_async_result_create_file_id file_id remote preupload_id fuel :
  forall st,
    wait_async_result (with_create_file_id file_id remote) fuel preupload_id st
    = wait_async_result remote fuel preupload_id st.
Proof.
  induction fuel as [| fuel IH]; intros st; cbn [wait_async_result];
    [reflexivity |].
  unfold bind. rewrite !check_async_result_run.
  cbn [with_create_file_id on_upload_async_result].
  destruct (code _ =? 0); [| reflexivity].
  destruct (async_completed _); [reflexivity | apply IH].
Qed.

Lemma finish_upload_create_file_id file_id remote fuel preupload_id st :
  finish_upload (with_create_file_id file_id remote) fuel preupload_id st
  = finish_upload remote fuel preupload_id st.
Proof.
  unfold finish_upload, complete_upload, bind, send, ret, raise.
  cbn [with_create_file_id on_upload_complete].
  destruct (code _ =? 0); [| reflexivity].
  destruct (async _); [apply wait_async_result_create_file_id | reflexivity].
Qed.

Lemma upload_completes_create_file_id
      file_id remote file preupload_id slice_size total :
  upload_completes remote file preupload_id slice_size total ->
  upload_completes (with_create_file_id file_id remote) file preupload_id
                   slice_size total.
Proof. intros H. exact H. Qed.

(** C10: in a chunked session that reaches a successful complete call,
    the file id returned is the [fileID] of the answer to the complete
    call when that answer has [async = false], and otherwise the [fileID]
    of the first poll that answers [completed = true]; the [fileID] of the
    answer to the create call has no part in it: another value there
    leaves the result unchanged. *)
Theorem returned_file_id_comes_from_completion :
  forall remote file parent_id preupload_id slice_size total,
    upload_completes remote file preupload_id slice_size total ->
    (async (data (on_upload_complete remote)) = false ->
     forall fuel,
       fst (upload_file remote fuel file parent_id start)
       = Return (get (complete_fileID (data (on_upload_complete remote))) 0)) /\
    (async (data (on_upload_complete remote)) = true ->
     forall m,
       (forall j, (j < m)%nat ->
          code (on_upload_async_result remote j) = 0 /\
          async_completed (data (on_upload_async_result remote j)) = false) ->
       code (on_upload_async_result remote m) = 0 ->
       async_completed (data (on_upload_async_result remote m)) = true ->
       forall fuel, (m < fuel)%nat ->
         fst (upload_file remote fuel file parent_id start)
         = Return (async_fileID (data (on_upload_async_result remote m)))) /\
    (forall file_id fuel,
       fst (upload_file (with_create_file_id file_id remote) fuel file
                        parent_id start)
       = fst (upload_file remote fuel file parent_id start)).
Proof.
  intros remote file parent_id preupload_id slice_size total Hall.
  pose proof Hall as (Hup & Hv & Hc).
  split; [| split].
  - intros Ha fuel.
    rewrite (upload_file_at_completion _ _ _ _ _ _ _ Hup Hv).
    now rewrite finish_upload_sync by assumption.
  - intros Ha m Hbefore Hcm Hdm fuel Hfuel.
    rewrite (upload_file_at_completion _ _ _ _ _ _ _ Hup Hv).
    rewrite finish_upload_async by assumption.
    set (st := log [UploadComplete preupload_id] _).
    assert (Hst : count is_async_result (calls st) = 0%nat).
    { subst st. cbn [log calls].
      rewrite !count_app, count_after_chunks by reflexivity.
      now destruct (slice_size <? getsize file). }
    rewrite (wait_async_result_completes remote preupload_id m);
      rewrite ?Hst; cbn [Nat.add]; auto.
  - intros file_id fuel.
    pose proof (upload_completes_create_file_id file_id _ _ _ _ _ Hall)
      as (Hup' & Hv' & _).
    rewrite (upload_file_at_completion _ _ _ _ _ _ _ Hup Hv).
    rewrite (upload_file_at_completion _ _ _ _ _ _ _ Hup' Hv').
    rewrite finish_upload_create_file_id. reflexivity.
Qed.

Lemma returned_file_id_comes_from_completion_witness :
  create_fileID (data (on_create remote_plain)) = Some 5 /\
  fst (upload_file remote_plain 0 ten_bytes 0 start) = Return 7 /\
  fst (upload_file remote_async 3 ten_bytes 0 start) = Return 42 /\
  fst (upload_file (with_create_file_id (Some 11) remote_plain) 0 ten_bytes 0 start)
  = fst (upload_file remote_plain 0 ten_bytes 0 start).
Proof.
  destruct (returned_file_id_comes_from_completion
              remote_plain ten_bytes 0 "tok" 4 3
              (ten_bytes_upload_completes _ (completed_as 7) no_poll eq_refl))
    as (Hsync & _ & Hcreate).
  destruct (returned_file_id_comes_from_completion
              remote_async ten_bytes 0 "tok" 4 3
              (ten_bytes_upload_completes _ deferred third_poll eq_refl))
    as (_ & Hasync & _).
  split; [reflexivity |]. split; [| split].
  - apply Hsync. reflexivity.
  - apply (Hasync eq_refl 2%nat).
    + intros j Hj. destruct j as [| [| j]]; [split; reflexivity .. | lia].
    + reflexivity.
    + reflexivity.
    + lia.
  - apply Hcreate.
Defined.

(** *** An upload address that is refused *)

Lemma for_range_app a b body : forall i st,
  for_range (a + b) i body st
  = (for_range a i body ;; for_range b (i + Z.of_nat a) body) st.
Proof.
  induction a as [| a IH]; intros i st.
  - cbn [Nat.add for_range]. unfold bind, ret. now rewrite Z.add_0_r.
  - cbn [Nat.add for_range]. unfold bind at 1 2 3.
    destruct (body i st) as [[[] | e |] st']; try reflexivity.
    rewrite IH. unfold bind.
    replace (i + 1 + Z.of_nat a) with (i + Z.of_nat (S a)) by lia.
    reflexivity.
Qed.

Lemma count_put_chunk_calls remote preupload_id file slice_size n : forall i0,
  count is_put (chunk_calls remote preupload_id file slice_size i0 n) = n.
Proof.
  unfold chunk_calls, chunk_requests, count.
  induction n as [| n IH]; intros i0; cbn [seq flat_map app filter is_put];
    [reflexivity |].
  cbn [List.length]. now rewrite IH.
Qed.

Section ChunkLoopStops.

Variable remote : Remote.
Variable file : LocalFile.
Variable preupload_id : string.
Variable slice_size : Z.
Hypothesis slice_positive : 0 < slice_size.
Hypothesis slice_readable : slice_size <= bytes_maxsize.

Lemma upload_chunk_no_address i st :
  at_chunk file slice_size i st ->
  code (on_get_upload_url remote (Z.of_nat i + 1)) <> 0 ->
  upload_chunk remote preupload_id slice_size (Z.of_nat i) st =
  (Raise (GetUploadUrlFailed
            (message (on_get_upload_url remote (Z.of_nat i + 1)))),
   {| calls := calls st ++ [GetUploadUrl preupload_id (Z.of_nat i + 1)];
      f_pos := skipn (S i * Z.to_nat slice_size) (content file);
      uploaded_chunks := uploaded_chunks st |}).
Proof.
  intros [Hput Hpos] Hurl. enter_upload_chunk.
  apply Z.eqb_neq in Hurl. rewrite Hurl.
  rewrite Hpos, read_rest by exact slice_positive. reflexivity.
Qed.

(** The state after [n] accepted chunks is the state in which the next
    iteration starts. *)
Lemma at_chunk_after n i0 st :
  at_chunk file slice_size i0 st ->
  at_chunk file slice_size (i0 + n)
    {| calls := calls st
                ++ chunk_calls remote preupload_id file slice_size i0 n;
       f_pos := match n with
                | O => f_pos st
                | S _ => skipn ((i0 + n) * Z.to_nat slice_size) (content file)
                end;
       uploaded_chunks :=
         uploaded_chunks st ++ chunk_records file slice_size i0 n |}.
Proof.
  intros [Hput Hpos]. split; cbn [calls f_pos].
  - rewrite count_app, count_put_chunk_calls, Hput. reflexivity.
  - destruct n; [now rewrite Nat.add_0_r |]. reflexivity.
Qed.

(** The loop ends where its iteration of index [j] raises, the chunks
    before it being accepted. *)
Lemma for_range_raises n j e st st' :
  at_chunk file slice_size 0 st ->
  (j < n)%nat ->
  chunks_accepted remote j ->
  upload_chunk remote preupload_id slice_size (Z.of_nat j)
    {| calls := calls st
                ++ chunk_calls remote preupload_id file slice_size 0 j;
       f_pos := match j with
                | O => f_pos st
                | S _ => skipn ((0 + j) * Z.to_nat slice_size) (content file)
                end;
       uploaded_chunks :=
         uploaded_chunks st ++ chunk_records file slice_size 0 j |}
  = (Raise e, st') ->
  for_range n 0 (upload_chunk remote preupload_id slice_size) st
  = (Raise e, st').
Proof.
  intros Hat Hj Hacc Hstep.
  replace n with (j + S (n - S j))%nat by lia.
  rewrite for_range_app. change 0 with (Z.of_nat 0) at 1.
  rewrite (bind_return _ _ _ _ _
             (for_range_accepted remote file preupload_id slice_size
                slice_positive slice_readable j 0 st Hat
                (fun i Hi => Hacc i (proj2 Hi)))).
  cbn [for_range Z.add]. now rewrite (bind_raise _ _ _ _ _ Hstep).
Qed.

End ChunkLoopStops.

(** The service refuses the upload address of the chunk of index [j] --
    slice number [j + 1] -- after the chunks before it went through: the
    upload raises with the message of the service, nothing is pushed for
    that chunk, and the local list holds the records of the slices
    [1 .. j].  The slice size is one that [f.read] accepts, or no
    address is asked for. *)
Theorem refused_address_aborts_upload :
  forall remote fuel file parent_id preupload_id slice_size total j,
    chunked_session remote preupload_id slice_size ->
    0 < slice_size <= bytes_maxsize ->
    total_chunks (getsize file) slice_size = Return total ->
    (j < Z.to_nat total)%nat ->
    chunks_accepted remote j ->
    code (on_get_upload_url remote (Z.of_nat j + 1)) <> 0 ->
    let run := upload_file remote fuel file parent_id start in
    fst run
    = Raise (GetUploadUrlFailed
               (message (on_get_upload_url remote (Z.of_nat j + 1)))) /\
    calls (snd run)
    = create_call file parent_id
      :: chunk_calls remote preupload_id file slice_size 0 j
      ++ [GetUploadUrl preupload_id (Z.of_nat j + 1)] /\
    count is_put (calls (snd run)) = j /\
    uploaded_chunks (snd run) = chunk_records file slice_size 0 j.
Proof.
  intros remote fuel file parent_id preupload_id slice_size total j
         (Hc & Hr & Hp & Hs) [Hk Hk'] Htot Hj Hacc Hurl run.
  set (st0 := {| calls := [create_call file parent_id];
                 f_pos := content file; uploaded_chunks := [] |}).
  assert (Hat0 : at_chunk file slice_size 0 st0) by (split; reflexivity).
  pose proof (at_chunk_after remote file preupload_id slice_size j 0 st0 Hat0)
    as Hatj.
  pose proof (upload_chunk_no_address remote file preupload_id slice_size
                Hk Hk' j _ Hatj Hurl) as Hstep.
  assert (Hrun : run =
    (Raise (GetUploadUrlFailed
              (message (on_get_upload_url remote (Z.of_nat j + 1)))),
     {| calls := (calls st0
                  ++ chunk_calls remote preupload_id file slice_size 0 j)
                 ++ [GetUploadUrl preupload_id (Z.of_nat j + 1)];
        f_pos := skipn (S j * Z.to_nat slice_size) (content file);
        uploaded_chunks := chunk_records file slice_size 0 j |})).
  { subst run. unfold upload_file.
    rewrite (bind_return _ _ _ _ _ (create_file_succeeds _ _ _ _ _ Hc)).
    rewrite Hr, Hp, Hs.
    erewrite bind_raise; [reflexivity |].
    unfold upload_chunks, lift, bind, uploaded_chunks_new, open, range.
    rewrite Htot.
    apply (for_range_raises remote file preupload_id slice_size Hk Hk'
             (Z.to_nat total) j _ st0 _ Hat0 Hj Hacc Hstep). }
  rewrite Hrun. cbn [fst snd calls uploaded_chunks st0 app].
  repeat split.
  change (create_call file parent_id :: ?l)
    with ([create_call file parent_id] ++ l).
  rewrite !count_app, count_put_chunk_calls.
  unfold count, create_call. cbn [filter is_put List.length]. lia.
Qed.

Lemma refused_address_aborts_upload_witness :
  fst (upload_file remote_second_url_refused 0 ten_bytes 0 start)
  = Raise (GetUploadUrlFailed "refused") /\
  count is_put
        (calls (snd (upload_file remote_second_url_refused 0 ten_bytes 0 start)))
  = 1%nat.
Proof.
  destruct (refused_address_aborts_upload
              remote_second_url_refused 0 ten_bytes 0 "tok" 4 3 1)
    as (Hraise & _ & Hputs & _).
  - repeat split.
  - unfold bytes_maxsize, sys_maxsize. lia.
  - reflexivity.
  - vm_compute. lia.
  - intros i Hi. destruct i as [| i]; [split; reflexivity | lia].
  - vm_compute. discriminate.
  - split; [exact Hraise | exact Hputs].
Defined.

(** *** The other refusals *)

Lemma upload_file_create_refused remote fuel file parent_id :
  code (on_create remote) <> 0 ->
  upload_file remote fuel file parent_id start =
  (Raise (CreateFileFailed (message (on_create remote))),
   {| calls := [create_call file parent_id];
      f_pos := []; uploaded_chunks := [] |}).
Proof.
  intros Hc. apply Z.eqb_neq in Hc.
  unfold upload_file, create_file, bind, send, ret, raise.
  rewrite Hc. reflexivity.
Qed.

(** The service refuses the create call: the upload raises with its
    message after that one request, whatever else the service would have
    answered. *)
Theorem refused_create_aborts_upload :
  forall remote fuel file parent_id,
    code (on_create remote) <> 0 ->
    upload_file remote fuel file parent_id start =
    (Raise (CreateFileFailed (message (on_create remote))),
     {| calls := [create_call file parent_id];
        f_pos := []; uploaded_chunks := [] |}).
Proof.
  intros remote fuel file parent_id. apply upload_file_create_refused.
Qed.

Lemma refused_create_aborts_upload_witness :
  upload_file remote_create_refused 0 ten_bytes 0 start =
  (Raise (CreateFileFailed "refused"),
   {| calls := [create_call ten_bytes 0];
      f_pos := []; uploaded_chunks := [] |}).
Proof.
  apply (refused_create_aborts_upload remote_create_refused 0 ten_bytes 0).
  vm_compute. discriminate.
Defined.

(** The chunks went through, the file is larger than a slice and the
    listing of the parts is refused: the upload raises with the message
    of the service right after the listing, and the complete call is not
    sent although every chunk was accepted. *)
Theorem refused_listing_aborts_upload :
  forall remote fuel file parent_id preupload_id slice_size total,
    chunks_uploaded remote file preupload_id slice_size total ->
    slice_size < getsize file ->
    code (on_list_upload_parts remote) <> 0 ->
    upload_file remote fuel file parent_id start =
    (Raise (ListPartsFailed (message (on_list_upload_parts remote))),
     log [ListUploadParts preupload_id]
         (after_chunks remote file parent_id preupload_id slice_size
                       (Z.to_nat total))) /\
    count is_upload_complete
          (calls (snd (upload_file remote fuel file parent_id start))) = 0%nat.
Proof.
  intros remote fuel file parent_id preupload_id slice_size total
         Hup Hlarge Hc.
  rewrite (upload_file_after_chunks _ _ _ _ _ _ _ Hup).
  rewrite (bind_raise _ _ _ _ _
             (verify_chunks_not_listed _ _ _ _ _ Hlarge Hc)).
  split; [reflexivity |]. cbn [snd log calls].
  rewrite count_app, count_after_chunks by reflexivity. reflexivity.
Qed.

Lemma refused_listing_aborts_upload_witness :
  fst (upload_file remote_list_refused 0 ten_bytes 0 start)
  = Raise (ListPartsFailed "refused") /\
  count is_upload_complete
        (calls (snd (upload_file remote_list_refused 0 ten_bytes 0 start)))
  = 0%nat.
Proof.
  destruct (refused_listing_aborts_upload
              remote_list_refused 0 ten_bytes 0 "tok" 4 3) as [Hrun Hcount].
  - repeat split. vm_compute. discriminate.
  - reflexivity.
  - vm_compute. discriminate.
  - split; [now rewrite Hrun | exact Hcount].
Defined.

(** The session got through step 3 and the complete call is refused: the
    upload raises with the message of the service and never polls. *)
Theorem refused_completion_aborts_upload :
  forall remote fuel file parent_id preupload_id slice_size total,
    chunks_uploaded remote file preupload_id slice_size total ->
    parts_verified remote file slice_size (Z.to_nat total) ->
    code (on_upload_complete remote) <> 0 ->
    let run := upload_file remote fuel file parent_id start in
    fst run
    = Raise (CompleteUploadFailed (message (on_upload_complete remote))) /\
    count is_upload_complete (calls (snd run)) = 1%nat /\
    count is_async_result (calls (snd run)) = 0%nat.
Proof.
  intros remote fuel file parent_id preupload_id slice_size total
         Hup Hv Hc run. subst run.
  rewrite (upload_file_at_completion _ _ _ _ _ _ _ Hup Hv).
  unfold finish_upload, complete_upload, bind, send, ret, raise.
  apply Z.eqb_neq in Hc. rewrite Hc. cbn [fst snd calls log].
  rewrite !count_app, !count_after_chunks by reflexivity.
  destruct (slice_size <? getsize file); repeat split.
Qed.

Lemma refused_completion_aborts_upload_witness :
  fst (upload_file remote_complete_refused 0 ten_bytes 0 start)
  = Raise (CompleteUploadFailed "refused") /\
  count is_async_result
        (calls (snd (upload_file remote_complete_refused 0 ten_bytes 0 start)))
  = 0%nat.
Proof.
  destruct (refused_completion_aborts_upload
              remote_complete_refused 0 ten_bytes 0 "tok" 4 3)
    as (Hraise & _ & Hpolls).
  - repeat split. vm_compute. discriminate.
  - intros _. split; reflexivity.
  - vm_compute. discriminate.
  - split; [exact Hraise | exact Hpolls].
Defined.

(** *** The polling loop *)

Lemma wait_async_result_refused remote preupload_id m : forall fuel st,
  (m < fuel)%nat ->
  (forall j, (j < m)%nat ->
     let r := on_upload_async_result remote (count is_async_result (calls st) + j) in
     code r = 0 /\ async_completed (data r) = false) ->
  code (on_upload_async_result remote (count is_async_result (calls st) + m))
  <> 0 ->
  wait_async_result remote fuel preupload_id st =
  (Raise (AsyncResultFailed
            (message (on_upload_async_result remote
                        (count is_async_result (calls st) + m)))),
   log (repeat (UploadAsyncResult preupload_id) (S m)) st).
Proof.
  induction m as [| m IH]; intros fuel st Hfuel Hbefore Hlast;
    (destruct fuel as [| fuel]; [lia |]); cbn [wait_async_result];
    unfold bind at 1; rewrite check_async_result_run; cbn zeta.
  - rewrite Nat.add_0_r in *. apply Z.eqb_neq in Hlast. now rewrite Hlast.
  - destruct (Hbefore 0%nat ltac:(lia)) as [Hc Hn].
    rewrite Nat.add_0_r in Hc, Hn. rewrite Hc, Hn. cbn [Z.eqb].
    assert (Hcount : count is_async_result
                       (calls (log [UploadAsyncResult preupload_id] st))
                     = S (count is_async_result (calls st))).
    { cbn [log calls]. rewrite count_app. cbn. lia. }
    rewrite IH.
    + rewrite Hcount, log_log. cbn [app repeat].
      now replace (S (count is_async_result (calls st)) + m)%nat
        with (count is_async_result (calls st) + S m)%nat by lia.
    + lia.
    + intros j Hj. rewrite Hcount.
      replace (S (count is_async_result (calls st)) + j)%nat
        with (count is_async_result (calls st) + S j)%nat by lia.
      apply Hbefore. lia.
    + rewrite Hcount.
      now replace (S (count is_async_result (calls st)) + m)%nat
        with (count is_async_result (calls st) + S m)%nat by lia.
Qed.

Lemma count_repeat_true p c m :
  p c = true -> count p (repeat c m) = m.
Proof.
  intros H. unfold count. induction m as [| m IH]; cbn [repeat filter];
    [reflexivity |].
  rewrite H. cbn [List.length]. now rewrite IH.
Qed.

(** As long as the polls answer [completed = false] the loop goes on: it
    uses up any bound, one poll per turn. *)
Lemma wait_async_result_pending remote preupload_id fuel : forall st,
  (forall j, (j < fuel)%nat ->
     let r := on_upload_async_result remote (count is_async_result (calls st) + j) in
     code r = 0 /\ async_completed (data r) = false) ->
  wait_async_result remote fuel preupload_id st =
  (Polling, log (repeat (UploadAsyncResult preupload_id) fuel) st).
Proof.
  induction fuel as [| fuel IH]; intros st Hall; cbn [wait_async_result].
  - cbn [repeat lift]. now rewrite log_nil.
  - unfold bind at 1. rewrite check_async_result_run. cbn zeta.
    destruct (Hall 0%nat ltac:(lia)) as [Hc Hn].
    rewrite Nat.add_0_r in Hc, Hn. rewrite Hc, Hn. cbn [Z.eqb].
    rewrite IH.
    + now rewrite log_log.
    + intros j Hj. cbn [log calls]. rewrite count_app.
      cbn [count filter is_async_result List.length].
      replace (count is_async_result (calls st) + 1 + j)%nat
        with (count is_async_result (calls st) + S j)%nat by lia.
      apply Hall. lia.
Qed.

Lemma count_polls_at_completion remote file parent_id preupload_id slice_size n :
  count is_async_result
    (calls (log [UploadComplete preupload_id]
              (log (if slice_size <? getsize file
                    then [ListUploadParts preupload_id] else [])
                   (after_chunks remote file parent_id preupload_id
                                 slice_size n)))) = 0%nat.
Proof.
  cbn [log calls]. rewrite !count_app, count_after_chunks by reflexivity.
  now destruct (slice_size <? getsize file).
Qed.

(** The completion is deferred, the polls before the rank [m] answer
    [completed = false] and the poll of rank [m] is refused: the upload
    raises with the message of the service after [m + 1] polls, for
    every bound above [m]. *)
Theorem refused_poll_aborts_upload :
  forall remote fuel file parent_id preupload_id slice_size total m,
    upload_completes remote file preupload_id slice_size total ->
    async (data (on_upload_complete remote)) = true ->
    (forall j, (j < m)%nat ->
       code (on_upload_async_result remote j) = 0 /\
       async_completed (data (on_upload_async_result remote j)) = false) ->
    code (on_upload_async_result remote m) <> 0 ->
    (m < fuel)%nat ->
    let run := upload_file remote fuel file parent_id start in
    fst run
    = Raise (AsyncResultFailed (message (on_upload_async_result remote m))) /\
    count is_async_result (calls (snd run)) = S m.
Proof.
  intros remote fuel file parent_id preupload_id slice_size total m
         (Hup & Hv & Hc) Ha Hbefore Hm Hfuel run. subst run.
  rewrite (upload_file_at_completion _ _ _ _ _ _ _ Hup Hv).
  rewrite finish_upload_async by assumption.
  pose proof (count_polls_at_completion remote file parent_id preupload_id
                slice_size (Z.to_nat total)) as Hst.
  rewrite (wait_async_result_refused remote preupload_id m);
    rewrite ?Hst; cbn [Nat.add]; auto.
  cbn [fst snd]. split; [reflexivity |].
  set (st := log [UploadComplete preupload_id] _) in *.
  cbn [log calls]. rewrite count_app, Hst.
  now rewrite count_repeat_true.
Qed.

Lemma refused_poll_aborts_upload_witness :
  fst (upload_file remote_second_poll_refused 5 ten_bytes 0 start)
  = Raise (AsyncResultFailed "refused") /\
  count is_async_result
        (calls (snd (upload_file remote_second_poll_refused 5 ten_bytes 0 start)))
  = 2%nat.
Proof.
  apply (refused_poll_aborts_upload
           remote_second_poll_refused 5 ten_bytes 0 "tok" 4 3 1).
  - repeat split. vm_compute. discriminate.
  - reflexivity.
  - intros j Hj. destruct j as [| j]; [split; reflexivity | lia].
  - vm_compute. discriminate.
  - lia.
Defined.

(** The completion is deferred and no poll ever answers
    [completed = true]: the upload neither returns nor raises.  Whatever
    bound is put on the loop, the run is still polling when the bound is
    used up, one poll per turn: the source has no limit of its own. *)
Theorem deferred_completion_polls_without_end :
  forall remote file parent_id preupload_id slice_size total,
    upload_completes remote file preupload_id slice_size total ->
    async (data (on_upload_complete remote)) = true ->
    (forall j,
       code (on_upload_async_result remote j) = 0 /\
       async_completed (data (on_upload_async_result remote j)) = false) ->
    forall fuel,
      fst (upload_file remote fuel file parent_id start) = Polling /\
      count is_async_result
            (calls (snd (upload_file remote fuel file parent_id start)))
      = fuel.
Proof.
  intros remote file parent_id preupload_id slice_size total
         (Hup & Hv & Hc) Ha Hall fuel.
  rewrite (upload_file_at_completion _ _ _ _ _ _ _ Hup Hv).
  rewrite finish_upload_async by assumption.
  pose proof (count_polls_at_completion remote file parent_id preupload_id
                slice_size (Z.to_nat total)) as Hst.
  rewrite wait_async_result_pending by (intros j _; apply Hall).
  cbn [fst snd]. split; [reflexivity |].
  set (st := log [UploadComplete preupload_id] _) in *.
  cbn [log calls]. rewrite count_app, Hst.
  now rewrite count_repeat_true.
Qed.

Lemma deferred_completion_polls_without_end_witness :
  fst (upload_file remote_never_completed 1000 ten_bytes 0 start) = Polling /\
  count is_async_result
        (calls (snd (upload_file remote_never_completed 1000 ten_bytes 0 start)))
  = 1000%nat.
Proof.
  apply (deferred_completion_polls_without_end
           remote_never_completed ten_bytes 0 "tok" 4 3).
  - apply (ten_bytes_upload_completes _ deferred no_poll eq_refl).
  - reflexivity.
  - intros j. split; reflexivity.
Defined.

(** *** The [completed] field of the complete call *)

Lemma finish_upload_completed b remote fuel preupload_id st :
  finish_upload (with_completed b remote) fuel preupload_id st
  = finish_upload remote fuel preupload_id st.
Proof.
  unfold finish_upload, complete_upload, bind, send, ret, raise.
  cbn [with_completed on_upload_complete code message data complete_fileID
       async].
  destruct (code _ =? 0); reflexivity.
Qed.

(** [upload_file] binds the [completed] field of the answer to the
    complete call and never reads it: whatever the service puts there,
    the run is the same -- same requests, same result.  An answer with
    [async = false] and [completed = false] is returned as a success. *)
Theorem completed_field_is_ignored :
  forall b remote fuel file parent_id,
    upload_file (with_completed b remote) fuel file parent_id start
    = upload_file remote fuel file parent_id start.
Proof.
  intros b remote fuel file parent_id. unfold upload_file, bind.
  change (create_file (with_completed b remote)) with (create_file remote).
  destruct (create_file remote (basename file) file parent_id start)
    as [[[[[token file_id] is_reuse] slice_size] | e |] st]; try reflexivity.
  destruct is_reuse; [reflexivity |].
  change (upload_chunks (with_completed b remote))
    with (upload_chunks remote).
  change (verify_chunks (with_completed b remote))
    with (verify_chunks remote).
  destruct (upload_chunks remote file token slice_size st)
    as [[[] | e |] st1]; try reflexivity.
  destruct (verify_chunks remote file token slice_size st1)
    as [[[] | e |] st2]; try reflexivity.
  apply finish_upload_completed.
Qed.

(** *** A negative slice size *)

Lemma round_half_even_nonneg n d :
  0 <= n -> 0 < d -> 0 <= PyFloat.round_half_even n d.
Proof.
  intros Hn Hd. pose proof (round_half_even_range n d Hd).
  pose proof (Z.div_pos n d Hn Hd). lia.
Qed.

(** With a negative divisor the quotient is not positive, and neither is
    the chunk count. *)
Lemma total_chunks_negative_slice file_size slice_size total :
  0 <= file_size -> slice_size < 0 ->
  total_chunks file_size slice_size = Return total -> total <= 0.
Proof.
  intros Hs Hk. unfold total_chunks, PyFloat.true_divide.
  destruct (slice_size =? 0) eqn:Ek; [apply Z.eqb_eq in Ek; lia |].
  destruct (file_size =? 0) eqn:Ef.
  - intros [= <-]. reflexivity.
  - apply Z.eqb_neq in Ef.
    replace (file_size <? 0) with false by (symmetry; apply Z.ltb_ge; lia).
    replace (slice_size <? 0) with true by (symmetry; apply Z.ltb_lt; lia).
    cbn [Bool.eqb]. unfold PyFloat.divide_pos.
    set (e := PyFloat.ulp_exp _ _).
    set (m := if 0 <=? e then _ else _).
    assert (Hm : 0 <= m).
    { subst m. destruct (0 <=? e) eqn:E0.
      - apply Z.leb_le in E0. apply round_half_even_nonneg; [lia |].
        apply Z.mul_pos_pos; [lia | apply Z.pow_pos_nonneg; lia].
      - apply round_half_even_nonneg; [| lia].
        apply Z.mul_nonneg_nonneg; [lia | apply Z.pow_nonneg; lia]. }
    destruct (_ || _); cbn [PyFloat.fneg]; [discriminate |].
    intros [= <-]. unfold PyFloat.ceil. cbn [PyFloat.mant PyFloat.expo].
    destruct (0 <=? e) eqn:E0.
    + apply Z.leb_le in E0. pose proof (Z.pow_nonneg 2 e ltac:(lia)). nia.
    + apply Z.leb_gt in E0. rewrite Z.opp_involutive.
      assert (0 < 2 ^ (- e)) by (apply Z.pow_pos_nonneg; lia).
      pose proof (Z.div_pos m (2 ^ (- e)) Hm ltac:(lia)). lia.
Qed.

(** The create call answers success with a negative slice size, which
    [upload_file] does not refuse.  No chunk is planned: nothing is
    read, no address is asked for and nothing is pushed.  The file size
    exceeds the slice size, so the parts are listed, and with no local
    record to compare the verification passes: when the complete call
    succeeds at once the upload returns its file id although not one
    byte of the file was sent. *)
Theorem negative_slice_size_pushes_nothing :
  forall remote fuel file parent_id preupload_id slice_size total,
    chunked_session remote preupload_id slice_size ->
    slice_size < 0 ->
    total_chunks (getsize file) slice_size = Return total ->
    code (on_list_upload_parts remote) = 0 ->
    code (on_upload_complete remote) = 0 ->
    async (data (on_upload_complete remote)) = false ->
    upload_file remote fuel file parent_id start =
    (Return (get (complete_fileID (data (on_upload_complete remote))) 0),
     {| calls := [create_call file parent_id;
                  ListUploadParts preupload_id;
                  UploadComplete preupload_id];
        f_pos := content file;
        uploaded_chunks := [] |}).
Proof.
  intros remote fuel file parent_id preupload_id slice_size total
         (Hc & Hr & Hp & Hs) Hk Htot Hlist Hcomplete Hasync.
  assert (Hsize : 0 <= getsize file) by (unfold getsize; lia).
  pose proof (total_chunks_negative_slice _ _ _ Hsize Hk Htot) as Hnone.
  unfold upload_file.
  rewrite (bind_return _ _ _ _ _ (create_file_succeeds _ _ _ _ _ Hc)).
  rewrite Hr, Hp, Hs.
  assert (Hchunks :
    upload_chunks remote file preupload_id slice_size
      {| calls := calls start ++ [create_call file parent_id];
         f_pos := f_pos start; uploaded_chunks := uploaded_chunks start |}
    = (Return tt,
       {| calls := [create_call file parent_id];
          f_pos := content file; uploaded_chunks := [] |})).
  { unfold upload_chunks, lift, bind, uploaded_chunks_new, open, range.
    rewrite Htot. replace (Z.to_nat total) with 0%nat by lia. reflexivity. }
  rewrite (bind_return _ _ _ _ _ Hchunks).
  unfold bind at 1.
  rewrite verify_chunks_listed, verify_parts_run by (assumption || lia).
  cbn [uploaded_chunks find].
  now rewrite finish_upload_sync by assumption.
Qed.

Lemma negative_slice_size_pushes_nothing_witness :
  upload_file remote_negative_slice 0 ten_bytes 0 start =
  (Return 7,
   {| calls := [create_call ten_bytes 0; ListUploadParts "tok";
                UploadComplete "tok"];
      f_pos := content ten_bytes;
      uploaded_chunks := [] |}).
Proof.
  apply (negative_slice_size_pushes_nothing
           remote_negative_slice 0 ten_bytes 0 "tok" (-4) (-2)).
  - repeat split.
  - lia.
  - vm_compute. reflexivity.
  - reflexivity.
  - reflexivity.
  - reflexivity.
Defined.

(** *** What every log shows *)

Lemma put_bodies_app cs cs' :
  put_bodies (cs ++ cs') = put_bodies cs ++ put_bodies cs'.
Proof. apply flat_map_app. Qed.

Lemma upload_url_requests_app cs cs' :
  upload_url_requests (cs ++ cs')
  = upload_url_requests cs ++ upload_url_requests cs'.
Proof. apply flat_map_app. Qed.

Lemma put_bodies_length cs : List.length (put_bodies cs) = count is_put cs.
Proof.
  unfold put_bodies, count.
  induction cs as [| c cs IH]; cbn [flat_map filter]; [reflexivity |].
  destruct c; cbn [is_put app List.length]; now rewrite ?IH.
Qed.

Lemma slice_numbers_S n :
  slice_numbers (S n) = slice_numbers n ++ [Z.of_nat n + 1].
Proof. unfold slice_numbers. now rewrite seq_S, map_app. Qed.

Lemma slice_numbers_length n : List.length (slice_numbers n) = n.
Proof. unfold slice_numbers. now rewrite length_map, length_seq. Qed.

(** One iteration of the loop of step 2, in any state and whatever the
    service answers. *)
Lemma upload_chunk_run remote preupload_id slice_size i st :
  upload_chunk remote preupload_id slice_size i st =
  let chunk := fst (read slice_size (f_pos st)) in
  let rest := snd (read slice_size (f_pos st)) in
  let address := on_get_upload_url remote (i + 1) in
  let response := on_put remote (count is_put (calls st)) in
  match read_raises slice_size with
  | Some e => (Raise e, st)
  | None =>
      if code address =? 0 then
        if status_code response =? 200 then
          (Return tt,
           {| calls := calls st
                       ++ [GetUploadUrl preupload_id (i + 1);
                           PutChunk (presignedURL (data address)) chunk];
              f_pos := rest;
              uploaded_chunks :=
                uploaded_chunks st
                ++ [{| partNumber := i + 1;
                       etag := calculate_chunk_md5 chunk |}] |})
        else
          (Raise (ChunkUploadFailed (i + 1) (text response)),
           {| calls := calls st
                       ++ [GetUploadUrl preupload_id (i + 1);
                           PutChunk (presignedURL (data address)) chunk];
              f_pos := rest;
              uploaded_chunks := uploaded_chunks st |})
      else
        (Raise (GetUploadUrlFailed (message address)),
         {| calls := calls st ++ [GetUploadUrl preupload_id (i + 1)];
            f_pos := rest;
            uploaded_chunks := uploaded_chunks st |})
  end.
Proof.
  unfold upload_chunk, get_upload_url, requests_put, f_read, sent, send,
    uploaded_chunks_append, bind, ret, raise.
  destruct (read_raises slice_size); [reflexivity |].
  cbn [calls f_pos uploaded_chunks]. cbn zeta.
  destruct (code _ =? 0); [| reflexivity].
  cbn [calls f_pos uploaded_chunks]. rewrite count_app.
  cbn [count filter is_put List.length]. rewrite Nat.add_0_r.
  destruct (status_code _ =? 200); cbn [negb calls f_pos uploaded_chunks];
    now rewrite <- app_assoc.
Qed.

Lemma pushed_in_order_log_ok file token m st :
  pushed_in_order file token m st -> session_log_ok file token st.
Proof.
  intros (Hurls & Hputs & Hnumbers & Hetags & Hbytes).
  exists m, m, m. repeat split; try lia; try assumption.
  - now rewrite put_bodies_length.
  - rewrite firstn_all2; [assumption |]. rewrite put_bodies_length. lia.
  - eauto.
Qed.

Section EveryIteration.

Variable remote : Remote.
Variable file : LocalFile.
Variable token : string.
Variable slice_size : Z.

(** An iteration adds requests of step 2 only; it passes the state on in
    order, or it raises and leaves a state that is still well-formed. *)
Lemma upload_chunk_log m st :
  pushed_in_order file token m st ->
  exists extra,
    calls (snd (upload_chunk remote token slice_size (Z.of_nat m) st))
    = calls st ++ extra /\
    forallb is_chunk_call extra = true /\
    match fst (upload_chunk remote token slice_size (Z.of_nat m) st) with
    | Return _ =>
        pushed_in_order file token (S m)
          (snd (upload_chunk remote token slice_size (Z.of_nat m) st))
    | Raise _ =>
        session_log_ok file token
          (snd (upload_chunk remote token slice_size (Z.of_nat m) st))
    | Polling => False
    end.
Proof.
  intros (Hurls & Hputs & Hnumbers & Hetags & Hbytes).
  pose proof (read_fst_snd slice_size (f_pos st)) as Hread.
  rewrite upload_chunk_run. cbn zeta.
  destruct (read_raises slice_size) as [e |].
  { exists []. cbn [fst snd]. rewrite app_nil_r.
    split; [reflexivity |]. split; [reflexivity |].
    apply (pushed_in_order_log_ok file token m).
    repeat split; assumption. }
  destruct (code _ =? 0).
  - destruct (status_code _ =? 200); cbn [fst snd];
      (eexists; split; [reflexivity |]; split; [reflexivity |]).
    + unfold pushed_in_order. cbn [calls f_pos uploaded_chunks].
      rewrite upload_url_requests_app, put_bodies_app, count_app, !map_app,
        concat_app, slice_numbers_S, map_app, Hurls, Hputs, Hnumbers, Hetags.
      cbn. rewrite app_nil_r, <- app_assoc, Hread.
      repeat split; try assumption; lia.
    + exists m, (S m), (S m). cbn [calls f_pos uploaded_chunks].
      rewrite upload_url_requests_app, put_bodies_app, length_app,
        concat_app, slice_numbers_S, map_app, Hurls, put_bodies_length, Hputs.
      cbn. rewrite app_nil_r.
      repeat split; try lia; try assumption.
      * rewrite firstn_app, firstn_all2
          by (rewrite put_bodies_length; lia).
        rewrite put_bodies_length, Hputs, Nat.sub_diag. cbn [firstn].
        now rewrite app_nil_r.
      * exists (snd (read slice_size (f_pos st))).
        now rewrite <- app_assoc, Hread.
  - cbn [fst snd]. eexists. split; [reflexivity |]. split; [reflexivity |].
    exists m, m, (S m). cbn [calls f_pos uploaded_chunks].
    rewrite upload_url_requests_app, put_bodies_app, slice_numbers_S, map_app,
      Hurls.
    cbn. rewrite !app_nil_r, put_bodies_length.
    repeat split; try lia; try assumption.
    + rewrite firstn_all2; [assumption |]. rewrite put_bodies_length. lia.
    + eauto.
Qed.

Lemma for_range_log n : forall m st,
  pushed_in_order file token m st ->
  exists extra,
    calls (snd (for_range n (Z.of_nat m)
                  (upload_chunk remote token slice_size) st))
    = calls st ++ extra /\
    forallb is_chunk_call extra = true /\
    match fst (for_range n (Z.of_nat m)
                 (upload_chunk remote token slice_size) st) with
    | Return _ =>
        pushed_in_order file token (m + n)
          (snd (for_range n (Z.of_nat m)
                  (upload_chunk remote token slice_size) st))
    | Raise _ =>
        session_log_ok file token
          (snd (for_range n (Z.of_nat m)
                  (upload_chunk remote token slice_size) st))
    | Polling => False
    end.
Proof.
  induction n as [| n IH]; intros m st Hst; cbn [for_range].
  - exists []. cbn [ret fst snd]. rewrite app_nil_r, Nat.add_0_r. auto.
  - destruct (upload_chunk_log m st Hst) as (extra & Hcalls & Hextra & Hnext).
    unfold bind.
    destruct (upload_chunk remote token slice_size (Z.of_nat m) st)
      as [[[] | e |] st1]; cbn [fst snd] in *.
    + replace (Z.of_nat m + 1) with (Z.of_nat (S m)) by lia.
      destruct (IH (S m) st1 Hnext) as (extra' & Hcalls' & Hextra' & Hend).
      exists (extra ++ extra'). rewrite Hcalls', Hcalls, app_assoc.
      split; [reflexivity |]. split.
      * rewrite forallb_app, Hextra, Hextra'. reflexivity.
      * now replace (m + S n)%nat with (S m + n)%nat by lia.
    + exists extra. auto.
    + contradiction.
Qed.

End EveryIteration.

(** The requests that follow step 2. *)
Lemma state_after_step_2 remote fuel file preupload_id slice_size st :
  exists (listed completing : bool) m,
    snd ((verify_chunks remote file preupload_id slice_size ;;
          finish_upload remote fuel preupload_id) st)
    = log ((if listed then [ListUploadParts preupload_id] else [])
           ++ (if completing
               then UploadComplete preupload_id
                    :: repeat (UploadAsyncResult preupload_id) m
               else []))
          st.
Proof.
  destruct (slice_size <? getsize file) eqn:E.
  - apply Z.ltb_lt in E.
    destruct (Z.eq_dec (code (on_list_upload_parts remote)) 0) as [Hc | Hc].
    + unfold bind. rewrite verify_chunks_listed, verify_parts_run by assumption.
      destruct (find _ _).
      * exists true, false, 0%nat. reflexivity.
      * destruct (finish_upload_calls remote fuel preupload_id
                    (log [ListUploadParts preupload_id] st)) as [m ->].
        exists true, true, m. now rewrite log_log.
    + rewrite (bind_raise _ _ _ _ _ (verify_chunks_not_listed _ _ _ _ _ E Hc)).
      exists true, false, 0%nat. reflexivity.
  - apply Z.ltb_ge in E.
    rewrite (bind_return _ _ _ _ _ (verify_chunks_skipped _ _ _ _ _ E)).
    destruct (finish_upload_calls remote fuel preupload_id st) as [m ->].
    exists false, true, m. reflexivity.
Qed.

Lemma no_chunk_call_after_step_2 preupload_id (listed completing : bool) m :
  put_bodies
    ((if listed then [ListUploadParts preupload_id] else [])
     ++ (if completing
         then UploadComplete preupload_id
              :: repeat (UploadAsyncResult preupload_id) m
         else [])) = [] /\
  upload_url_requests
    ((if listed then [ListUploadParts preupload_id] else [])
     ++ (if completing
         then UploadComplete preupload_id
              :: repeat (UploadAsyncResult preupload_id) m
         else [])) = [].
Proof.
  rewrite put_bodies_app, upload_url_requests_app.
  assert (put_bodies (repeat (UploadAsyncResult preupload_id) m) = [] /\
          upload_url_requests (repeat (UploadAsyncResult preupload_id) m) = [])
    as [Hb Hu] by (induction m; split; cbn; tauto).
  unfold put_bodies, upload_url_requests in *.
  destruct listed, completing; cbn [flat_map app]; rewrite ?Hb, ?Hu;
    split; reflexivity.
Qed.

Lemma session_log_ok_log file token extra st :
  put_bodies extra = [] -> upload_url_requests extra = [] ->
  session_log_ok file token st -> session_log_ok file token (log extra st).
Proof.
  intros Hb Hu (r & b & u & Hle & Hle' & Hurls & Hlen & Hnum & Hetag & Hrest).
  exists r, b, u. cbn [log calls uploaded_chunks].
  rewrite put_bodies_app, upload_url_requests_app, Hb, Hu, !app_nil_r.
  repeat split; try lia; assumption.
Qed.

Lemma session_log_ok_created file token parent_id f :
  session_log_ok file token
    {| calls := [create_call file parent_id];
       f_pos := f; uploaded_chunks := [] |}.
Proof.
  exists 0%nat, 0%nat, 0%nat. repeat split; try lia; try reflexivity.
  exists (content file). reflexivity.
Qed.

(** Every run, whatever the service answers: the log is the create call,
    then requests of step 2 only, then at most the listing, then at most
    the complete call and polls; and the state is well-formed. *)
Lemma upload_file_log remote fuel file parent_id :
  let token := get (preuploadID (data (on_create remote))) ""%string in
  let run := upload_file remote fuel file parent_id start in
  session_log_ok file token (snd run) /\
  exists chunk_part (listed completing : bool) m,
    forallb is_chunk_call chunk_part = true /\
    calls (snd run)
    = create_call file parent_id
      :: chunk_part
      ++ (if listed then [ListUploadParts token] else [])
      ++ (if completing
          then UploadComplete token :: repeat (UploadAsyncResult token) m
          else []).
Proof.
  intros token run.
  set (P := fun r : Outcome Z * State =>
    session_log_ok file token (snd r) /\
    exists chunk_part (listed completing : bool) m,
      forallb is_chunk_call chunk_part = true /\
      calls (snd r)
      = create_call file parent_id
        :: chunk_part
        ++ (if listed then [ListUploadParts token] else [])
        ++ (if completing
            then UploadComplete token :: repeat (UploadAsyncResult token) m
            else [])).
  change (P run). subst run.
  assert (Hstop : forall o f,
    P (o, {| calls := [create_call file parent_id];
             f_pos := f; uploaded_chunks := [] |})).
  { intros o f. split; [apply session_log_ok_created |].
    exists [], false, false, 0%nat. split; reflexivity. }
  destruct (Z.eq_dec (code (on_create remote)) 0) as [Hc | Hc];
    [| rewrite upload_file_create_refused by exact Hc; apply Hstop].
  unfold upload_file.
  rewrite (bind_return _ _ _ _ _ (create_file_succeeds _ _ _ _ _ Hc)).
  fold token. cbn [calls f_pos uploaded_chunks start app].
  destruct (get (reuse (data (on_create remote))) false);
    [exact (Hstop _ _) |].
  set (slice_size := get (sliceSize (data (on_create remote))) 0).
  unfold upload_chunks, lift, uploaded_chunks_new, open, range, bind.
  destruct (total_chunks (getsize file) slice_size) as [total | e |];
    [| exact (Hstop _ _) | exact (Hstop _ _)].
  cbn [calls f_pos uploaded_chunks].
  set (st0 := {| calls := _; f_pos := content file; uploaded_chunks := [] |}).
  assert (Hst0 : pushed_in_order file token 0 st0) by (repeat split).
  destruct (for_range_log remote file token slice_size (Z.to_nat total) 0 st0 Hst0)
    as (extra & Hcalls & Hextra & Hend).
  change (Z.of_nat 0) with 0 in *.
  destruct (for_range (Z.to_nat total) 0
              (upload_chunk remote token slice_size) st0)
    as [[[] | e |] st1]; cbn [fst snd] in *; [| | contradiction].
  - destruct (state_after_step_2 remote fuel file token slice_size st1)
      as (listed & completing & m & Hstate).
    unfold bind in Hstate.
    destruct (no_chunk_call_after_step_2 token listed completing m) as [Hb Hu].
    split; rewrite Hstate.
    + apply session_log_ok_log; try assumption.
      now apply (pushed_in_order_log_ok _ _ (0 + Z.to_nat total)).
    + exists extra, listed, completing, m. split; [exact Hextra |].
      cbn [log calls]. rewrite Hcalls. cbn [st0 calls app].
      reflexivity.
  - split; [exact Hend |].
    exists extra, false, false, 0%nat. split; [exact Hextra |].
    cbn [snd]. rewrite Hcalls. cbn [st0 calls app]. now rewrite !app_nil_r.
Qed.

(** The bytes pushed by a run, in the order of the [PUT]s, are a prefix
    of the content of the file, whatever the service answers and wherever
    the run stops: nothing is pushed twice, out of order, or that is not
    in the file. *)
Theorem pushed_bytes_are_a_prefix_of_the_file :
  forall remote fuel file parent_id,
  exists rest,
    List.concat
      (put_bodies (calls (snd (upload_file remote fuel file parent_id start))))
    ++ rest = content file.
Proof.
  intros remote fuel file parent_id.
  destruct (upload_file_log remote fuel file parent_id)
    as [(r & b & u & _ & _ & _ & _ & _ & _ & Hrest) _].
  exact Hrest.
Qed.

(** In the state a run ends with, the local records are numbered
    [1, 2, ...] without gap, the record of number [k] carries the MD5
    digest of the body of the [k]-th [PUT], and at most the last [PUT]
    has no record: a record is never made for bytes that were not
    pushed, nor with the digest of other bytes. *)
Theorem records_are_digests_of_pushed_chunks :
  forall remote fuel file parent_id,
    let st := snd (upload_file remote fuel file parent_id start) in
    let r := List.length (uploaded_chunks st) in
    map partNumber (uploaded_chunks st) = slice_numbers r /\
    map etag (uploaded_chunks st)
    = map calculate_chunk_md5 (firstn r (put_bodies (calls st))) /\
    (r <= count is_put (calls st) <= S r)%nat.
Proof.
  intros remote fuel file parent_id st r.
  destruct (upload_file_log remote fuel file parent_id)
    as [(r' & b & u & Hle & Hle' & _ & Hlen & Hnum & Hetag & _) _].
  fold st in Hlen, Hnum, Hetag.
  assert (Hr : r = r').
  { subst r. rewrite <- (length_map partNumber), Hnum.
    apply slice_numbers_length. }
  rewrite Hr, <- put_bodies_length, Hlen. repeat split; try assumption; lia.
Qed.

(** The upload addresses are asked for the slice numbers [1, 2, ..., u]
    in this order, each once and all under the token of the answer to
    the create call; every [PUT] comes after the request of its address
    and at most the last address asked for is not used. *)
Theorem upload_addresses_follow_slice_order :
  forall remote fuel file parent_id,
    let st := snd (upload_file remote fuel file parent_id start) in
    exists u,
      upload_url_requests (calls st)
      = map (pair (get (preuploadID (data (on_create remote))) ""%string))
            (slice_numbers u) /\
      (count is_put (calls st) <= u <= S (count is_put (calls st)))%nat.
Proof.
  intros remote fuel file parent_id st.
  destruct (upload_file_log remote fuel file parent_id)
    as [(r & b & u & Hle & Hle' & Hurls & Hlen & _) _].
  fold st in Hurls, Hlen. exists u. split; [exact Hurls |].
  rewrite <- put_bodies_length, Hlen. lia.
Qed.

(** The requests of every run are in the order of the protocol: the
    create call first and only once, then requests for an address and
    [PUT]s only, then at most one listing of the parts, then at most one
    complete call followed by polls only.  No chunk is pushed after the
    listing or the complete call, and nothing is polled before the
    complete call. *)
Theorem requests_follow_the_protocol_order :
  forall remote fuel file parent_id,
    let token := get (preuploadID (data (on_create remote))) ""%string in
    exists chunk_part (listed completing : bool) polls,
      forallb is_chunk_call chunk_part = true /\
      calls (snd (upload_file remote fuel file parent_id start))
      = create_call file parent_id
        :: chunk_part
        ++ (if listed then [ListUploadParts token] else [])
        ++ (if completing
            then UploadComplete token
                 :: repeat (UploadAsyncResult token) polls
            else []).
Proof.
  intros remote fuel file parent_id token.
  exact (proj2 (upload_file_log remote fuel file parent_id)).
Qed.

(** *** A session that pushes the whole file *)

Lemma put_bodies_chunk_calls remote preupload_id file slice_size n : forall i0,
  put_bodies (chunk_calls remote preupload_id file slice_size i0 n)
  = map (chunk_bytes file slice_size) (seq i0 n).
Proof.
  unfold put_bodies, chunk_calls, chunk_requests.
  induction n as [| n IH]; intros i0; cbn [seq flat_map map app];
    [reflexivity |].
  now rewrite IH.
Qed.

Lemma put_bodies_filter cs :
  put_bodies (filter (fun c => is_get_upload_url c || is_put c) cs)
  = put_bodies cs.
Proof.
  unfold put_bodies.
  induction cs as [| c cs IH]; cbn [filter flat_map]; [reflexivity |].
  destruct c; cbn [is_get_upload_url is_put orb flat_map app];
    now rewrite IH.
Qed.

(** Every chunk of a file below [2 ^ 53] bytes is accepted, the slice
    size being one that [f.read] accepts ([0 < slice_size <=
    bytes_maxsize], which [chunks_uploaded] holds): the bodies of the
    [PUT]s, in order, are the content of the file, in
    [ceil (file_size / slice_size)] requests -- whether or not the later
    steps succeed.  Above that slice size the first read raises and
    nothing is pushed ([unreadable_slice_size_pushes_nothing]). *)
Theorem accepted_chunks_carry_the_whole_file :
  forall remote fuel file parent_id preupload_id slice_size total,
    chunks_uploaded remote file preupload_id slice_size total ->
    getsize file < 2 ^ 53 ->
    let st := snd (upload_file remote fuel file parent_id start) in
    List.concat (put_bodies (calls st)) = content file /\
    Z.of_nat (count is_put (calls st)) = ceil_div (getsize file) slice_size.
Proof.
  intros remote fuel file parent_id preupload_id slice_size total Hup
         Hs st.
  pose proof Hup as (_ & [Hpos Hk] & Htot & _).
  assert (Hsize : 0 <= getsize file) by (unfold getsize; lia).
  assert (Hk' : slice_size < 2 ^ 1075).
  { apply Z.le_lt_trans with (1 := Hk). vm_compute. reflexivity. }
  rewrite total_chunks_exact in Htot by lia. injection Htot as Htotal.
  assert (Hceil : 0 <= ceil_div (getsize file) slice_size)
    by (unfold ceil_div; apply Z.div_pos; lia).
  assert (Hbodies : put_bodies (calls st)
                    = map (chunk_bytes file slice_size)
                          (seq 0 (Z.to_nat total))).
  { subst st. rewrite <- put_bodies_filter.
    rewrite (chunk_requests_of_session _ _ _ _ _ _ _ Hup).
    apply put_bodies_chunk_calls. }
  split.
  - rewrite Hbodies. apply chunks_cover_content; lia.
  - rewrite <- put_bodies_length, Hbodies, length_map, length_seq. lia.
Qed.

Lemma accepted_chunks_carry_the_whole_file_witness :
  List.concat
    (put_bodies (calls (snd (upload_file remote_plain 0 ten_bytes 0 start))))
  = content ten_bytes.
Proof.
  apply (accepted_chunks_carry_the_whole_file
           remote_plain 0 ten_bytes 0 "tok" 4 3).
  - apply (ten_bytes_upload_completes _ (completed_as 7) no_poll eq_refl).
  - reflexivity.
Defined.

(** *** A slice size that [f.read] refuses *)

Lemma read_raises_overflow n :
  bytes_maxsize < n -> read_raises n = Some OverflowError.
Proof.
  unfold read_raises, bytes_maxsize, sys_maxsize. intros Hn.
  replace (n <? - (2 ^ 63 - 1) - 1) with false by (symmetry; apply Z.ltb_ge; lia).
  replace (n <? -1) with false by (symmetry; apply Z.ltb_ge; lia).
  replace (2 ^ 63 - 1 - 33 <? n) with true by (symmetry; apply Z.ltb_lt; lia).
  cbn [orb]. now destruct (2 ^ 63 - 1 <? n).
Qed.

(** The create call answers success with a slice size above the largest
    [bytes] object, which [upload_file] does not refuse.  When a chunk is
    planned, the first [f.read(slice_size)] raises [OverflowError]: the
    upload ends right after the create call, before any address is asked
    for, and nothing is pushed. *)
Theorem unreadable_slice_size_pushes_nothing :
  forall remote fuel file parent_id preupload_id slice_size total,
    chunked_session remote preupload_id slice_size ->
    bytes_maxsize < slice_size ->
    total_chunks (getsize file) slice_size = Return total ->
    0 < total ->
    upload_file remote fuel file parent_id start =
    (Raise OverflowError,
     {| calls := [create_call file parent_id];
        f_pos := content file;
        uploaded_chunks := [] |}).
Proof.
  intros remote fuel file parent_id preupload_id slice_size total
         (Hc & Hr & Hp & Hs) Hk Htot Hpos.
  unfold upload_file.
  rewrite (bind_return _ _ _ _ _ (create_file_succeeds _ _ _ _ _ Hc)).
  rewrite Hr, Hp, Hs.
  unfold upload_chunks, lift, bind, uploaded_chunks_new, open, range.
  rewrite Htot.
  destruct (Z.to_nat total) as [| n] eqn:En; [lia |].
  cbn [for_range]. unfold bind.
  rewrite upload_chunk_run, read_raises_overflow by exact Hk.
  reflexivity.
Qed.

Lemma unreadable_slice_size_pushes_nothing_witness :
  upload_file
    (scripted (chunked (Some "tok"%string) (Some (2 ^ 63))) (fun _ => 200) []
              (completed_as 7) no_poll)
    0 ten_bytes 0 start
  = (Raise OverflowError,
     {| calls := [create_call ten_bytes 0];
        f_pos := content ten_bytes;
        uploaded_chunks := [] |}).
Proof.
  apply (unreadable_slice_size_pushes_nothing
           _ 0 ten_bytes 0 "tok" (2 ^ 63) 1).
  - repeat split.
  - vm_compute. reflexivity.
  - vm_compute. reflexivity.
  - reflexivity.
Defined.

(** The chunk count [math.ceil(file_size / slice_size)] against the
    exact ceiling: equal for every file below [2 ^ 53] bytes; 1 for a
    file of exactly one slice, whatever its size; and never above 1 for
    a file of at most one slice. *)
Theorem chunk_count_within_float_precision :
  forall file_size slice_size,
    0 <= file_size -> 0 < slice_size ->
    (file_size < 2 ^ 53 -> slice_size < 2 ^ 1075 ->
     total_chunks file_size slice_size
     = Return (ceil_div file_size slice_size)) /\
    total_chunks slice_size slice_size = Return 1 /\
    (file_size <= slice_size ->
     forall total,
       total_chunks file_size slice_size = Return total -> total <= 1).
Proof.
  intros file_size slice_size Hs Hk. split; [| split].
  - intros Hs53 Hk1075. apply total_chunks_exact; lia.
  - now apply total_chunks_one_slice.
  - intros Hle total. apply total_chunks_within_slice; lia.
Qed.

Lemma chunk_count_within_float_precision_witness :
  total_chunks 10000000 4194304 = Return 3 /\
  total_chunks 4194304 4194304 = Return 1.
Proof.
  destruct (chunk_count_within_float_precision 10000000 4194304)
    as (Hexact & Hone & _); [lia | lia |].
  split; [| exact Hone].
  rewrite Hexact; [reflexivity | reflexivity | reflexivity].
Defined.

Lemma empty_file_goes_straight_to_completion_witness :
  exists m,
    calls (snd (upload_file remote_plain 0 empty_file 0 start))
    = create_call empty_file 0
      :: UploadComplete "tok"
      :: repeat (UploadAsyncResult "tok") m.
Proof.
  apply (empty_file_goes_straight_to_completion
           remote_plain 0 empty_file 0 "tok" 4).
  - repeat split.
  - lia.
  - reflexivity.
Defined.

(* ===================================================================== *)
(** ** The file manager *)
(* ===================================================================== *)

(** *** The pages of a listing *)

Lemma and_then_returns {A B} (m : Run A) (k : A -> Run B) w a w' :
  m w = (Returns a, w') -> and_then m k w = k a w'.
Proof. intros H. unfold and_then. now rewrite H. Qed.

Lemma page_query_next on_file_list params r k :
  page_query on_file_list
             (set_lastFileId params (lastFileId (data (on_file_list r))))
             (S r) k
  = page_query on_file_list params r (S k).
Proof.
  destruct k as [| k]; cbn [page_query].
  - now rewrite Nat.add_0_r.
  - now rewrite Nat.add_succ_r.
Qed.

Lemma page_queries_next on_file_list params r n :
  page_queries on_file_list params r (S n)
  = params
    :: page_queries on_file_list
         (set_lastFileId params (lastFileId (data (on_file_list r))))
         (S r) n.
Proof.
  unfold page_queries. cbn [seq map page_query]. f_equal.
  rewrite <- seq_shift, map_map. apply map_ext. intros k.
  symmetry. apply page_query_next.
Qed.

Lemma page_queries_length on_file_list params r n :
  List.length (page_queries on_file_list params r n) = n.
Proof. unfold page_queries. now rewrite length_map, length_seq. Qed.

Lemma page_queries_last on_file_list params r n :
  page_queries on_file_list params r (S n)
  = page_queries on_file_list params r n
    ++ [page_query on_file_list params r n].
Proof.
  unfold page_queries. now rewrite seq_S, map_app.
Qed.

Lemma pages_files_last on_file_list r n :
  pages_files on_file_list r (S n)
  = pages_files on_file_list r n
    ++ fileList (data (on_file_list (r + n)%nat)).
Proof.
  unfold pages_files. rewrite seq_S, flat_map_app. cbn [flat_map].
  now rewrite app_nil_r.
Qed.

(** The loop of [list_files] across [m] pages that announce a next
    page. *)
Lemma list_files_pages_run on_file_list m : forall fuel params files w,
  (forall k, (k < m)%nat ->
     more_pages (on_file_list (List.length (gets w) + k)%nat)) ->
  Pan123FileManager.list_files_pages on_file_list (m + fuel) params files w
  = Pan123FileManager.list_files_pages on_file_list fuel
      (page_query on_file_list params (List.length (gets w)) m)
      (files ++ pages_files on_file_list (List.length (gets w)) m)
      {| gets := gets w
                 ++ page_queries on_file_list params (List.length (gets w)) m;
         prompts := prompts w;
         session := session w |}.
Proof.
  induction m as [| m IH]; intros fuel params files w Hmore.
  - cbn [Nat.add page_query page_queries pages_files seq map flat_map].
    rewrite !app_nil_r. now destruct w.
  - destruct (Hmore 0%nat ltac:(lia)) as [Hcode Hlast].
    rewrite Nat.add_0_r in Hcode, Hlast.
    apply Z.eqb_eq in Hcode. apply Z.eqb_neq in Hlast.
    cbn [Nat.add Pan123FileManager.list_files_pages].
    unfold and_then at 1. unfold Pan123FileManager.requests_get at 1.
    rewrite Hcode, Hlast. cbn [negb].
    rewrite IH.
    + cbn [gets prompts session]. rewrite length_app. cbn [List.length].
      rewrite Nat.add_1_r, page_query_next, page_queries_next.
      unfold pages_files. cbn [seq flat_map].
      now rewrite <- !app_assoc.
    + intros k Hk. cbn [gets]. rewrite length_app. cbn [List.length].
      replace (List.length (gets w) + 1 + k)%nat
        with (List.length (gets w) + S k)%nat by lia.
      apply Hmore. lia.
Qed.

Lemma list_folders_pages_filter on_file_list fuel :
  forall params files w,
    Pan123FileManager.list_folders_pages
      on_file_list fuel params (filter is_folder files) w
    = as_folders
        (Pan123FileManager.list_files_pages on_file_list fuel params files w).
Proof.
  induction fuel as [| fuel IH]; intros params files w; [reflexivity |].
  cbn [Pan123FileManager.list_folders_pages
       Pan123FileManager.list_files_pages].
  unfold and_then, Pan123FileManager.requests_get.
  destruct (code (on_file_list (List.length (gets w))) =? 0);
    cbn [negb]; [| reflexivity].
  rewrite <- filter_app.
  destruct (lastFileId (data (on_file_list (List.length (gets w)))) =? -1);
    [reflexivity | apply IH].
Qed.

(** [list_files] follows the cursor: when the pages of rank [0 .. m - 1]
    announce a next page and the page of rank [m] is the last one
    ([lastFileId = -1]), the result is the entries of the [m + 1] pages
    in order.  The first query carries no [lastFileId]; each later one
    is the same query with the [lastFileId] of the page before. *)
Theorem list_files_gathers_the_pages_in_order :
  forall on_file_list fuel parent_id limit search_data search_mode m,
    (forall k, (k < m)%nat -> more_pages (on_file_list k)) ->
    code (on_file_list m) = 0 ->
    lastFileId (data (on_file_list m)) = -1 ->
    (m < fuel)%nat ->
    Pan123FileManager.list_files
      on_file_list fuel parent_id limit search_data search_mode idle
    = (Returns (pages_files on_file_list 0 (S m)),
       {| gets := page_queries
                    on_file_list
                    (list_files_params parent_id limit search_data search_mode)
                    0 (S m);
          prompts := 0; session := start |}).
Proof.
  intros on_file_list fuel parent_id limit search_data search_mode m
         Hmore Hcode Hlast Hfuel.
  unfold Pan123FileManager.list_files.
  replace fuel with (m + S (fuel - S m))%nat by lia.
  rewrite list_files_pages_run by (intros k Hk; apply Hmore, Hk).
  cbn [gets prompts session idle List.length app
       Pan123FileManager.list_files_pages].
  unfold and_then, Pan123FileManager.requests_get.
  cbn [gets prompts session]. rewrite page_queries_length.
  apply Z.eqb_eq in Hcode. apply Z.eqb_eq in Hlast.
  rewrite Hcode, Hlast. cbn [negb]. unfold returns.
  now rewrite page_queries_last, pages_files_last.
Qed.

Lemma list_files_gathers_the_pages_in_order_witness :
  fst (Pan123FileManager.list_files three_pages 3 0 100 None 0 idle)
  = Returns [entry 1 "a.txt" 0; entry 2 "docs" 1; entry 3 "img" 1;
             entry 4 "b.txt" 0].
Proof.
  rewrite (list_files_gathers_the_pages_in_order
             three_pages 3 0 100 None 0 2).
  - reflexivity.
  - intros k Hk. destruct k as [| [| k]]; [| | lia];
      (split; [reflexivity | discriminate]).
  - reflexivity.
  - reflexivity.
  - lia.
Defined.

(** A page that is refused ends the listing with the message of the
    service: the entries of the pages gathered before are not
    returned. *)
Theorem refused_page_aborts_the_listing :
  forall on_file_list fuel parent_id limit search_data search_mode m,
    (forall k, (k < m)%nat -> more_pages (on_file_list k)) ->
    code (on_file_list m) <> 0 ->
    (m < fuel)%nat ->
    Pan123FileManager.list_files
      on_file_list fuel parent_id limit search_data search_mode idle
    = (Raises (ListFilesFailed (message (on_file_list m))),
       {| gets := page_queries
                    on_file_list
                    (list_files_params parent_id limit search_data search_mode)
                    0 (S m);
          prompts := 0; session := start |}).
Proof.
  intros on_file_list fuel parent_id limit search_data search_mode m
         Hmore Hcode Hfuel.
  unfold Pan123FileManager.list_files.
  replace fuel with (m + S (fuel - S m))%nat by lia.
  rewrite list_files_pages_run by (intros k Hk; apply Hmore, Hk).
  cbn [gets prompts session idle List.length app
       Pan123FileManager.list_files_pages].
  unfold and_then, Pan123FileManager.requests_get.
  cbn [gets prompts session]. rewrite page_queries_length.
  apply Z.eqb_neq in Hcode. rewrite Hcode. cbn [negb]. unfold raises.
  now rewrite page_queries_last.
Qed.

Lemma refused_page_aborts_the_listing_witness :
  fst (Pan123FileManager.list_files second_page_refused 3 0 100 None 0 idle)
  = Raises (ListFilesFailed "refused").
Proof.
  rewrite (refused_page_aborts_the_listing
             second_page_refused 3 0 100 None 0 1).
  - reflexivity.
  - intros k Hk. destruct k as [| k]; [| lia].
    split; [reflexivity | discriminate].
  - discriminate.
  - lia.
Defined.

(** The loop of [list_files] has no bound of its own: against a service
    whose every page announces a next one, the run is still asking for
    pages when any bound put on it is used up, one query for each unit
    of the bound. *)
Theorem listing_without_last_page_never_ends :
  forall on_file_list parent_id limit search_data search_mode,
    (forall k, more_pages (on_file_list k)) ->
    forall fuel,
      Pan123FileManager.list_files
        on_file_list fuel parent_id limit search_data search_mode idle
      = (Looping,
         {| gets := page_queries
                      on_file_list
                      (list_files_params parent_id limit search_data
                                         search_mode)
                      0 fuel;
            prompts := 0; session := start |}).
Proof.
  intros on_file_list parent_id limit search_data search_mode Hmore fuel.
  unfold Pan123FileManager.list_files.
  replace fuel with (fuel + 0)%nat at 1 by lia.
  rewrite list_files_pages_run by (intros k _; apply Hmore).
  reflexivity.
Qed.

Lemma listing_without_last_page_never_ends_witness :
  fst (Pan123FileManager.list_files endless_pages 7 0 100 None 0 idle)
  = Looping.
Proof.
  rewrite (listing_without_last_page_never_ends endless_pages 0 100 None 0).
  - reflexivity.
  - intros k. split; [reflexivity |]. cbn. lia.
Defined.

(** [list_folders] is [list_files] without a search and with pages of
    100, filtered: it sends the same queries, returns the entries of
    [type = 1] of what [list_files] returns, in the same order, and
    raises and loops when [list_files] does. *)
Theorem list_folders_filters_list_files :
  forall on_file_list fuel parent_id search_mode w,
    Pan123FileManager.list_folders on_file_list fuel parent_id w
    = as_folders
        (Pan123FileManager.list_files
           on_file_list fuel parent_id 100 None search_mode w).
Proof.
  intros on_file_list fuel parent_id search_mode w.
  unfold Pan123FileManager.list_folders, Pan123FileManager.list_files.
  apply (list_folders_pages_filter on_file_list fuel _ [] w).
Qed.

(** *** The name under which a file is uploaded *)

Lemma find_existsb {A} (p : A -> bool) l :
  existsb p l = match find p l with Some _ => true | None => false end.
Proof.
  induction l as [| a l IH]; [reflexivity |].
  cbn [existsb find]. now destruct (p a).
Qed.

Lemma check_file_exists_taken on_file_list filename parent_id w :
  name_taken (on_file_list (List.length (gets w))) filename ->
  exists existing_file,
    Pan123FileManager.check_file_exists on_file_list filename parent_id w
    = (Returns (Some existing_file),
       {| gets := gets w ++ [check_file_exists_params filename parent_id];
          prompts := prompts w; session := session w |}).
Proof.
  intros [Hcode Htaken]. apply Z.eqb_eq in Hcode.
  rewrite find_existsb in Htaken.
  unfold Pan123FileManager.check_file_exists, and_then,
    Pan123FileManager.requests_get.
  rewrite Hcode. cbn [negb]. unfold returns.
  destruct (find _ _) as [existing_file |]; [| discriminate].
  now exists existing_file.
Qed.

Lemma check_file_exists_free on_file_list filename parent_id w :
  name_free (on_file_list (List.length (gets w))) filename ->
  Pan123FileManager.check_file_exists on_file_list filename parent_id w
  = (Returns None,
     {| gets := gets w ++ [check_file_exists_params filename parent_id];
        prompts := prompts w; session := session w |}).
Proof.
  intros [Hcode Hfree]. apply Z.eqb_eq in Hcode.
  rewrite find_existsb in Hfree.
  unfold Pan123FileManager.check_file_exists, and_then,
    Pan123FileManager.requests_get.
  rewrite Hcode. cbn [negb]. unfold returns.
  now destruct (find _ _).
Qed.

Lemma check_file_exists_refused on_file_list filename parent_id w :
  code (on_file_list (List.length (gets w))) <> 0 ->
  Pan123FileManager.check_file_exists on_file_list filename parent_id w
  = (Raises (CheckFileExistsFailed
               (message (on_file_list (List.length (gets w))))),
     {| gets := gets w ++ [check_file_exists_params filename parent_id];
        prompts := prompts w; session := session w |}).
Proof.
  intros Hcode. apply Z.eqb_neq in Hcode.
  unfold Pan123FileManager.check_file_exists, and_then,
    Pan123FileManager.requests_get.
  now rewrite Hcode.
Qed.

Lemma queries_last original parent_id n :
  queries original parent_id (S n)
  = queries original parent_id n
    ++ [check_file_exists_params (queried original n) parent_id].
Proof. unfold queries. now rewrite seq_S, map_app. Qed.

Lemma queries_length original parent_id n :
  List.length (queries original parent_id n) = n.
Proof. unfold queries. now rewrite length_map, length_seq. Qed.

(** The loop that looks for a free name, across [c] names that are
    taken, from the check of rank [j + 1]. *)
Lemma free_filename_run on_file_list original parent_id c :
  forall fuel j w,
    gets w = queries original parent_id (S j) ->
    (forall k, (k < c)%nat ->
       name_taken (on_file_list (S j + k)%nat)
                  (queried original (S j + k))) ->
    Pan123FileManager.free_filename
      on_file_list (c + fuel)
      (fst (PosixPath.splitext original)) (snd (PosixPath.splitext original))
      (queried original (S j)) (Z.of_nat j + 1) parent_id w
    = Pan123FileManager.free_filename
        on_file_list fuel
        (fst (PosixPath.splitext original))
        (snd (PosixPath.splitext original))
        (queried original (S j + c)) (Z.of_nat (j + c) + 1) parent_id
        {| gets := queries original parent_id (S j + c);
           prompts := prompts w; session := session w |}.
Proof.
  induction c as [| c IH]; intros fuel j w Hgets Htaken.
  - rewrite !Nat.add_0_r. cbn [Nat.add]. rewrite <- Hgets. now destruct w.
  - cbn [Nat.add Pan123FileManager.free_filename].
    assert (Hrank : List.length (gets w) = S j)
      by (rewrite Hgets; apply queries_length).
    destruct (check_file_exists_taken
                on_file_list (queried original (S j)) parent_id w)
      as [existing_file Hcheck].
    { rewrite Hrank. replace (S j) with (S j + 0)%nat by lia.
      apply Htaken. lia. }
    rewrite (and_then_returns _ _ _ _ _ Hcheck).
    replace (Z.of_nat j + 1 + 1) with (Z.of_nat (S j) + 1) by lia.
    replace (Z.of_nat j + 1) with (Z.of_nat (S j)) by lia.
    change (fst (PosixPath.splitext original) ++ "_copy"
            ++ str (Z.of_nat (S j))
            ++ snd (PosixPath.splitext original))%string
      with (queried original (S (S j))).
    rewrite IH.
    + cbn [prompts session].
      now replace (j + S c)%nat with (S j + c)%nat by lia.
    + cbn [gets]. rewrite Hgets. symmetry. apply queries_last.
    + intros k Hk.
      replace (S (S j) + k)%nat with (S j + S k)%nat by lia.
      apply Htaken. lia.
Qed.

Lemma upload_as_renamed remote fuel filename file parent_id :
  upload_as remote fuel filename file parent_id
  = upload_file remote fuel (renamed file filename) parent_id.
Proof. reflexivity. Qed.

(** The run of [upload_file] from the prompt on, when the user agrees to
    a copy: the loop, then the session. *)
Lemma upload_file_copy on_file_list upload_copy remote fuel file parent_id :
  name_taken (on_file_list 0%nat) (basename file) ->
  upload_copy = "y"%string ->
  Pan123FileManager.upload_file
    on_file_list upload_copy remote fuel file parent_id idle
  = and_then
      (Pan123FileManager.free_filename
         on_file_list fuel
         (fst (PosixPath.splitext (basename file)))
         (snd (PosixPath.splitext (basename file)))
         (queried (basename file) 1) (Z.of_nat 0 + 1) parent_id)
      (fun filename =>
         in_session (upload_as remote fuel filename file parent_id))
      {| gets := queries (basename file) parent_id 1;
         prompts := 1; session := start |}.
Proof.
  intros Htaken ->.
  destruct (check_file_exists_taken
              on_file_list (basename file) parent_id idle Htaken)
    as [existing_file Hcheck].
  unfold Pan123FileManager.upload_file.
  rewrite (and_then_returns _ _ _ _ _ Hcheck).
  unfold and_then, Pan123FileManager.input_upload_copy.
  cbn [String.eqb Ascii.eqb Bool.eqb negb gets prompts session idle app
       queries queried seq map Z.of_nat Z.add].
  now destruct (PosixPath.splitext (basename file)).
Qed.

Lemma upload_file_free_name
      on_file_list upload_copy remote fuel file parent_id :
  name_free (on_file_list 0%nat) (basename file) ->
  Pan123FileManager.upload_file
    on_file_list upload_copy remote fuel file parent_id idle
  = (ending (fst (upload_file remote fuel file parent_id start)),
     {| gets := queries (basename file) parent_id 1;
        prompts := 0;
        session := snd (upload_file remote fuel file parent_id start) |}).
Proof.
  intros Hfree. unfold Pan123FileManager.upload_file.
  rewrite (and_then_returns
             _ _ _ _ _
             (check_file_exists_free
                on_file_list (basename file) parent_id idle Hfree)).
  reflexivity.
Qed.

Lemma upload_file_declined
      on_file_list upload_copy remote fuel file parent_id :
  name_taken (on_file_list 0%nat) (basename file) ->
  upload_copy <> "y"%string ->
  Pan123FileManager.upload_file
    on_file_list upload_copy remote fuel file parent_id idle
  = (SystemExit 0,
     {| gets := queries (basename file) parent_id 1;
        prompts := 1;
        session := start |}).
Proof.
  intros Htaken Hno.
  destruct (check_file_exists_taken
              on_file_list (basename file) parent_id idle Htaken)
    as [existing_file Hcheck].
  unfold Pan123FileManager.upload_file.
  rewrite (and_then_returns _ _ _ _ _ Hcheck).
  unfold and_then, Pan123FileManager.input_upload_copy.
  apply String.eqb_neq in Hno. rewrite Hno. reflexivity.
Qed.

Lemma upload_file_first_check_refused
      on_file_list upload_copy remote fuel file parent_id :
  code (on_file_list 0%nat) <> 0 ->
  Pan123FileManager.upload_file
    on_file_list upload_copy remote fuel file parent_id idle
  = (Raises (CheckFileExistsFailed (message (on_file_list 0%nat))),
     {| gets := queries (basename file) parent_id 1;
        prompts := 0;
        session := start |}).
Proof.
  intros Hcode.
  unfold Pan123FileManager.upload_file, and_then at 1 2.
  now rewrite (check_file_exists_refused
                 on_file_list (basename file) parent_id idle Hcode).
Qed.

(** No file of that name in the target folder: [upload_file] of the
    manager asks nothing and runs the session of [Pan123Uploader] on the
    file, after the one query that checked the name. *)
Theorem free_name_uploads_without_asking :
  forall on_file_list upload_copy remote fuel file parent_id,
    name_free (on_file_list 0%nat) (basename file) ->
    let run := upload_file remote fuel file parent_id start in
    Pan123FileManager.upload_file
      on_file_list upload_copy remote fuel file parent_id idle
    = (ending (fst run),
       {| gets := queries (basename file) parent_id 1;
          prompts := 0;
          session := snd run |}).
Proof.
  intros on_file_list upload_copy remote fuel file parent_id Hfree run.
  now apply upload_file_free_name.
Qed.

Lemma free_name_uploads_without_asking_witness :
  Pan123FileManager.upload_file empty_folder "n" remote_plain 0 ten_bytes 0 idle
  = (Returns 7,
     {| gets := queries "ten.bin" 0 1; prompts := 0;
        session := snd (upload_file remote_plain 0 ten_bytes 0 start) |}).
Proof.
  rewrite (free_name_uploads_without_asking
             empty_folder "n" remote_plain 0 ten_bytes 0).
  - reflexivity.
  - split; reflexivity.
Defined.

(** A file of that name exists and the user does not answer [y]: the
    process exits with status 0 after the one query and the prompt, and
    no request of the upload session was sent. *)
Theorem declined_copy_exits_before_any_upload :
  forall on_file_list upload_copy remote fuel file parent_id,
    name_taken (on_file_list 0%nat) (basename file) ->
    upload_copy <> "y"%string ->
    Pan123FileManager.upload_file
      on_file_list upload_copy remote fuel file parent_id idle
    = (SystemExit 0,
       {| gets := queries (basename file) parent_id 1;
          prompts := 1;
          session := start |}).
Proof.
  intros on_file_list upload_copy remote fuel file parent_id.
  apply upload_file_declined.
Qed.

Lemma declined_copy_exits_before_any_upload_witness :
  Pan123FileManager.upload_file
    folder_with_copy "n" remote_plain 5 ten_bytes 0 idle
  = (SystemExit 0,
     {| gets := queries "ten.bin" 0 1; prompts := 1; session := start |}).
Proof.
  apply (declined_copy_exits_before_any_upload
           folder_with_copy "n" remote_plain 5 ten_bytes 0).
  - split; reflexivity.
  - discriminate.
Defined.

(** A file of that name exists and the user answers [y].  The name is
    checked again, then the copies [name_copy1ext], [name_copy2ext], ...
    in turn; when the checks of rank [0 .. n - 1] show the name they ask
    for and the check of rank [n] does not, the session of
    [Pan123Uploader] runs on the file under the name of that last check,
    after [n + 1] queries and one prompt. *)
Theorem accepted_copy_uploads_under_first_free_name :
  forall on_file_list remote fuel file parent_id n,
    (forall k, (k < n)%nat ->
       name_taken (on_file_list k) (queried (basename file) k)) ->
    name_free (on_file_list n) (queried (basename file) n) ->
    (1 <= n <= fuel)%nat ->
    let run :=
      upload_file remote fuel (renamed file (queried (basename file) n))
                  parent_id start in
    Pan123FileManager.upload_file
      on_file_list "y" remote fuel file parent_id idle
    = (ending (fst run),
       {| gets := queries (basename file) parent_id (S n);
          prompts := 1;
          session := snd run |}).
Proof.
  intros on_file_list remote fuel file parent_id n Htaken Hfree Hn run.
  rewrite upload_file_copy by (try reflexivity; apply (Htaken 0%nat); lia).
  destruct n as [| c]; [lia |].
  assert (Hloop :
    Pan123FileManager.free_filename
      on_file_list fuel
      (fst (PosixPath.splitext (basename file)))
      (snd (PosixPath.splitext (basename file)))
      (queried (basename file) 1) (Z.of_nat 0 + 1) parent_id
      {| gets := queries (basename file) parent_id 1;
         prompts := 1; session := start |}
    = (Returns (queried (basename file) (S c)),
       {| gets := queries (basename file) parent_id (S (S c));
          prompts := 1; session := start |})).
  { replace fuel with (c + S (fuel - S c))%nat by lia.
    rewrite free_filename_run;
      [| reflexivity | intros k Hk; apply Htaken; lia].
    cbn [Pan123FileManager.free_filename prompts session Nat.add].
    pose proof (check_file_exists_free
                  on_file_list (queried (basename file) (S c)) parent_id
                  {| gets := queries (basename file) parent_id (S c);
                     prompts := 1; session := start |}) as Hcheck.
    cbn [gets prompts session] in Hcheck.
    rewrite queries_length in Hcheck.
    rewrite (and_then_returns _ _ _ _ _ (Hcheck Hfree)).
    unfold returns. now rewrite <- queries_last. }
  rewrite (and_then_returns _ _ _ _ _ Hloop).
  reflexivity.
Qed.

Lemma accepted_copy_uploads_under_first_free_name_witness :
  fst (Pan123FileManager.upload_file
         folder_with_copy "y" remote_plain 5 ten_bytes 0 idle)
  = ending (fst (upload_file remote_plain 5
                             (renamed ten_bytes "ten_copy2.bin") 0 start)).
Proof.
  rewrite (accepted_copy_uploads_under_first_free_name
             folder_with_copy remote_plain 5 ten_bytes 0 3).
  - reflexivity.
  - intros k Hk. destruct k as [| [| [| k]]]; [| | | lia];
      split; reflexivity.
  - split; reflexivity.
  - lia.
Defined.

(** A check of the name that is refused -- the first one, or a later one
    of the search for a free name -- ends the run with the message of
    the service, and no request of the upload session was sent. *)
Theorem refused_name_check_aborts_upload :
  forall on_file_list upload_copy remote fuel file parent_id j,
    (forall k, (k < j)%nat ->
       name_taken (on_file_list k) (queried (basename file) k)) ->
    code (on_file_list j) <> 0 ->
    ((0 < j)%nat -> upload_copy = "y"%string) ->
    (j <= fuel)%nat ->
    Pan123FileManager.upload_file
      on_file_list upload_copy remote fuel file parent_id idle
    = (Raises (CheckFileExistsFailed (message (on_file_list j))),
       {| gets := queries (basename file) parent_id (S j);
          prompts := Nat.min j 1;
          session := start |}).
Proof.
  intros on_file_list upload_copy remote fuel file parent_id j
         Htaken Hcode Hyes Hfuel.
  destruct j as [| c].
  - now apply upload_file_first_check_refused.
  - rewrite upload_file_copy by (try apply Hyes; try apply (Htaken 0%nat); lia).
    unfold and_then at 1.
    replace fuel with (c + S (fuel - S c))%nat by lia.
    rewrite free_filename_run;
      [| reflexivity | intros k Hk; apply Htaken; lia].
    cbn [Pan123FileManager.free_filename prompts session].
    unfold and_then at 1.
    rewrite check_file_exists_refused
      by (cbn [gets]; rewrite queries_length; exact Hcode).
    cbn [gets prompts session Nat.min]. rewrite queries_length.
    now rewrite Nat.min_0_r, <- queries_last.
Qed.

Lemma refused_name_check_aborts_upload_witness :
  Pan123FileManager.upload_file
    folder_check_refused "y" remote_plain 5 ten_bytes 0 idle
  = (Raises (CheckFileExistsFailed "refused"),
     {| gets := queries "ten.bin" 0 3; prompts := 1; session := start |}).
Proof.
  apply (refused_name_check_aborts_upload
           folder_check_refused "y" remote_plain 5 ten_bytes 0 2).
  - intros k Hk. destruct k as [| [| k]]; [| | lia]; split; reflexivity.
  - discriminate.
  - reflexivity.
  - lia.
Defined.

(** The search for a free name has no bound of its own: against a
    service that shows a file for every name asked for, the run is still
    checking names when any bound put on it is used up, and nothing is
    uploaded. *)
Theorem search_for_free_name_never_ends :
  forall on_file_list remote file parent_id,
    (forall k, name_taken (on_file_list k) (queried (basename file) k)) ->
    forall fuel,
      Pan123FileManager.upload_file
        on_file_list "y" remote fuel file parent_id idle
      = (Looping,
         {| gets := queries (basename file) parent_id (S fuel);
            prompts := 1;
            session := start |}).
Proof.
  intros on_file_list remote file parent_id Htaken fuel.
  rewrite upload_file_copy by (try reflexivity; apply Htaken).
  unfold and_then at 1.
  replace fuel with (fuel + 0)%nat at 1 by lia.
  rewrite free_filename_run; [| reflexivity | intros k _; apply Htaken].
  reflexivity.
Qed.


Lemma search_for_free_name_never_ends_witness :
  fst (Pan123FileManager.upload_file
         (every_name_taken "ten.bin") "y" remote_plain 4 ten_bytes 0 idle)
  = Looping.
Proof.
  rewrite (search_for_free_name_never_ends
             (every_name_taken "ten.bin") remote_plain ten_bytes 0).
  - reflexivity.
  - intros k. split; [reflexivity |].
    cbn [every_name_taken ok data fileList existsb basename ten_bytes].
    unfold has_filename, entry. cbn [filename].
    now rewrite String.eqb_refl.
Defined.

(** *** Names and extensions *)

Lemma substring_all p : substring 0 (String.length p) p = p.
Proof. induction p as [| c p IH]; cbn; [reflexivity | now rewrite IH]. Qed.

Lemma substring_split p : forall n,
  (substring 0 n p ++ substring n (String.length p - n) p)%string = p.
Proof.
  induction p as [| c p IH]; intros [| n]; cbn [substring String.length
                                                 Nat.sub append];
    try reflexivity.
  - now rewrite substring_all.
  - now rewrite IH.
Qed.

Lemma skip_leading_dots_join n : forall p filenameIndex dotIndex,
  (fst (PosixPath.skip_leading_dots n p filenameIndex dotIndex)
   ++ snd (PosixPath.skip_leading_dots n p filenameIndex dotIndex))%string
  = p.
Proof.
  induction n as [| n IH]; intros p filenameIndex dotIndex;
    cbn [PosixPath.skip_leading_dots].
  - cbn [fst snd]. induction p; cbn; congruence.
  - destruct (negb _); [| apply IH].
    cbn [fst snd]. unfold PosixPath.slice, PosixPath.slice_from.
    rewrite Z.sub_0_r. change (Z.to_nat 0) with 0%nat.
    apply substring_split.
Qed.

Lemma append_empty_r s : (s ++ "")%string = s.
Proof. induction s; cbn; congruence. Qed.

Lemma splitext_join p :
  (fst (PosixPath.splitext p) ++ snd (PosixPath.splitext p))%string = p.
Proof.
  unfold PosixPath.splitext.
  destruct (_ >? _); [apply skip_leading_dots_join |].
  apply append_empty_r.
Qed.

Lemma append_length a b :
  String.length (a ++ b) = (String.length a + String.length b)%nat.
Proof. induction a; cbn; congruence. Qed.

Lemma substring_append_right a : forall b,
  substring (String.length a) (String.length b) (a ++ b) = b.
Proof.
  induction a as [| c a IH]; intros b; cbn [String.length append].
  - apply substring_all.
  - destruct b; cbn [substring]; apply IH.
Qed.

Lemma endswith_append a b : endswith (a ++ b) b = true.
Proof.
  unfold endswith. rewrite append_length.
  replace (String.length a + String.length b - String.length b)%nat
    with (String.length a) by lia.
  rewrite substring_append_right, String.eqb_refl.
  apply andb_true_iff. split; [| reflexivity]. apply Nat.leb_le. lia.
Qed.

Lemma prefix_append a b : String.prefix a (a ++ b) = true.
Proof.
  induction a as [| c a IH]; cbn [String.prefix append];
    [now destruct b |].
  destruct (ascii_dec c c); [exact IH | congruence].
Qed.

Lemma occurs_append c a b : occurs c (a ++ b) = occurs c a || occurs c b.
Proof.
  induction a as [| x a IH]; cbn [occurs append orb]; [reflexivity |].
  now rewrite IH, orb_assoc.
Qed.

Lemma rfind_from_none c p : forall i found,
  occurs c p = false -> PosixPath.rfind_from c p i found = found.
Proof.
  induction p as [| x p IH]; intros i found H; cbn [PosixPath.rfind_from];
    [reflexivity |].
  cbn [occurs] in H. apply orb_false_iff in H as [Hx Hp].
  rewrite Hx. now apply IH.
Qed.

Lemma rfind_from_clean_suffix c a b : forall i found,
  occurs c b = false ->
  PosixPath.rfind_from c (a ++ b) i found = PosixPath.rfind_from c a i found.
Proof.
  induction a as [| x a IH]; intros i found H;
    cbn [PosixPath.rfind_from append].
  - now apply rfind_from_none.
  - now apply IH.
Qed.

Lemma rfind_from_last c a e : forall i found,
  occurs c e = false ->
  PosixPath.rfind_from c (a ++ String c e) i found
  = i + Z.of_nat (String.length a).
Proof.
  induction a as [| x a IH]; intros i found H;
    cbn [PosixPath.rfind_from append String.length].
  - rewrite Ascii.eqb_refl, rfind_from_none by exact H. cbn. lia.
  - rewrite IH by exact H. lia.
Qed.

(** What [rfind] returns: [found] when the character does not occur, the
    index of its last occurrence otherwise. *)
Lemma rfind_from_spec c p : forall i found,
  (occurs c p = false /\ PosixPath.rfind_from c p i found = found) \/
  (exists a e,
     p = (a ++ String c e)%string /\ occurs c e = false /\
     PosixPath.rfind_from c p i found = i + Z.of_nat (String.length a)).
Proof.
  induction p as [| x p IH]; intros i found; [left; now split |].
  cbn [PosixPath.rfind_from].
  destruct (IH (i + 1) (if Ascii.eqb x c then i else found))
    as [[Hnone Hr] | (a & e & Hp & He & Hr)].
  - destruct (Ascii.eqb x c) eqn:Hx.
    + right. exists EmptyString, p. apply Ascii.eqb_eq in Hx. subst x.
      repeat split; [exact Hnone |]. rewrite Hr. cbn. lia.
    + left. cbn [occurs]. rewrite Hx, Hnone. now split.
  - right. exists (String x a), e. subst p.
    repeat split; [exact He |]. rewrite Hr. cbn [String.length]. lia.
Qed.

Lemma rfind_spec p c :
  (occurs c p = false /\ PosixPath.rfind p c = -1) \/
  (exists a e,
     p = (a ++ String c e)%string /\ occurs c e = false /\
     PosixPath.rfind p c = Z.of_nat (String.length a)).
Proof.
  unfold PosixPath.rfind.
  destruct (rfind_from_spec c p 0 (-1)) as [H | (a & e & Hp & He & Hr)];
    [now left |].
  right. exists a, e. repeat split; first [assumption | rewrite Hr; lia].
Qed.

Lemma substring_append_left a : forall b,
  substring 0 (String.length a) (a ++ b) = a.
Proof.
  induction a as [| c a IH]; intros b; cbn [String.length append substring].
  - now destruct b.
  - now rewrite IH.
Qed.

Lemma slice_at_length a b :
  PosixPath.slice (a ++ b) 0 (Z.of_nat (String.length a)) = a /\
  PosixPath.slice_from (a ++ b) (Z.of_nat (String.length a)) = b.
Proof.
  unfold PosixPath.slice, PosixPath.slice_from.
  rewrite Z.sub_0_r, Nat2Z.id. change (Z.to_nat 0) with 0%nat.
  split; [apply substring_append_left |].
  rewrite append_length.
  replace (String.length a + String.length b - String.length a)%nat
    with (String.length b) by lia.
  apply substring_append_right.
Qed.

Lemma substring_0_0 s : substring 0 0 s = EmptyString.
Proof. now destruct s. Qed.

(** The character of index [i], as the loop of [splitext] reads it. *)
Lemma slice_one_append a b i :
  (i < String.length a)%nat ->
  PosixPath.slice (a ++ b) (Z.of_nat i) (Z.of_nat i + 1)
  = PosixPath.slice a (Z.of_nat i) (Z.of_nat i + 1).
Proof.
  unfold PosixPath.slice.
  replace (Z.to_nat (Z.of_nat i + 1 - Z.of_nat i)) with 1%nat by lia.
  rewrite Nat2Z.id. revert i.
  induction a as [| c a IH]; intros i Hi; cbn [String.length] in Hi; [lia |].
  destruct i as [| i]; cbn [append substring];
    [now rewrite !substring_0_0 |].
  apply IH. lia.
Qed.

Lemma skip_leading_dots_found n : forall p filenameIndex dotIndex,
  (exists j, (j < n)%nat /\
     PosixPath.slice p (filenameIndex + Z.of_nat j)
                     (filenameIndex + Z.of_nat j + 1) <> "."%string) ->
  PosixPath.skip_leading_dots n p filenameIndex dotIndex
  = (PosixPath.slice p 0 dotIndex, PosixPath.slice_from p dotIndex).
Proof.
  induction n as [| n IH]; intros p filenameIndex dotIndex (j & Hj & Hne);
    [lia |].
  cbn [PosixPath.skip_leading_dots].
  destruct (String.eqb (PosixPath.slice p filenameIndex (filenameIndex + 1))
                       ".") eqn:Hdot; cbn [negb]; [| reflexivity].
  apply IH. destruct j as [| j].
  - apply String.eqb_eq in Hdot. rewrite Z.add_0_r in Hne. contradiction.
  - exists j. split; [lia |].
    replace (filenameIndex + 1 + Z.of_nat j)
      with (filenameIndex + Z.of_nat (S j)) by lia.
    exact Hne.
Qed.

Lemma skip_leading_dots_all n : forall p filenameIndex dotIndex,
  (forall j, (j < n)%nat ->
     PosixPath.slice p (filenameIndex + Z.of_nat j)
                     (filenameIndex + Z.of_nat j + 1) = "."%string) ->
  PosixPath.skip_leading_dots n p filenameIndex dotIndex = (p, EmptyString).
Proof.
  induction n as [| n IH]; intros p filenameIndex dotIndex Hall;
    [reflexivity |].
  cbn [PosixPath.skip_leading_dots].
  pose proof (Hall 0%nat ltac:(lia)) as H0. rewrite Z.add_0_r in H0.
  rewrite H0. cbn [String.eqb Ascii.eqb Bool.eqb negb].
  apply IH. intros j Hj.
  replace (filenameIndex + 1 + Z.of_nat j)
    with (filenameIndex + Z.of_nat (S j)) by lia.
  apply Hall. lia.
Qed.

Lemma leading_dots_or_not (p : string) (filenameIndex : Z) n :
  (exists j, (j < n)%nat /\
     PosixPath.slice p (filenameIndex + Z.of_nat j)
                     (filenameIndex + Z.of_nat j + 1) <> "."%string) \/
  (forall j, (j < n)%nat ->
     PosixPath.slice p (filenameIndex + Z.of_nat j)
                     (filenameIndex + Z.of_nat j + 1) = "."%string).
Proof.
  induction n as [| n [(j & Hj & Hne) | Hall]].
  - right. intros j Hj. lia.
  - left. exists j. split; [lia | exact Hne].
  - destruct (string_dec
                (PosixPath.slice p (filenameIndex + Z.of_nat n)
                                 (filenameIndex + Z.of_nat n + 1)) ".")
      as [Hdot | Hne].
    + right. intros j Hj. destruct (Nat.eq_dec j n) as [-> | Hjn];
        [exact Hdot | apply Hall; lia].
    + left. exists n. split; [lia | exact Hne].
Qed.

Lemma append_eq_split a' : forall a x y,
  (a ++ x = a' ++ y)%string ->
  (String.length a' <= String.length a)%nat ->
  exists z, a = (a' ++ z)%string /\ y = (z ++ x)%string.
Proof.
  induction a' as [| c a' IH]; intros a x y H Hlen.
  - exists a. now split.
  - destruct a as [| d a]; cbn [String.length] in Hlen; [lia |].
    cbn [append] in H. injection H as -> H.
    destruct (IH a x y H ltac:(lia)) as (z & -> & ->).
    exists z. now split.
Qed.

Lemma rfind_lower p c : -1 <= PosixPath.rfind p c.
Proof.
  destruct (rfind_spec p c) as [[_ ->] | (a & e & _ & _ & ->)]; lia.
Qed.

(** The two ways [splitext] answers: no extension, when no dot follows
    the last slash or only dots stand between them; or the split at the
    last dot, after a character of the last component that is no dot. *)
Lemma splitext_cases p :
  let sepIndex := PosixPath.rfind p "/" in
  let dotIndex := PosixPath.rfind p "." in
  (PosixPath.splitext p = (p, EmptyString) /\
   (dotIndex <= sepIndex \/
    forall j, (j < Z.to_nat (dotIndex - (sepIndex + 1)))%nat ->
      PosixPath.slice p (sepIndex + 1 + Z.of_nat j)
                      (sepIndex + 1 + Z.of_nat j + 1) = "."%string)) \/
  (exists name e j,
     p = (name ++ String "." e)%string /\
     PosixPath.splitext p = (name, String "." e) /\
     occurs "." e = false /\ occurs "/" e = false /\
     dotIndex = Z.of_nat (String.length name) /\
     sepIndex + 1 + Z.of_nat j < dotIndex /\
     PosixPath.slice p (sepIndex + 1 + Z.of_nat j)
                     (sepIndex + 1 + Z.of_nat j + 1) <> "."%string).
Proof.
  intros sepIndex dotIndex. unfold PosixPath.splitext.
  fold sepIndex dotIndex.
  destruct (dotIndex >? sepIndex) eqn:Hgt;
    [| left; split; [reflexivity | left; rewrite Z.gtb_ltb in Hgt; apply Z.ltb_ge in Hgt; lia]].
  apply Z.gtb_lt in Hgt.
  destruct (leading_dots_or_not
              p (sepIndex + 1) (Z.to_nat (dotIndex - (sepIndex + 1))))
    as [(j & Hj & Hne) | Hall];
    [| left; split; [now apply skip_leading_dots_all | right; exact Hall]].
  right.
  pose proof (rfind_lower p "/") as Hsep. fold sepIndex in Hsep.
  destruct (rfind_spec p ".") as [[_ Hd] | (name & e & Hp & He & Hd)];
    fold dotIndex in Hd; [lia |].
  exists name, e, j.
  assert (Hslash : occurs "/" e = false).
  { destruct (rfind_spec p "/") as [[Hnone _] | (a' & e' & Hp' & He' & Hs)].
    - rewrite Hp, occurs_append in Hnone.
      apply orb_false_iff in Hnone as [_ Hnone].
      cbn [occurs] in Hnone. now apply orb_false_iff in Hnone as [_ Hnone].
    - fold sepIndex in Hs.
      destruct (append_eq_split a' name (String "." e) (String "/" e'))
        as (z & Hname & Hz); [congruence | lia |].
      destruct z as [| c z].
      + rewrite append_empty_r in Hname. subst a'. lia.
      + cbn [append] in Hz. injection Hz as _ ->.
        rewrite occurs_append in He'.
        apply orb_false_iff in He' as [_ He'].
        cbn [occurs] in He'. now apply orb_false_iff in He' as [_ He']. }
  rewrite (skip_leading_dots_found _ _ _ _ (ex_intro _ j (conj Hj Hne))).
  rewrite Hd. rewrite Hp at 2 3.
  destruct (slice_at_length name (String "." e)) as [-> ->].
  repeat split; try assumption. lia.
Qed.

Lemma str_clean n : occurs "." (str n) = false /\ occurs "/" (str n) = false.
Proof.
  assert (Huint : forall d,
    occurs "." (NilEmpty.string_of_uint d) = false /\
    occurs "/" (NilEmpty.string_of_uint d) = false).
  { induction d as [| d [IH1 IH2] | d [IH1 IH2] | d [IH1 IH2] | d [IH1 IH2]
                    | d [IH1 IH2] | d [IH1 IH2] | d [IH1 IH2] | d [IH1 IH2]
                    | d [IH1 IH2] | d [IH1 IH2]];
      cbn [NilEmpty.string_of_uint occurs Ascii.eqb Bool.eqb orb];
      now split. }
  assert (Hzero : forall d,
    occurs "." (NilZero.string_of_uint d) = false /\
    occurs "/" (NilZero.string_of_uint d) = false).
  { intros d. destruct d; try apply Huint. now split. }
  unfold str, NilZero.string_of_int.
  destruct (Z.to_int n) as [d | d]; [apply Hzero |].
  cbn [occurs Ascii.eqb Bool.eqb orb]. apply Hzero.
Qed.

Lemma copy_suffix_clean k e c :
  occurs c "_copy" = false ->
  occurs c (str k) = false ->
  occurs c e = false ->
  occurs c ("_copy" ++ str k ++ e) = false.
Proof.
  intros H1 H2 H3. now rewrite !occurs_append, H1, H2, H3.
Qed.

Lemma append_assoc (a b c : string) :
  ((a ++ b) ++ c)%string = (a ++ b ++ c)%string.
Proof. induction a; cbn; congruence. Qed.

(** The name of a copy has the extension of the original name, as
    [os.path.splitext] sees it: [_copy{k}] goes before the extension,
    and a name without extension gets none. *)
Theorem copy_name_keeps_the_extension :
  forall original k,
    PosixPath.splitext (copy_name original k)
    = ((fst (PosixPath.splitext original) ++ "_copy" ++ str (Z.of_nat k))
         %string,
       snd (PosixPath.splitext original)) /\
    (fst (PosixPath.splitext original) ++ snd (PosixPath.splitext original))
      %string = original.
Proof.
  intros original k. split; [| apply splitext_join].
  unfold copy_name.
  destruct (str_clean (Z.of_nat k)) as [Hdot Hslash].
  destruct (splitext_cases original)
    as [[Hsplit Hwhy] | (name & e & j & Hp & Hsplit & He & He' & Hd & Hj & Hne)];
    rewrite Hsplit; cbn [fst snd].
  - rewrite !append_empty_r.
    unfold PosixPath.splitext, PosixPath.rfind.
    rewrite !rfind_from_clean_suffix
      by (rewrite occurs_append; cbn; (rewrite Hdot || rewrite Hslash);
          reflexivity).
    fold (PosixPath.rfind original "/") (PosixPath.rfind original ".").
    destruct (_ >? _) eqn:Hgt; [| reflexivity].
    apply Z.gtb_lt in Hgt.
    destruct Hwhy as [Hle | Hall]; [lia |].
    apply skip_leading_dots_all. intros i Hi.
    rewrite <- (Hall i Hi).
    pose proof (rfind_lower original "/") as Hsep.
    assert (Hlen : PosixPath.rfind original "."
                   < Z.of_nat (String.length original)).
    { destruct (rfind_spec original ".") as [[_ ->] | (a & x & -> & _ & ->)];
        [lia |].
      rewrite append_length. cbn [String.length]. lia. }
    replace (PosixPath.rfind original "/" + 1 + Z.of_nat i)
      with (Z.of_nat (Z.to_nat (PosixPath.rfind original "/" + 1) + i))
      by lia.
    apply slice_one_append. lia.
  - pose proof (rfind_lower original "/") as Hsep.
    assert (Hsep' : PosixPath.rfind
                      (name ++ "_copy" ++ str (Z.of_nat k) ++ String "." e) "/"
                    = PosixPath.rfind original "/").
    { unfold PosixPath.rfind. rewrite Hp.
      rewrite !rfind_from_clean_suffix; try reflexivity.
      - cbn [occurs Ascii.eqb Bool.eqb orb]. exact He'.
      - rewrite !occurs_append. cbn [occurs Ascii.eqb Bool.eqb orb].
        now rewrite Hslash, He'. }
    assert (Hdot' : PosixPath.rfind
                      (name ++ "_copy" ++ str (Z.of_nat k) ++ String "." e) "."
                    = Z.of_nat (String.length
                                  (name ++ "_copy" ++ str (Z.of_nat k)))).
    { unfold PosixPath.rfind.
      rewrite <- (append_assoc "_copy"), <- (append_assoc name).
      rewrite rfind_from_last by exact He. lia. }
    unfold PosixPath.splitext. rewrite Hsep', Hdot'.
    assert (Hlen : (String.length name
                    <= String.length (name ++ "_copy" ++ str (Z.of_nat k)))%nat)
      by (rewrite append_length; lia).
    destruct (_ >? _) eqn:Hgt; [| rewrite Z.gtb_ltb in Hgt; apply Z.ltb_ge in Hgt; lia].
    rewrite skip_leading_dots_found.
    + rewrite <- (append_assoc "_copy"), <- (append_assoc name).
      now destruct (slice_at_length (name ++ "_copy" ++ str (Z.of_nat k))
                                    (String "." e)) as [-> ->].
    + exists j. split; [lia |].
      replace (PosixPath.rfind original "/" + 1 + Z.of_nat j)
        with (Z.of_nat (Z.to_nat (PosixPath.rfind original "/" + 1) + j))
        in Hne |- * by lia.
      assert (Hi : (Z.to_nat (PosixPath.rfind original "/" + 1) + j
                    < String.length name)%nat) by lia.
      revert Hne Hi.
      generalize (Z.to_nat (PosixPath.rfind original "/" + 1) + j)%nat.
      intros i Hne Hi. rewrite Hp in Hne.
      rewrite slice_one_append in Hne |- * by exact Hi.
      exact Hne.
Qed.

Lemma append_cancel_l a : forall x y : string,
  (a ++ x = a ++ y)%string -> x = y.
Proof.
  induction a as [| c a IH]; intros x y H; [exact H |].
  cbn [append] in H. injection H as H. now apply IH.
Qed.

Lemma append_cancel_r e : forall x y : string,
  (x ++ e = y ++ e)%string -> x = y.
Proof.
  intros x y H.
  assert (Hlen : String.length x = String.length y).
  { apply (f_equal String.length) in H. rewrite !append_length in H. lia. }
  revert y H Hlen.
  induction x as [| c x IH]; intros [| d y] H Hlen;
    cbn [String.length] in Hlen; try lia; [reflexivity |].
  cbn [append] in H. injection H as -> H. f_equal. apply IH; [exact H | lia].
Qed.

Lemma to_int_nonnil z :
  Z.to_int z <> Decimal.Pos Decimal.Nil /\
  Z.to_int z <> Decimal.Neg Decimal.Nil.
Proof.
  split; intros H; pose proof (DecimalZ.of_to z) as Hz; rewrite H in Hz;
    cbn in Hz; subst z; discriminate.
Qed.

Lemma str_inj a b : str a = str b -> a = b.
Proof.
  unfold str. intros H. apply DecimalZ.to_int_inj.
  destruct (to_int_nonnil a) as [Ha Ha'], (to_int_nonnil b) as [Hb Hb'].
  pose proof (NilZero.isi _ Ha Ha') as Hia.
  pose proof (NilZero.isi _ Hb Hb') as Hib.
  rewrite H in Hia. congruence.
Qed.

(** The names of the copies are pairwise distinct and none is the
    original name: the search for a free name asks for no copy twice. *)
Theorem copy_names_are_distinct :
  forall original j k,
    String.eqb (copy_name original j) (copy_name original k) = Nat.eqb j k /\
    String.eqb (copy_name original k) original = false.
Proof.
  intros original j k. split.
  - destruct (Nat.eqb j k) eqn:Hjk.
    + apply Nat.eqb_eq in Hjk. subst k. apply String.eqb_refl.
    + apply String.eqb_neq. intros H. apply Nat.eqb_neq in Hjk. apply Hjk.
      unfold copy_name in H.
      apply append_cancel_l, append_cancel_l in H.
      apply append_cancel_r, str_inj in H. lia.
  - apply String.eqb_neq. intros H.
    apply (f_equal String.length) in H.
    unfold copy_name in H.
    rewrite <- (splitext_join original) in H at 3.
    rewrite !append_length in H.
    cbn [String.length] in H. lia.
Qed.

(** *** The name under which a download is saved *)

(** Whatever the user answers, the name chosen ends with the extension
    of the original name; a name typed with that extension is kept as
    it is, so choosing again from the chosen name changes nothing. *)
Theorem download_name_ends_with_the_original_extension :
  forall original_filename keep_original_name new_filename,
    let filename :=
      Pan123FileManager.download_filename
        original_filename keep_original_name new_filename in
    endswith filename (snd (PosixPath.splitext original_filename)) = true /\
    Pan123FileManager.download_filename
      original_filename keep_original_name filename
    = filename.
Proof.
  intros original_filename keep_original_name new_filename filename.
  assert (Hends : endswith filename
                           (snd (PosixPath.splitext original_filename))
                  = true).
  { subst filename. unfold Pan123FileManager.download_filename.
    destruct (String.eqb keep_original_name "y").
    - rewrite <- (splitext_join original_filename) at 1.
      apply endswith_append.
    - destruct (endswith new_filename _) eqn:Hnew; [exact Hnew |].
      apply endswith_append. }
  split; [exact Hends |].
  unfold Pan123FileManager.download_filename at 1.
  rewrite Hends.
  subst filename. unfold Pan123FileManager.download_filename.
  now destruct (String.eqb keep_original_name "y").
Qed.

(** [save_path] is only a default.  A name that starts with a slash --
    the original name, which comes from the download address, or the
    name typed -- is the whole path handed to [wget], and [save_path] is
    dropped; any other name is appended to [save_path]. *)
Theorem absolute_name_is_saved_outside_save_path :
  forall save_path original_filename keep_original_name new_filename,
    let filename :=
      Pan123FileManager.download_filename
        original_filename keep_original_name new_filename in
    let full_save_path :=
      Pan123FileManager.full_save_path
        save_path original_filename keep_original_name new_filename in
    (startswith filename "/" = true -> full_save_path = filename) /\
    (startswith filename "/" = false ->
     startswith full_save_path save_path = true /\
     endswith full_save_path filename = true).
Proof.
  intros save_path original_filename keep_original_name new_filename
         filename full_save_path.
  subst full_save_path. unfold Pan123FileManager.full_save_path.
  fold filename. unfold PosixPath.join.
  split; intros Hslash; rewrite Hslash; [reflexivity |].
  unfold startswith.
  destruct (_ || _).
  - split; [apply prefix_append | apply endswith_append].
  - split; [apply prefix_append |].
    rewrite <- append_assoc. apply endswith_append.
Qed.

Lemma absolute_name_is_saved_outside_save_path_witness :
  Pan123FileManager.full_save_path "downloads" "/etc/rc.local" "y" ""
  = "/etc/rc.local"%string /\
  Pan123FileManager.full_save_path "downloads" "a.txt" "n" "b"
  = "downloads/b.txt"%string.
Proof.
  destruct (absolute_name_is_saved_outside_save_path
              "downloads" "/etc/rc.local" "y" "") as [Habsolute _].
  split; [apply Habsolute; reflexivity | reflexivity].
Defined.

(** *** What every run of the manager's upload shows *)

(** The search for a free name from the check of rank [j + 1], whatever
    the service answers: it asks for the names in turn and touches
    nothing else, and the name it returns is the one of its last check,
    which no entry of the answer bears. *)
Lemma free_filename_any on_file_list original parent_id fuel :
  forall j w,
    gets w = queries original parent_id (S j) ->
    let run :=
      Pan123FileManager.free_filename
        on_file_list fuel
        (fst (PosixPath.splitext original)) (snd (PosixPath.splitext original))
        (queried original (S j)) (Z.of_nat j + 1) parent_id w in
    exists n,
      gets (snd run) = queries original parent_id (S n) /\
      prompts (snd run) = prompts w /\
      session (snd run) = session w /\
      forall filename,
        fst run = Returns filename ->
        filename = queried original n /\
        name_free (on_file_list n) (queried original n).
Proof.
  induction fuel as [| fuel IH]; intros j w Hgets run; subst run.
  - exists j. cbn. repeat split; try assumption; discriminate.
  - cbn [Pan123FileManager.free_filename].
    assert (Hrank : List.length (gets w) = S j)
      by (rewrite Hgets; apply queries_length).
    unfold and_then at 1.
    unfold Pan123FileManager.check_file_exists, and_then,
      Pan123FileManager.requests_get.
    rewrite Hrank, Hgets, <- queries_last.
    destruct (code (on_file_list (S j)) =? 0) eqn:Hcode; cbn [negb].
    + unfold returns.
      destruct (find (has_filename (queried original (S j)))
                     (fileList (data (on_file_list (S j))))) eqn:Hfind.
      * replace (Z.of_nat j + 1 + 1) with (Z.of_nat (S j) + 1) by lia.
        replace (Z.of_nat j + 1) with (Z.of_nat (S j)) by lia.
        change (fst (PosixPath.splitext original) ++ "_copy"
                ++ str (Z.of_nat (S j))
                ++ snd (PosixPath.splitext original))%string
          with (queried original (S (S j))).
        apply (IH (S j)
                  {| gets := queries original parent_id (S (S j));
                     prompts := prompts w; session := session w |}).
        reflexivity.
      * exists (S j). cbn [fst snd gets prompts session].
        repeat split; try reflexivity.
        -- now injection H.
        -- now apply Z.eqb_eq.
        -- now rewrite find_existsb, Hfind.
    + exists (S j). cbn [fst snd gets prompts session].
      repeat split; try reflexivity; discriminate.
Qed.

(** Whatever the service and the user answer, the manager asks the user
    at most once, its queries are the checks of the names in turn, and
    either no request of the upload session was sent, or the session is
    the one of [Pan123Uploader] under the name of the last check, which
    that check found free: nothing is uploaded under a name that the
    last answer of the service shows in the folder. *)
Theorem upload_starts_only_under_a_name_found_free :
  forall on_file_list upload_copy remote fuel file parent_id,
    let w := snd (Pan123FileManager.upload_file
                    on_file_list upload_copy remote fuel file parent_id idle) in
    (prompts w <= 1)%nat /\
    exists n,
      gets w = queries (basename file) parent_id (S n) /\
      (session w = start \/
       name_free (on_file_list n) (queried (basename file) n) /\
       session w
       = snd (upload_file remote fuel
                          (renamed file (queried (basename file) n))
                          parent_id start)).
Proof.
  intros on_file_list upload_copy remote fuel file parent_id w. subst w.
  destruct (Z.eq_dec (code (on_file_list 0%nat)) 0) as [Hcode | Hcode];
    [| rewrite upload_file_first_check_refused by exact Hcode;
       split; [cbn; lia | exists 0%nat; split; [reflexivity | now left]]].
  destruct (existsb (has_filename (basename file))
                    (fileList (data (on_file_list 0%nat)))) eqn:Hshown;
    [| rewrite upload_file_free_name by (now split);
       split; [cbn; lia |];
       exists 0%nat; split; [reflexivity |]; right; now split].
  assert (Htaken : name_taken (on_file_list 0%nat) (basename file))
    by now split.
  destruct (string_dec upload_copy "y") as [-> | Hno];
    [| rewrite upload_file_declined by assumption;
       split; [cbn; lia | exists 0%nat; split; [reflexivity | now left]]].
  rewrite upload_file_copy by (try reflexivity; exact Htaken).
  destruct (free_filename_any
              on_file_list (basename file) parent_id fuel 0
              {| gets := queries (basename file) parent_id 1;
                 prompts := 1; session := start |} eq_refl)
    as (n & Hgets & Hprompts & Hsession & Hname).
  cbn [prompts session] in Hprompts, Hsession.
  unfold and_then.
  destruct (Pan123FileManager.free_filename _ _ _ _ _ _ _ _)
    as [[filename | e | status |] w'];
    cbn [fst snd] in Hgets, Hprompts, Hsession, Hname |- *;
    try (split; [lia | exists n; split; [exact Hgets | now left]]).
  destruct (Hname filename eq_refl) as [-> Hfree].
  unfold in_session. cbn [snd prompts gets session].
  split; [lia |]. exists n. split; [exact Hgets |]. right.
  split; [exact Hfree |]. now rewrite Hsession.
Qed.
